(** * Production Intelligence System: the client-side data-synchronisation core

    A shallow embedding of the TypeScript sources that decide the specified
    behaviour of the dashboard, followed by the properties proved of them.

    Definitions:
    - [Js]: decoded JSON values;
    - [Double]: the rounding of a rational to the nearest double;
    - [Zod]: the zod combinators the schemas are written with;
    - [Schemas]: [types/schemas.ts], the schemas that normalise the
      hierarchy payload ([AssetsResponseSchema]) and the topology
      ([ProductionFlowSchema]);
    - [GapDrivers]: the [GET /api/gap-drivers] handler of
      [api/mocks/handlers.ts];
    - [QueryClient]: the part of the TanStack Query v5 client that the hooks
      call (prefix matching of query keys, [setQueryData], [setQueriesData],
      [invalidateQueries], the callbacks of a mutation);
    - [Api]: the errors [api/axios.ts] rejects with;
    - [Optimisations]: the optimistic acknowledge and implement mutations of
      [hooks/useOptimisations.ts];
    - [WebSocketEvents]: the event switch of [hooks/useWebSocket.ts];
    - [Retry]: the retry options of [main.tsx], [hooks/useNodes.ts],
      [hooks/useAssets.ts], [hooks/useProductionFlow.ts] and
      [hooks/useOptimisations.ts], and the retry loop they configure.

    Properties: [SchemaFacts] (ingestion), [GapDriverFacts] (ranking),
    [OptimisationFacts] (optimistic mutations), [WebSocketFacts] (push
    events), [RetryFacts] (retry policies).

    JavaScript numbers are IEEE 754 doubles.  A finite double is a
    rational, so numbers are kept in [Q]; an arithmetic operation whose
    exact result need not be a double ([+], [-], [*], [/], the reading of
    a decimal numeral) is the exact operation followed by [Double.fl], the
    rounding to the nearest double, ties to even.  Comparison, [Math.floor]
    and [Math.max] are exact on doubles.  The retry delays and the paging
    of the mock filters work on small whole numbers, where the operations
    are exact, and are kept in [Z]. *)

From Stdlib Require Import List String Ascii ZArith QArith Qround Qminmax Qabs Qpower.
From Stdlib Require Import Bool Lia Lqa.
From Stdlib Require Import Sorting.Sorted Sorting.Permutation DecimalString.
Import ListNotations.

Set Warnings "-register-all".

Local Open Scope string_scope.

(* ------------------------------------------------------------------ *)
(** * JavaScript values as they arrive from [JSON.parse]               *)
(* ------------------------------------------------------------------ *)

Module Js.

Definition number := Q.

(** A decoded JSON document.  A property that is missing ([undefined] in
    JavaScript) is the [None] of [field]. *)
Inductive JsValue : Type :=
| JNull
| JBool (b : bool)
| JNum (n : number)
| JStr (s : string)
| JArr (xs : list JsValue)
| JObj (fields : list (string * JsValue)).

Fixpoint assoc {A : Type} (k : string) (l : list (string * A)) : option A :=
  match l with
  | [] => None
  | (k', v) :: rest => if String.eqb k k' then Some v else assoc k rest
  end.

(** [value[k]] for an object; [undefined] for anything else. *)
Definition field (k : string) (v : JsValue) : option JsValue :=
  match v with
  | JObj fs => assoc k fs
  | _ => None
  end.

(** The elements of [value[k]] when it is an array, none otherwise. *)
Definition elements (k : string) (v : JsValue) : list JsValue :=
  match field k v with
  | Some (JArr xs) => xs
  | _ => []
  end.

(** [value[k1][k2]...], [undefined] as soon as a step is missing. *)
Fixpoint at_path (p : list string) (v : JsValue) : option JsValue :=
  match p with
  | [] => Some v
  | k :: p' =>
      match field k v with
      | Some v' => at_path p' v'
      | None => None
      end
  end.

Definition Qltb (a b : Q) : bool := negb (Qle_bool b a).

End Js.

(* ------------------------------------------------------------------ *)
(** * IEEE 754 binary64: rounding to the nearest double                *)
(* ------------------------------------------------------------------ *)

Module Double.

(** [2 ** e] *)
Definition pow2 (e : Z) : Q := 2 ^ e.

(** The exponent of a positive [x]: the [e] with [2^e <= x < 2^(e+1)]. *)
Definition floorLog2 (x : Q) : Z :=
  let k := (Z.log2 (Qnum x) - Z.log2 (Zpos (Qden x)))%Z in
  if Qle_bool (pow2 k) x then k else (k - 1)%Z.

(** The whole number nearest to [x], the even one on a tie. *)
Definition roundHalfEven (x : Q) : Z :=
  let f := Qfloor x in
  match Qcompare (x - inject_Z f) (1 # 2) with
  | Lt => f
  | Gt => (f + 1)%Z
  | Eq => if Z.even f then f else (f + 1)%Z
  end.

(** The double nearest to a positive [x]: a significand of 53 bits at the
    exponent of [x], and the multiples of [2^-1074] below the smallest
    normal number. *)
Definition nearest (x : Q) : Q :=
  let e := Z.max (floorLog2 x - 52) (-1074) in
  inject_Z (roundHalfEven (x / pow2 e)) * pow2 e.

(** The double an operation returns whose exact result is [x], in lowest
    terms.  A result beyond the largest double is [Infinity] in
    JavaScript; [fl] has no infinities and keeps rounding to 53 bits
    there, so it stands for the operation only while the magnitudes stay
    below [2^1024]. *)
Definition fl (x : Q) : Q :=
  Qred match Qcompare x 0 with
       | Eq => 0
       | Gt => nearest x
       | Lt => - nearest (- x)
       end.

End Double.

(* ------------------------------------------------------------------ *)
(** * zod: the combinators the schemas are built from                  *)
(* ------------------------------------------------------------------ *)

Module Zod.
Import Js.

Inductive ZodIssueCode := invalid_type | too_small | invalid_enum_value.

Inductive PathItem := PKey (k : string) | PIndex (i : nat).

Record ZodIssue := { code : ZodIssueCode; path : list PathItem }.

(** The outcome of [schema.parse(data)]: the parsed output, or the thrown
    [ZodError].  zod collects every issue before it throws; only the first
    one in schema order is kept here, which does not change whether
    [parse] throws. *)
Inductive SafeParse (A : Type) : Type :=
| Success (data : A)
| Failure (issue : ZodIssue).
Arguments Success {A} data.
Arguments Failure {A} issue.

Definition bind {A B} (r : SafeParse A) (k : A -> SafeParse B) : SafeParse B :=
  match r with
  | Success a => k a
  | Failure i => Failure i
  end.

Definition fail {A} (c : ZodIssueCode) : SafeParse A :=
  Failure {| code := c; path := [] |}.

(** Issues raised below a property or an index carry it in their path. *)
Definition under {A} (p : PathItem) (r : SafeParse A) : SafeParse A :=
  match r with
  | Success a => Success a
  | Failure i => Failure {| code := code i; path := p :: path i |}
  end.

Definition is_success {A} (r : SafeParse A) : bool :=
  match r with Success _ => true | Failure _ => false end.

(** A schema reads a possibly missing value. *)
Definition Schema (A : Type) := option JsValue -> SafeParse A.

Definition string_ : Schema string := fun v =>
  match v with
  | Some (JStr s) => Success s
  | _ => fail invalid_type
  end.

Definition number_ : Schema number := fun v =>
  match v with
  | Some (JNum n) => Success n
  | _ => fail invalid_type
  end.

(** [z.number().nonnegative()]: the check rejects [data < 0]. *)
Definition nonnegative (s : Schema number) : Schema number := fun v =>
  bind (s v) (fun n => if Qltb n 0 then fail too_small else Success n).

(** [z.enum([...])], each accepted string paired with its constructor. *)
Definition enum_ {A} (values : list (string * A)) : Schema A := fun v =>
  match v with
  | Some (JStr s) =>
      match assoc s values with
      | Some a => Success a
      | None => fail invalid_enum_value
      end
  | _ => fail invalid_type
  end.

(** [schema.optional()]: [undefined] passes through. *)
Definition optional {A} (s : Schema A) : Schema (option A) := fun v =>
  match v with
  | None => Success None
  | Some _ => bind (s v) (fun a => Success (Some a))
  end.

(** [schema.default(d)]: [undefined] is replaced by [d], which is then
    parsed by the inner schema (zod 3; zod 4 returns [d] as it is, which
    gives the same output for every default written in [schemas.ts]). *)
Definition default {A} (d : JsValue) (s : Schema A) : Schema A := fun v =>
  match v with
  | None => s (Some d)
  | Some _ => s v
  end.

Fixpoint each {A} (s : Schema A) (i : nat) (xs : list JsValue) : SafeParse (list A) :=
  match xs with
  | [] => Success []
  | x :: rest =>
      bind (under (PIndex i) (s (Some x))) (fun a =>
      bind (each s (S i) rest) (fun l => Success (a :: l)))
  end.

(** [z.array(schema)]. *)
Definition array {A} (s : Schema A) : Schema (list A) := fun v =>
  match v with
  | Some (JArr xs) => each s 0 xs
  | _ => fail invalid_type
  end.

(** [z.object({...})] accepts objects only; the shape reads its properties
    with [prop].  Unknown properties are stripped, since only the shape is
    read. *)
Definition object {A} (shape : JsValue -> SafeParse A) : Schema A := fun v =>
  match v with
  | Some (JObj fs) => shape (JObj fs)
  | _ => fail invalid_type
  end.

Definition prop {A} (k : string) (s : Schema A) (o : JsValue) : SafeParse A :=
  under (PKey k) (s (field k o)).

(** [schema.transform(f)]. *)
Definition transform {A B} (s : Schema A) (f : A -> B) : Schema B := fun v =>
  bind (s v) (fun a => Success (f a)).

End Zod.

Notation "x <- r ;; k" := (Zod.bind r (fun x => k))
  (at level 61, r at next level, right associativity).

(* ------------------------------------------------------------------ *)
(** * types/schemas.ts: the hierarchy and topology schemas             *)
(* ------------------------------------------------------------------ *)

Module Schemas.
Import Js Zod.

Inductive Trend := up | down | stable.

Definition TrendSchema : Schema Trend :=
  enum_ [("up", up); ("down", down); ("stable", stable)].

Definition Trend_toJs (t : Trend) : JsValue :=
  JStr match t with up => "up" | down => "down" | stable => "stable" end.

Record NetworkMetrics := {
  maxCapacity : number;
  businessTarget : number;
  currentProduction : number;
  deferment : number;
  unit : string;
  trend : Trend;
  changePercent : number
}.

(** Default metrics used for flared gas to ensure presence across all
    levels. *)
Definition DEFAULT_FLARED_GAS_METRICS : NetworkMetrics := {|
  maxCapacity := 0;
  businessTarget := 0;
  currentProduction := 0;
  deferment := 0;
  unit := "mcf/d";
  trend := stable;
  changePercent := 0
|}.

(** The same object seen as a raw value, where it is passed to
    [.default(...)]. *)
Definition NetworkMetrics_toJs (m : NetworkMetrics) : JsValue :=
  JObj [("maxCapacity", JNum (maxCapacity m));
        ("businessTarget", JNum (businessTarget m));
        ("currentProduction", JNum (currentProduction m));
        ("deferment", JNum (deferment m));
        ("unit", JStr (unit m));
        ("trend", Trend_toJs (trend m));
        ("changePercent", JNum (changePercent m))].

(** [z.number().nonnegative().optional().default(0)]: under [default] the
    inner [optional] never sees [undefined]. *)
Definition nonnegative_default_0 : Schema number :=
  default (JNum 0) (nonnegative number_).

Definition NetworkMetricsSchema : Schema NetworkMetrics :=
  object (fun o =>
    maxCapacity <- prop "maxCapacity" nonnegative_default_0 o ;;
    businessTarget <- prop "businessTarget" nonnegative_default_0 o ;;
    currentProduction <- prop "currentProduction" nonnegative_default_0 o ;;
    deferment <- prop "deferment" nonnegative_default_0 o ;;
    unit <- prop "unit" (default (JStr "bbl/d") string_) o ;;
    trend <- prop "trend" (default (JStr "stable") TrendSchema) o ;;
    changePercent <- prop "changePercent" (default (JNum 0) number_) o ;;
    Success {| maxCapacity := maxCapacity; businessTarget := businessTarget;
               currentProduction := currentProduction; deferment := deferment;
               unit := unit; trend := trend; changePercent := changePercent |}).

(** The output of the networks schemas: a partial record over the four
    network keys. *)
Record Networks := {
  oil : option NetworkMetrics;
  domesticGas : option NetworkMetrics;
  exportGas : option NetworkMetrics;
  flaredGas : option NetworkMetrics
}.

Inductive NetworkKey := k_oil | k_domesticGas | k_exportGas | k_flaredGas.

Definition NetworkKey_name (k : NetworkKey) : string :=
  match k with
  | k_oil => "oil"
  | k_domesticGas => "domesticGas"
  | k_exportGas => "exportGas"
  | k_flaredGas => "flaredGas"
  end.

Definition network (k : NetworkKey) (n : Networks) : option NetworkMetrics :=
  match k with
  | k_oil => oil n
  | k_domesticGas => domesticGas n
  | k_exportGas => exportGas n
  | k_flaredGas => flaredGas n
  end.

(** [z.object({ oil: NetworkMetricsSchema.optional(), ... }).partial()] *)
Definition networksObject : Schema Networks :=
  object (fun o =>
    oil <- prop "oil" (optional NetworkMetricsSchema) o ;;
    domesticGas <- prop "domesticGas" (optional NetworkMetricsSchema) o ;;
    exportGas <- prop "exportGas" (optional NetworkMetricsSchema) o ;;
    flaredGas <- prop "flaredGas" (optional NetworkMetricsSchema) o ;;
    Success {| oil := oil; domesticGas := domesticGas;
               exportGas := exportGas; flaredGas := flaredGas |}).

(** [{ ...DEFAULT_FLARED_GAS_METRICS, ...flared }]: [flared] is a parsed
    metrics object, it owns all seven properties and overrides each. *)
Definition spreadOverDefault (flared : NetworkMetrics) : NetworkMetrics := {|
  maxCapacity := maxCapacity flared;
  businessTarget := businessTarget flared;
  currentProduction := currentProduction flared;
  deferment := deferment flared;
  unit := unit flared;
  trend := trend flared;
  changePercent := changePercent flared
|}.

(** The [.transform((networks) => ...)] shared by the three networks
    schemas. *)
Definition withFlaredGas (existing : Networks) : Networks :=
  let flared := match flaredGas existing with
                | Some f => f
                | None => DEFAULT_FLARED_GAS_METRICS
                end in
  {| oil := oil existing;
     domesticGas := domesticGas existing;
     exportGas := exportGas existing;
     flaredGas := Some (spreadOverDefault flared) |}.

Definition defaultNetworks : JsValue :=
  JObj [("flaredGas", NetworkMetrics_toJs DEFAULT_FLARED_GAS_METRICS)].

Definition FacilityNetworksSchema : Schema Networks :=
  transform (default defaultNetworks networksObject) withFlaredGas.

Definition UnitNetworksSchema : Schema Networks :=
  transform (default defaultNetworks networksObject) withFlaredGas.

Inductive FacilityType := flowstation | compressor_station | gas_plant | terminal.

Definition FacilityTypeSchema : Schema FacilityType :=
  enum_ [("flowstation", flowstation); ("compressor-station", compressor_station);
         ("gas-plant", gas_plant); ("terminal", terminal)].

Record FacilityRef := {
  fac_id : string;
  fac_type : FacilityType;
  fac_networks : Networks
}.

Definition FacilityRefSchema : Schema FacilityRef :=
  object (fun o =>
    id <- prop "id" string_ o ;;
    type <- prop "type" FacilityTypeSchema o ;;
    networks <- prop "networks" (default defaultNetworks FacilityNetworksSchema) o ;;
    Success {| fac_id := id; fac_type := type; fac_networks := networks |}).

Inductive UnitStatus := online | offline | maintenance | startup.

Record ProductionUnit := {
  unit_id : string;
  unit_name : string;
  unit_status : UnitStatus;
  equipmentCount : number;
  activeEquipment : number;
  unit_lastUpdated : string;
  facilities : list FacilityRef;
  unit_networks : Networks
}.

Definition ProductionUnitSchema : Schema ProductionUnit :=
  object (fun o =>
    id <- prop "id" string_ o ;;
    name <- prop "name" string_ o ;;
    status <- prop "status"
      (default (JStr "online")
         (enum_ [("online", online); ("offline", offline);
                 ("maintenance", maintenance); ("startup", startup)])) o ;;
    equipmentCount <- prop "equipmentCount" (default (JNum 0) (nonnegative number_)) o ;;
    activeEquipment <- prop "activeEquipment" (default (JNum 0) (nonnegative number_)) o ;;
    lastUpdated <- prop "lastUpdated" string_ o ;;
    facilities <- prop "facilities" (default (JArr []) (array FacilityRefSchema)) o ;;
    networks <- prop "networks" UnitNetworksSchema o ;;
    Success {| unit_id := id; unit_name := name; unit_status := status;
               equipmentCount := equipmentCount; activeEquipment := activeEquipment;
               unit_lastUpdated := lastUpdated; facilities := facilities;
               unit_networks := networks |}).

Inductive PerformanceTrend := increasing | perf_stable | decreasing.

Record AssetPerformance := {
  perf_currentProduction : number;
  perf_capacity : number;
  perf_businessTarget : number;
  perf_deferment : number;
  perf_trend : PerformanceTrend;
  perf_changePercent : number
}.

Definition AssetPerformanceSchema : Schema AssetPerformance :=
  object (fun o =>
    currentProduction <- prop "currentProduction" (default (JNum 0) (nonnegative number_)) o ;;
    capacity <- prop "capacity" (default (JNum 0) (nonnegative number_)) o ;;
    businessTarget <- prop "businessTarget" (default (JNum 0) (nonnegative number_)) o ;;
    deferment <- prop "deferment" (default (JNum 0) (nonnegative number_)) o ;;
    trend <- prop "trend"
      (default (JStr "stable")
         (enum_ [("increasing", increasing); ("stable", perf_stable);
                 ("decreasing", decreasing)])) o ;;
    changePercent <- prop "changePercent" (default (JNum 0) number_) o ;;
    Success {| perf_currentProduction := currentProduction; perf_capacity := capacity;
               perf_businessTarget := businessTarget; perf_deferment := deferment;
               perf_trend := trend; perf_changePercent := changePercent |}).

Record AssetSummary := {
  totalUnits : number;
  activeUnits : number;
  offlineUnits : number
}.

Definition AssetSummarySchema : Schema AssetSummary :=
  object (fun o =>
    totalUnits <- prop "totalUnits" (default (JNum 0) (nonnegative number_)) o ;;
    activeUnits <- prop "activeUnits" (default (JNum 0) (nonnegative number_)) o ;;
    offlineUnits <- prop "offlineUnits" (default (JNum 0) (nonnegative number_)) o ;;
    Success {| totalUnits := totalUnits; activeUnits := activeUnits;
               offlineUnits := offlineUnits |}).

Record AssetConstraints := {
  active : number;
  critical : number;
  warning : number
}.

Definition AssetConstraintsSchema : Schema AssetConstraints :=
  object (fun o =>
    active <- prop "active" (default (JNum 0) (nonnegative number_)) o ;;
    critical <- prop "critical" (default (JNum 0) (nonnegative number_)) o ;;
    warning <- prop "warning" (default (JNum 0) (nonnegative number_)) o ;;
    Success {| active := active; critical := critical; warning := warning |}).

Inductive AssetId := east | west.

Definition AssetIdSchema : Schema AssetId :=
  enum_ [("east", east); ("west", west)].

Inductive AssetStatus := st_normal | st_warning | st_critical.

Record AssetItem := {
  asset_id : AssetId;
  asset_name : string;
  asset_status : AssetStatus;
  performance : AssetPerformance;
  productionUnits : list ProductionUnit;
  summary : AssetSummary;
  constraints : AssetConstraints
}.

Definition AssetItemSchema : Schema AssetItem :=
  object (fun o =>
    id <- prop "id" AssetIdSchema o ;;
    name <- prop "name" string_ o ;;
    status <- prop "status"
      (default (JStr "normal")
         (enum_ [("normal", st_normal); ("warning", st_warning);
                 ("critical", st_critical)])) o ;;
    performance <- prop "performance" AssetPerformanceSchema o ;;
    productionUnits <- prop "productionUnits" (default (JArr []) (array ProductionUnitSchema)) o ;;
    summary <- prop "summary" AssetSummarySchema o ;;
    constraints <- prop "constraints" AssetConstraintsSchema o ;;
    Success {| asset_id := id; asset_name := name; asset_status := status;
               performance := performance; productionUnits := productionUnits;
               summary := summary; constraints := constraints |}).

Record Comparison := {
  productionDifference : number;
  comparison_trend : string
}.

Record AssetsResponse := {
  assets : list AssetItem;
  comparison : Comparison;
  timestamp : string
}.

Definition AssetsResponseSchema : Schema AssetsResponse :=
  object (fun o =>
    assets <- prop "assets" (array AssetItemSchema) o ;;
    comparison <- prop "comparison"
      (object (fun c =>
         productionDifference <- prop "productionDifference" (default (JNum 0) number_) c ;;
         trend <- prop "trend" (default (JStr EmptyString) string_) c ;;
         Success {| productionDifference := productionDifference;
                    comparison_trend := trend |})) o ;;
    timestamp <- prop "timestamp" string_ o ;;
    Success {| assets := assets; comparison := comparison; timestamp := timestamp |}).

(** The [queryFn] of [useAssets] after the transport has answered with
    [response.data]: [AssetsResponseSchema.parse(response.data)].  A
    [Failure] is the [ZodError] that [parse] throws, which rejects the
    query. *)
Definition useAssets_queryFn (responseData : JsValue) : SafeParse AssetsResponse :=
  AssetsResponseSchema (Some responseData).

(** ** Production flow topology *)

Record TopologyUnit := {
  tu_id : string;
  tu_name : string;
  tu_assetId : AssetId
}.

Definition TopologyUnitSchema : Schema TopologyUnit :=
  object (fun o =>
    id <- prop "id" string_ o ;;
    name <- prop "name" string_ o ;;
    assetId <- prop "assetId" AssetIdSchema o ;;
    Success {| tu_id := id; tu_name := name; tu_assetId := assetId |}).

Record TopologyFacility := {
  tf_id : string;
  tf_name : string;
  tf_type : FacilityType;
  tf_unitId : string;
  tf_status : string;
  tf_networks : Networks
}.

Definition TopologyFacilitySchema : Schema TopologyFacility :=
  object (fun o =>
    id <- prop "id" string_ o ;;
    name <- prop "name" string_ o ;;
    type <- prop "type" FacilityTypeSchema o ;;
    unitId <- prop "unitId" string_ o ;;
    status <- prop "status" string_ o ;;
    networks <- prop "networks" (default defaultNetworks FacilityNetworksSchema) o ;;
    Success {| tf_id := id; tf_name := name; tf_type := type; tf_unitId := unitId;
               tf_status := status; tf_networks := networks |}).

Inductive Product := p_oil | p_gas.

Record TopologyEdge := {
  sourceId : string;
  targetId : string;
  product : Product;
  edge_maxCapacity : number;
  currentThroughput : number;
  edge_status : string
}.

Definition TopologyEdgeSchema : Schema TopologyEdge :=
  object (fun o =>
    sourceId <- prop "sourceId" string_ o ;;
    targetId <- prop "targetId" string_ o ;;
    product <- prop "product" (enum_ [("oil", p_oil); ("gas", p_gas)]) o ;;
    maxCapacity <- prop "maxCapacity" (nonnegative number_) o ;;
    currentThroughput <- prop "currentThroughput" (nonnegative number_) o ;;
    status <- prop "status" string_ o ;;
    Success {| sourceId := sourceId; targetId := targetId; product := product;
               edge_maxCapacity := maxCapacity; currentThroughput := currentThroughput;
               edge_status := status |}).

Record ProductionFlow := {
  flow_units : list TopologyUnit;
  flow_facilities : list TopologyFacility;
  flow_edges : list TopologyEdge
}.

Definition ProductionFlowSchema : Schema ProductionFlow :=
  object (fun o =>
    units <- prop "units" (array TopologyUnitSchema) o ;;
    facilities <- prop "facilities" (array TopologyFacilitySchema) o ;;
    edges <- prop "edges" (array TopologyEdgeSchema) o ;;
    Success {| flow_units := units; flow_facilities := facilities; flow_edges := edges |}).

(** ** Payloads of the mock transport used below *)

Definition metricsJs (maxCapacity businessTarget currentProduction deferment : number)
  (unit trend : string) (changePercent : number) : JsValue :=
  JObj [("maxCapacity", JNum maxCapacity); ("businessTarget", JNum businessTarget);
        ("currentProduction", JNum currentProduction); ("deferment", JNum deferment);
        ("unit", JStr unit); ("trend", JStr trend); ("changePercent", JNum changePercent)].

(** The facility [flowstation-001] as [GET /api/assets] returns it. *)
Definition flowstation_001 : JsValue :=
  JObj [("id", JStr "flowstation-001");
        ("type", JStr "flowstation");
        ("networks", JObj [
           ("oil", metricsJs 5000 4200 3800 1200 "bbl/d" "down" (-1.3));
           ("flaredGas", metricsJs 800 600 500 300 "mcf/d" "stable" 0.0)])].

(** The fourth facility of the same unit: [{ id: 'terminal-001', type:
    'terminal' }], no networks at all. *)
Definition terminal_001 : JsValue :=
  JObj [("id", JStr "terminal-001"); ("type", JStr "terminal")].

(** A facility whose feed lost its [type]. *)
Definition facility_without_type : JsValue :=
  JObj [("id", JStr "flowstation-009");
        ("networks", JObj [("oil", metricsJs 5000 4200 3800 400 "bbl/d" "down" (-1.3))])].

(** A payload in the shape of the [GET /api/assets] answer: the east asset
    with one production unit holding the given facilities. *)
Definition unitJs (id name : string) (facilities : list JsValue) : JsValue :=
  JObj [("id", JStr id); ("name", JStr name); ("status", JStr "online");
        ("equipmentCount", JNum 8); ("activeEquipment", JNum 7);
        ("lastUpdated", JStr "2025-01-01T00:00:00.000Z");
        ("facilities", JArr facilities)].

Definition assetsPayload (facilities : list JsValue) : JsValue :=
  JObj [("assets", JArr [
           JObj [("id", JStr "east"); ("name", JStr "East Asset"); ("status", JStr "normal");
                 ("performance", JObj [("currentProduction", JNum 45000); ("capacity", JNum 55000);
                                       ("businessTarget", JNum 50000); ("deferment", JNum 5000);
                                       ("trend", JStr "stable"); ("changePercent", JNum 2.1)]);
                 ("productionUnits", JArr [unitJs "east-production-unit-01" "Soku Production Unit" facilities]);
                 ("summary", JObj [("totalUnits", JNum 12); ("activeUnits", JNum 11); ("offlineUnits", JNum 1)]);
                 ("constraints", JObj [("active", JNum 2); ("critical", JNum 0); ("warning", JNum 2)])]]);
        ("comparison", JObj [("productionDifference", JNum 0); ("trend", JStr EmptyString)]);
        ("timestamp", JStr "2025-01-01T00:00:00.000Z")].

(** The payload with [flowstation-001] and [terminal-001]. *)
Definition examplePayload : JsValue :=
  assetsPayload [flowstation_001; terminal_001].

(** The same with a facility that has no [type]. *)
Definition payloadWithoutType : JsValue :=
  assetsPayload [flowstation_001; facility_without_type].

(** The oil metrics of [flowstation-001], as fed and as parsed. *)
Definition oil_001 : NetworkMetrics := {|
  maxCapacity := 5000;
  businessTarget := 4200;
  currentProduction := 3800;
  deferment := 1200;
  unit := "bbl/d";
  trend := down;
  changePercent := -1.3
|}.

(** A production-flow payload whose only facility has no [unitId]. *)
Definition flowWithoutUnitId : JsValue :=
  JObj [("units", JArr [JObj [("id", JStr "u1"); ("name", JStr "Unit 1");
                              ("assetId", JStr "east")]]);
        ("facilities", JArr [JObj [("id", JStr "f1"); ("name", JStr "Fac 1");
                                   ("type", JStr "flowstation"); ("status", JStr "online");
                                   ("networks", JObj [])]]);
        ("edges", JArr [])].

(** ** Where a parsed entity comes from *)

(** The production units and the facilities written in a hierarchy
    payload. *)
Definition unitSources (payload : JsValue) : list JsValue :=
  flat_map (elements "productionUnits") (elements "assets" payload).

Definition facilitySources (payload : JsValue) : list JsValue :=
  flat_map (elements "facilities") (unitSources payload).

(** [networks] of a facility or a unit of the feed, with the default
    filled in where it is missing. *)
Definition sourceNetworks (o : JsValue) : JsValue :=
  match field "networks" o with
  | Some x => x
  | None => defaultNetworks
  end.

(** The deferment a facility of the feed supplies for a network: the number
    at [facility.networks[key].deferment], [0] when there is none. *)
Definition suppliedDeferment (facility : JsValue) (key : NetworkKey) : number :=
  match at_path ["networks"; NetworkKey_name key; "deferment"] facility with
  | Some (JNum d) => d
  | _ => 0
  end.

(** [max(0, businessTarget - currentProduction)], the definition of
    deferment the specification calls canonical. *)
Definition canonicalDeferment (m : NetworkMetrics) : number :=
  Qmax 0 (businessTarget m - currentProduction m).

End Schemas.

(* ------------------------------------------------------------------ *)
(** * api/mocks/handlers.ts: GET /api/gap-drivers                      *)
(* ------------------------------------------------------------------ *)

Module GapDrivers.
Import Js Double.
Export Schemas(NetworkKey, k_oil, k_domesticGas, k_exportGas, k_flaredGas, NetworkKey_name).
Export Schemas(FacilityType, flowstation, compressor_station, gas_plant, terminal).

Inductive StreamType := s_oil | s_export_gas | s_domestic_gas.

(** Helper to map network key to stream type used by GapDriver. *)
Definition toStream (key : NetworkKey) : option StreamType :=
  match key with
  | k_oil => Some s_oil
  | k_domesticGas => Some s_domestic_gas
  | k_exportGas => Some s_export_gas
  | k_flaredGas => None
  end.

(** [type BasicNetMetrics = { maxCapacity?: number; deferment?: number;
    unit?: string }]; the numbers are the doubles the literals of a table
    denote. *)
Record BasicNetMetrics := {
  maxCapacity : option number;
  deferment : option number;
  unit : option string
}.

(** [networks] keeps the order in which the literal lists its keys, the
    order [Object.keys] visits them in. *)
Record FacilityNet := {
  id : string;
  name : string;
  type : FacilityType;
  networks : option (list (NetworkKey * BasicNetMetrics))
}.

Record UnitNet := {
  unitId : string;
  unitName : string;
  facilities : list FacilityNet
}.

Record AssetNet := {
  assetId : string;
  units : list UnitNet
}.

Inductive GapType := throughput | efficiency | maintenance | constraint.
Inductive Priority := critical | high | medium | low.
Inductive GapStatus := active | acknowledged | resolved.

Record Impact := {
  lostProduction : number;
  impact_unit : string;
  percentage : number
}.

(** [duration.start] and [lastUpdated] are read from the clock and from
    [Math.random]; they take no part in the ranking and are left out. *)
Record GapDriver := {
  gap_id : string;
  nodeId : string;
  nodeName : string;
  gapType : GapType;
  description : string;
  impact : Impact;
  affectedStreams : list StreamType;
  totalHours : number;
  priority : Priority;
  status : GapStatus
}.

Definition FacilityType_name (t : FacilityType) : string :=
  match t with
  | flowstation => "flowstation"
  | compressor_station => "compressor-station"
  | gas_plant => "gas-plant"
  | terminal => "terminal"
  end.

(** [s.replace(pat, rep)] with a string pattern: the first occurrence. *)
Definition replace (pat rep s : string) : string :=
  match index 0 pat s with
  | Some i =>
      substring 0 i s ++ rep
        ++ substring (i + String.length pat) (String.length s - i - String.length pat) s
  | None => s
  end.

(** [Math.max(0, Math.floor(metrics.deferment ?? 0))] *)
Definition lost (metrics : BasicNetMetrics) : number :=
  Qmax 0 (inject_Z (Qfloor (match deferment metrics with Some d => d | None => 0 end))).

(** [metrics.unit || (key === 'oil' ? 'bbl/d' : 'mcf/d')] *)
Definition unitStr (key : NetworkKey) (metrics : BasicNetMetrics) : string :=
  match unit metrics with
  | Some u => if String.eqb u EmptyString then (match key with k_oil => "bbl/d" | _ => "mcf/d" end) else u
  | None => match key with k_oil => "bbl/d" | _ => "mcf/d" end
  end.

(** [metrics.maxCapacity ?? (key === 'oil' ? 5000 : 50000)] *)
Definition capacity (key : NetworkKey) (metrics : BasicNetMetrics) : number :=
  match maxCapacity metrics with
  | Some c => c
  | None => match key with k_oil => 5000 | _ => 50000 end
  end.

(** [capacity > 0 ? (lost / capacity) * 100 : 0]: the quotient is
    rounded, then the product. *)
Definition percentageOf (key : NetworkKey) (metrics : BasicNetMetrics) : number :=
  if Qltb 0 (capacity key metrics)
  then fl (fl (lost metrics / capacity key metrics) * 100)
  else 0.

(** Priority bucketing. *)
Definition priorityOf (percentage : number) : Priority :=
  if Qle_bool 30 percentage then critical
  else if Qle_bool 20 percentage then high
  else if Qle_bool 10 percentage then medium
  else low.

(** Gap type heuristic by facility type. *)
Definition gapTypeOf (t : FacilityType) : GapType :=
  match t with
  | compressor_station => maintenance
  | gas_plant => efficiency
  | _ => constraint
  end.

(** The [n / 10] nearest to a non-negative [x], for the larger [n] on a
    tie: the decimal [x.toFixed(1)] writes. *)
Definition nearestTenth (x : Q) : Q := inject_Z (Qfloor (x * 10 + (1 # 2))) / 10.

(** [Number(x.toFixed(1))].  [toFixed] takes the sign off, writes the
    nearest decimal with one digit after the point below [10^21] and the
    shortest numeral that reads back as [x] from there on; [Number] reads
    the numeral as the nearest double. *)
Definition toFixed1 (x : number) : number :=
  let a := Qabs x in
  let r := if Qle_bool (inject_Z (10 ^ 21)) a then a else fl (nearestTenth a) in
  if Qltb x 0 then - r else r.

(** [Math.floor(x)] as a number. *)
Definition floor (x : number) : number := inject_Z (Qfloor x).

(** The body of the innermost loop: the driver pushed for one
    (facility, network) pair, or nothing when the pair is skipped. *)
Definition driverOf (asset : AssetNet) (unit : UnitNet) (fac : FacilityNet)
  (key : NetworkKey) (metrics : BasicNetMetrics) : option GapDriver :=
  match toStream key with
  | None => None
  | Some stream =>
      if Qeq_bool (lost metrics) 0 then None  (* skip 0 losses *)
      else
        let percentage := percentageOf key metrics in
        Some {|
          gap_id := "gap-" ++ assetId asset ++ "-" ++ unitId unit ++ "-" ++ id fac
                      ++ "-" ++ NetworkKey_name key;
          nodeId := id fac;
          nodeName := name fac;
          gapType := gapTypeOf (type fac);
          description := replace "-" " " (FacilityType_name (type fac)) ++ " impacting "
                           ++ replace "Gas" " Gas" (NetworkKey_name key) ++ " throughput";
          impact := {| lostProduction := lost metrics;
                       impact_unit := unitStr key metrics;
                       percentage := toFixed1 percentage |};
          affectedStreams := [stream];
          totalHours := fl (12 + floor percentage);
          priority := priorityOf percentage;
          status := active
        |}
  end.

Definition driversOfFacility (asset : AssetNet) (unit : UnitNet) (fac : FacilityNet)
  : list GapDriver :=
  let nets := match networks fac with Some n => n | None => [] end in
  flat_map (fun '(key, metrics) =>
              match driverOf asset unit fac key metrics with
              | Some d => [d]
              | None => []
              end) nets.

(** The three nested loops: every driver pushed, in push order, for the
    assets that pass the filter. *)
Definition collect (assets : list AssetNet) (assetFilter : option string) : list GapDriver :=
  flat_map (fun asset =>
    match assetFilter with
    | Some f => if String.eqb (assetId asset) f then
                  flat_map (fun unit => flat_map (driversOfFacility asset unit) (facilities unit))
                           (units asset)
                else []
    | None => flat_map (fun unit => flat_map (driversOfFacility asset unit) (facilities unit))
                       (units asset)
    end) assets.

(** [Array.prototype.sort(compare)]: a stable sort; [compare a b > 0] puts
    [a] after [b]. *)
Fixpoint insert {A} (compare : A -> A -> number) (x : A) (l : list A) : list A :=
  match l with
  | [] => [x]
  | y :: l' => if Qltb 0 (compare x y) then y :: insert compare x l' else x :: l
  end.

Definition sort {A} (compare : A -> A -> number) (l : list A) : list A :=
  fold_right (insert compare) [] l.

(** [(a, b) => b.impact.lostProduction - a.impact.lostProduction]; the
    sort reads the sign of the difference only, and the difference of two
    doubles rounds to a double of the same sign, so it is kept exact. *)
Definition byImpact (a b : GapDriver) : number :=
  lostProduction (impact b) - lostProduction (impact a).

(** The order the list is sorted in: no later driver loses more. *)
Definition descendingImpact (a b : GapDriver) : Prop :=
  (lostProduction (impact b) <= lostProduction (impact a))%Q.

(** [url.searchParams.get('asset') || null]: the empty string is no
    filter. *)
Definition assetFilterOf (param : option string) : option string :=
  match param with
  | Some s => if String.eqb s EmptyString then None else Some s
  | None => None
  end.

(** The percentage as the specification words it, over the rationals:
    [deferment / maxCapacity * 100], and 0 if [maxCapacity] is 0. *)
Definition exactPercentage (deferment maxCapacity : Q) : Q :=
  if Qeq_bool maxCapacity 0 then 0 else deferment / maxCapacity * 100.

(** The handler over a given table of facilities: collect, sort by impact
    and cap list to top 12. *)
Definition gapDrivers (assets : list AssetNet) (param : option string) : list GapDriver :=
  let drivers := collect assets (assetFilterOf param) in
  firstn 12 (sort byImpact drivers).

Definition net (key : NetworkKey) (maxCapacity : option number) (deferment : number)
  (unit : string) : NetworkKey * BasicNetMetrics :=
  (key, {| maxCapacity := maxCapacity; deferment := Some deferment; unit := Some unit |}).

Definition fac (id name : string) (type : FacilityType)
  (networks : list (NetworkKey * BasicNetMetrics)) : FacilityNet :=
  {| id := id; name := name; type := type; networks := Some networks |}.

(** Minimal view of facilities with networks, the table written in the
    handler. *)
Definition assets : list AssetNet := [
  {| assetId := "east"; units := [
     {| unitId := "east-production-unit-01"; unitName := "Soku Production Unit"; facilities := [
        fac "flowstation-001" "East Flowstation 001" flowstation [
          net k_oil (Some 5000) 1200 "bbl/d";
          net k_flaredGas None 300 "mcf/d"];
        fac "compressor-001" "East Compressor 001" compressor_station [
          net k_domesticGas (Some 4000) 700 "mcf/d";
          net k_exportGas (Some 6000) 1500 "mcf/d";
          net k_flaredGas None 200 "mcf/d"];
        fac "gasplant-001" "East Gas Plant 001" gas_plant [
          net k_domesticGas (Some 4200) 700 "mcf/d";
          net k_exportGas (Some 6500) 1300 "mcf/d";
          net k_flaredGas (Some 1500) 600 "mcf/d"]] |};
     {| unitId := "east-production-unit-02"; unitName := "Gbaran"; facilities := [
        fac "flowstation-002" "East Flowstation 002" flowstation [
          net k_oil (Some 50000) 12000 "bbl/d";
          net k_flaredGas None 400 "mcf/d"];
        fac "compressor-002" "East Compressor 002" compressor_station [
          net k_domesticGas (Some 40000) 7000 "mcf/d";
          net k_exportGas (Some 60000) 15000 "mcf/d";
          net k_flaredGas None 400 "mcf/d"];
        fac "gasplant-002" "East Gas Plant 002" gas_plant [
          net k_domesticGas (Some 48000) 9000 "mcf/d";
          net k_exportGas (Some 75000) 15000 "mcf/d";
          net k_flaredGas (Some 1600) 650 "mcf/d"]] |}] |};
  {| assetId := "west"; units := [
     {| unitId := "west-production-unit-01"; unitName := "Forcados"; facilities := [
        fac "flowstation-101" "West Flowstation 101" flowstation [
          net k_oil (Some 60000) 18000 "bbl/d";
          net k_flaredGas None 250 "mcf/d"];
        fac "compressor-101" "West Compressor 101" compressor_station [
          net k_domesticGas (Some 38000) 8000 "mcf/d";
          net k_exportGas (Some 58000) 15000 "mcf/d";
          net k_flaredGas None 250 "mcf/d"];
        fac "gasplant-101" "West Gas Plant 101" gas_plant [
          net k_domesticGas (Some 42000) 7000 "mcf/d";
          net k_exportGas (Some 60000) 15000 "mcf/d";
          net k_flaredGas (Some 1200) 300 "mcf/d"]] |};
     {| unitId := "west-production-unit-02"; unitName := "Outumara"; facilities := [
        fac "flowstation-201" "West Flowstation 201" flowstation [
          net k_oil (Some 52000) 13000 "bbl/d";
          net k_flaredGas None 300 "mcf/d"];
        fac "compressor-201" "West Compressor 201" compressor_station [
          net k_domesticGas (Some 35000) 5000 "mcf/d";
          net k_exportGas (Some 52000) 9000 "mcf/d";
          net k_flaredGas None 300 "mcf/d"];
        fac "gasplant-201" "West Gas Plant 201" gas_plant [
          net k_domesticGas (Some 40000) 7000 "mcf/d";
          net k_exportGas (Some 58000) 13000 "mcf/d";
          net k_flaredGas (Some 1100) 300 "mcf/d"]] |}] |}].

(** Every (network, metrics) pair written in a table. *)
Definition tablePairs (table : list AssetNet) : list (NetworkKey * BasicNetMetrics) :=
  flat_map (fun asset =>
    flat_map (fun unit =>
      flat_map (fun fac => match networks fac with Some n => n | None => [] end)
               (facilities unit))
      (units asset)) table.

(** [http.get('/api/gap-drivers', ...)]: the list placed in the response,
    for the value of the [asset] query parameter. *)
Definition handler (assetParam : option string) : list GapDriver :=
  gapDrivers assets assetParam.

(** The table entries the specification's example is about:
    [flowstation-002], [oil: { maxCapacity: 50000, deferment: 12000 }]. *)
Definition east_unit_02 : UnitNet :=
  {| unitId := "east-production-unit-02"; unitName := "Gbaran"; facilities := [] |}.

Definition flowstation_002 : FacilityNet :=
  fac "flowstation-002" "East Flowstation 002" flowstation [
    net k_oil (Some 50000) 12000 "bbl/d";
    net k_flaredGas None 400 "mcf/d"].

Definition flowstation_002_oil : BasicNetMetrics :=
  {| maxCapacity := Some 50000; deferment := Some 12000; unit := Some "bbl/d" |}.

(** [flowstation-001], [oil: { maxCapacity: 5000, deferment: 1200 }]. *)
Definition flowstation_001_oil : BasicNetMetrics :=
  {| maxCapacity := Some 5000; deferment := Some 1200; unit := Some "bbl/d" |}.

End GapDrivers.

(* ------------------------------------------------------------------ *)
(** * The TanStack Query v5 client, as far as the hooks use it         *)
(* ------------------------------------------------------------------ *)

Module QueryClient.
Import Js.

(** ** Query keys *)

Inductive Scalar := SUndefined | SString (s : string) | SBoolean (b : bool).

(** The parts the hooks put in their keys: strings, possibly undefined ids,
    and flat filter objects such as [{ stream, asset, status, priority }]. *)
Inductive KeyPart :=
| KScalar (v : Scalar)
| KObject (fields : list (string * Scalar)).

Definition QueryKey := list KeyPart.

Definition K (s : string) : KeyPart := KScalar (SString s).

(** [a === b] on primitives. *)
Definition Scalar_eqb (a b : Scalar) : bool :=
  match a, b with
  | SUndefined, SUndefined => true
  | SString x, SString y => String.eqb x y
  | SBoolean x, SBoolean y => Bool.eqb x y
  | _, _ => false
  end.

(** [o[k]]: a property that is missing reads as [undefined]. *)
Definition get (k : string) (o : list (string * Scalar)) : Scalar :=
  match assoc k o with
  | Some v => v
  | None => SUndefined
  end.

(** [partialMatchKey(a, b)] of [utils.ts] on two key parts: equal
    primitives, or two objects where every property of [b] is matched by
    the same property of [a]. *)
Definition partialMatchPart (a b : KeyPart) : bool :=
  match a, b with
  | KScalar x, KScalar y => Scalar_eqb x y
  | KObject oa, KObject ob =>
      forallb (fun k => Scalar_eqb (get k oa) (get k ob)) (map fst ob)
  | _, _ => false
  end.

(** [partialMatchKey(a, b)] on two keys: every index of [b] is matched by
    the same index of [a], an index [a] does not have reading as
    [undefined]. *)
Fixpoint partialMatchKey (a b : QueryKey) : bool :=
  match b with
  | [] => true
  | pb :: b' =>
      match a with
      | [] => partialMatchPart (KScalar SUndefined) pb && partialMatchKey [] b'
      | pa :: a' => partialMatchPart pa pb && partialMatchKey a' b'
      end
  end.

(** Two keys with the same [queryHash].  [hashKey] is [JSON.stringify]
    with the properties of every object sorted by name; filter objects are
    kept here in that order and without undefined properties, so that two
    keys have the same hash exactly when they are the same list. *)
Definition samePart (a b : KeyPart) : bool :=
  match a, b with
  | KScalar x, KScalar y => Scalar_eqb x y
  | KObject oa, KObject ob =>
      (fix same (l1 l2 : list (string * Scalar)) : bool :=
         match l1, l2 with
         | [], [] => true
         | (k1, v1) :: r1, (k2, v2) :: r2 =>
             String.eqb k1 k2 && Scalar_eqb v1 v2 && same r1 r2
         | _, _ => false
         end) oa ob
  | _, _ => false
  end.

Fixpoint sameHash (a b : QueryKey) : bool :=
  match a, b with
  | [], [] => true
  | pa :: a', pb :: b' => samePart pa pb && sameHash a' b'
  | _, _ => false
  end.

(** ** The cache *)

Section Client.
Context {Data Exn : Type}.

(** The state of a query that the hooks read or write: its data, when it
    was last written, and whether it was invalidated. *)
Record Query := {
  queryKey : QueryKey;
  data : option Data;
  dataUpdatedAt : Z;
  isInvalidated : bool
}.

(** The [QueryCache]: a [Map] from hash to query, in insertion order. *)
Definition Cache := list Query.

(** [queryCache.findAll({ queryKey })]: the queries whose key starts with
    the filter's. *)
Definition findAll (filters : QueryKey) (cache : Cache) : list Query :=
  filter (fun q => partialMatchKey (queryKey q) filters) cache.

Fixpoint find (key : QueryKey) (cache : Cache) : option Query :=
  match cache with
  | [] => None
  | q :: rest => if sameHash (queryKey q) key then Some q else find key rest
  end.

(** [queryClient.getQueryData(key)] *)
Definition getQueryData (key : QueryKey) (cache : Cache) : option Data :=
  match find key cache with
  | Some q => data q
  | None => None
  end.

(** [queryClient.getQueriesData({ queryKey })]: the [[queryKey, data]]
    pairs of the matching queries. *)
Definition getQueriesData (filters : QueryKey) (cache : Cache)
  : list (QueryKey * option Data) :=
  map (fun q => (queryKey q, data q)) (findAll filters cache).

(** [query.setData(data, { manual: true })]: the data is replaced, the
    query is fresh again. *)
Definition setData (now : Z) (d : Data) (q : Query) : Query :=
  {| queryKey := queryKey q; data := Some d; dataUpdatedAt := now; isInvalidated := false |}.

(** Writes [d] into the query of hash [key], building the query at the end
    of the map when there is none. *)
Fixpoint store (now : Z) (key : QueryKey) (d : Data) (cache : Cache) : Cache :=
  match cache with
  | [] => [ {| queryKey := key; data := Some d; dataUpdatedAt := now; isInvalidated := false |} ]
  | q :: rest =>
      if sameHash (queryKey q) key then setData now d q :: rest
      else q :: store now key d rest
  end.

(** [queryClient.setQueryData(key, updater)]: the updater reads the
    previous data; an [undefined] result leaves the cache as it is; an
    updater that throws leaves the cache as it is and the exception
    propagates. *)
Definition setQueryData (now : Z) (key : QueryKey)
  (updater : option Data -> Exn + option Data) (cache : Cache) : Cache * option Exn :=
  match updater (getQueryData key cache) with
  | inl e => (cache, Some e)
  | inr None => (cache, None)
  | inr (Some d) => (store now key d cache, None)
  end.

(** [queryClient.setQueryData(key, value)] with a plain value. *)
Definition setQueryDataValue (now : Z) (key : QueryKey) (value : option Data)
  (cache : Cache) : Cache :=
  match value with
  | None => cache
  | Some d => store now key d cache
  end.

Fixpoint setEach (now : Z) (keys : list QueryKey)
  (updater : option Data -> Exn + option Data) (cache : Cache) : Cache * option Exn :=
  match keys with
  | [] => (cache, None)
  | key :: rest =>
      match setQueryData now key updater cache with
      | (cache', Some e) => (cache', Some e)
      | (cache', None) => setEach now rest updater cache'
      end
  end.

(** [queryClient.setQueriesData({ queryKey }, updater)]:
    [findAll(filters).map(({ queryKey }) => setQueryData(queryKey, updater))];
    the writes made before an updater throws stay. *)
Definition setQueriesData (now : Z) (filters : QueryKey)
  (updater : option Data -> Exn + option Data) (cache : Cache) : Cache * option Exn :=
  setEach now (map queryKey (findAll filters cache)) updater cache.

(** [query.invalidate()] *)
Definition invalidate (q : Query) : Query :=
  {| queryKey := queryKey q; data := data q; dataUpdatedAt := dataUpdatedAt q;
     isInvalidated := true |}.

(** [queryClient.invalidateQueries({ queryKey })]: every matching query is
    marked invalidated.  The refetch of the active ones that follows is an
    asynchronous read and is not part of this step. *)
Definition invalidateQueries (filters : QueryKey) (cache : Cache) : Cache :=
  map (fun q => if partialMatchKey (queryKey q) filters then invalidate q else q) cache.

(** Invalidation of the queries whose key satisfies [p]; this is
    [invalidateQueries] for [p] the match with a filter. *)
Definition mark (p : QueryKey -> bool) (cache : Cache) : Cache :=
  map (fun q => if p (queryKey q) then invalidate q else q) cache.

(** ** Mutations *)

(** The callbacks of [useMutation] as functions of the cache; [Variables]
    is the argument of [mutate], [Context] what [onMutate] returns. *)
Record MutationOptions (Variables Context : Type) := {
  onMutate : Variables -> Cache -> Cache * (Exn + Context);
  onError : Exn -> Variables -> option Context -> Cache -> Cache;
  onSettled : Cache -> Cache
}.
Arguments onMutate {Variables Context}.
Arguments onError {Variables Context}.
Arguments onSettled {Variables Context}.

(** The cache while the network call is in flight. *)
Definition inFlight {V C} (options : MutationOptions V C) (variables : V) (cache : Cache)
  : Cache :=
  fst (onMutate options variables cache).

(** [Mutation.execute]: [onMutate], then the network call whose final
    outcome is [network], then [onError] on failure and [onSettled] in
    both cases.  When [onMutate] itself throws, the network call is not
    made and [onError] receives the context still [undefined]. *)
Definition execute {V C R} (options : MutationOptions V C) (variables : V)
  (network : Exn + R) (cache : Cache) : Cache * (Exn + R) :=
  match onMutate options variables cache with
  | (cache1, inl e) =>
      (onSettled options (onError options e variables None cache1), inl e)
  | (cache1, inr context) =>
      match network with
      | inr result => (onSettled options cache1, inr result)
      | inl e =>
          (onSettled options (onError options e variables (Some context) cache1), inl e)
      end
  end.

End Client.

Arguments Query : clear implicits.
Arguments Cache : clear implicits.
Arguments MutationOptions : clear implicits.

End QueryClient.

(* ------------------------------------------------------------------ *)
(** * api/axios.ts: what a rejected request throws                     *)
(* ------------------------------------------------------------------ *)

Module Api.
Import Js.

Record AxiosResponse := {
  status : nat;
  response_data : option JsValue
}.

Record AxiosError := {
  axios_message : string;
  axios_code : option string;
  response : option AxiosResponse
}.

Record ApiError := {
  message : string;
  code : string;
  timestamp : string
}.

(** What a [queryFn] or an updater can throw: a [TypeError] of the
    language, the [ApiError] the response interceptor rejects with, or an
    [AxiosError] that did not pass through the interceptor. *)
Inductive Thrown :=
| TypeError (msg : string)
| Rejection (e : ApiError)
| Unwrapped (e : AxiosError).

(** [typeof data.k === 'string' ? data.k : fallback], for [data] an object. *)
Definition stringProperty (k : string) (data : option JsValue) (fallback : string) : string :=
  match data with
  | Some (JObj fs) =>
      match assoc k fs with
      | Some (JStr s) => s
      | _ => fallback
      end
  | _ => fallback
  end.

(** Transform Axios errors into standardized API errors. *)
Definition createApiError (now : string) (error : AxiosError) : ApiError :=
  let status := match response error with Some r => status r | None => 0%nat end in
  let errorData := match response error with Some r => response_data r | None => None end in
  let message := stringProperty "message" errorData "An unexpected error occurred" in
  let code := stringProperty "code" errorData "UNKNOWN_ERROR" in
  if String.eqb message "An unexpected error occurred" then
    if (400 <=? status)%nat && (status <? 500)%nat then
      {| message := "Client error: " ++ axios_message error; code := "CLIENT_ERROR";
         timestamp := now |}
    else if (500 <=? status)%nat then
      {| message := "Server error: " ++ axios_message error; code := "SERVER_ERROR";
         timestamp := now |}
    else if match axios_code error with
            | Some c => String.eqb c "NETWORK_ERROR"
            | None => false
            end then
      {| message := "Network connectivity issue"; code := "NETWORK_ERROR"; timestamp := now |}
    else {| message := message; code := code; timestamp := now |}
  else {| message := message; code := code; timestamp := now |}.

(** The response interceptor's error branch: every rejection of
    [apiClient] is [createApiError(error)]. *)
Definition rejection (now : string) (error : AxiosError) : Thrown :=
  Rejection (createApiError now error).

(** [error.message] as a predicate reads it. *)
Definition messageOf (t : Thrown) : string :=
  match t with
  | TypeError m => m
  | Rejection e => message e
  | Unwrapped e => axios_message e
  end.

(** [(error as AxiosError | undefined)?.response?.status ?? 0] *)
Definition responseStatus (t : Thrown) : nat :=
  match t with
  | Unwrapped e => match response e with Some r => status r | None => 0%nat end
  | _ => 0%nat
  end.

(** [s.includes(pat)] *)
Definition includes (pat s : string) : bool :=
  match index 0 pat s with
  | Some _ => true
  | None => false
  end.

End Api.

(* ------------------------------------------------------------------ *)
(** * hooks/useOptimisations.ts                                        *)
(* ------------------------------------------------------------------ *)

Module Optimisations.
Import Js Double QueryClient Api.
Export GapDrivers(StreamType, s_oil, s_export_gas, s_domestic_gas).

Inductive OptimisationStatus := Pending | Acknowledged | Implementing | Completed | Rejected.

Inductive OptimisationType :=
  pressure_adjust | flow_redistribution | maintenance_schedule | capacity_upgrade.

Inductive Effort := effort_low | effort_medium | effort_high.

Record OptimisationImpact := {
  estimatedGain : number;
  unit : string;
  confidence : number;
  timeframe : string
}.

Record Implementation := {
  effort : Effort;
  estimatedCost : option number;
  currency : option string;
  requiredSkills : list string;
  estimatedDuration : string
}.

(** [OptimisationAction] of [types/api.d.ts], with the [acknowledgedAt]
    property that the acknowledge transform adds. *)
Record OptimisationAction := {
  id : string;
  stream : StreamType;
  type : OptimisationType;
  title : string;
  description : string;
  impact : OptimisationImpact;
  implementation : Implementation;
  affectedNodes : list string;
  status : OptimisationStatus;
  priority : number;
  createdAt : string;
  validUntil : string;
  acknowledgedAt : option string
}.

Record Summary := {
  total : number;
  pending : number;
  acknowledged : number;
  implemented : number;
  totalPotentialValue : number
}.

Record OptimisationResponse := {
  optimisations : list OptimisationAction;
  summary : Summary
}.

(** What the hooks of this file store under a key that starts with
    ['optimisations']: [useOptimisations] and [useAssetOptimisations] store
    the response, [useHighPriorityOptimisations] stores
    [response.data.optimisations], a bare array. *)
Inductive CachedData :=
| Response (r : OptimisationResponse)
| HighPriority (l : list OptimisationAction).

Inductive Action := acknowledge | implement | dismiss.

Record OptimisationActionUpdate := {
  update_id : string;
  action : Action;
  userId : option string;
  comment : option string
}.

(** ** Query keys *)

(** [['optimisations', { stream, asset, status, priority }]], the filter
    object with its properties in hash order. *)
Definition useOptimisations_key (stream asset status priority : string) : QueryKey :=
  [K "optimisations";
   KObject [("asset", SString asset); ("priority", SString priority);
            ("status", SString status); ("stream", SString stream)]].

Definition useAssetOptimisations_key (assetId : option string) (stream : string) : QueryKey :=
  [K "optimisations"; K "asset";
   KScalar (match assetId with Some a => SString a | None => SUndefined end);
   KObject [("stream", SString stream)]].

Definition useHighPriorityOptimisations_key : QueryKey :=
  [K "optimisations"; K "high-priority"].

(** ** The optimistic transforms *)

(** [{ ...opt, status: 'acknowledged', acknowledgedAt: new Date().toISOString() }] *)
Definition acknowledged_at (nowISO : string) (opt : OptimisationAction) : OptimisationAction :=
  {| id := id opt; stream := stream opt; type := type opt; title := title opt;
     description := description opt; impact := impact opt;
     implementation := implementation opt; affectedNodes := affectedNodes opt;
     status := Acknowledged;
     priority := priority opt; createdAt := createdAt opt; validUntil := validUntil opt;
     acknowledgedAt := Some nowISO |}.

(** [{ ...opt, status: 'completed' as const }] *)
Definition completed (opt : OptimisationAction) : OptimisationAction :=
  {| id := id opt; stream := stream opt; type := type opt; title := title opt;
     description := description opt; impact := impact opt;
     implementation := implementation opt; affectedNodes := affectedNodes opt;
     status := Completed;
     priority := priority opt; createdAt := createdAt opt; validUntil := validUntil opt;
     acknowledgedAt := acknowledgedAt opt |}.

(** The object returned by the acknowledge updater for a defined [old];
    [pending - 1] and [acknowledged + 1] are additions of doubles. *)
Definition acknowledgeTransform (nowISO : string) (target : string)
  (old : OptimisationResponse) : OptimisationResponse :=
  {| optimisations :=
       map (fun opt => if String.eqb (id opt) target then acknowledged_at nowISO opt else opt)
           (optimisations old);
     summary :=
       {| total := total (summary old);
          pending := fl (pending (summary old) - 1);
          acknowledged := fl (acknowledged (summary old) + 1);
          implemented := implemented (summary old);
          totalPotentialValue := totalPotentialValue (summary old) |} |}.

(** The object returned by the implement updater for a defined [old]. *)
Definition implementTransform (target : string) (old : OptimisationResponse)
  : OptimisationResponse :=
  {| optimisations :=
       map (fun opt => if String.eqb (id opt) target then completed opt else opt)
           (optimisations old);
     summary :=
       {| total := total (summary old);
          pending := fl (pending (summary old) - 1);
          acknowledged := acknowledged (summary old);
          implemented := fl (implemented (summary old) + 1);
          totalPotentialValue := totalPotentialValue (summary old) |} |}.

(** Reading [old.optimisations.map] on a bare array: [old.optimisations]
    is undefined. *)
Definition noOptimisationsProperty : Thrown :=
  TypeError "Cannot read properties of undefined (reading 'map')".

(** The updater passed to [setQueriesData<OptimisationResponse>]:
    [(old) => { if (!old) return old; return { ...old, optimisations:
    old.optimisations.map(...), summary: {...} } }].  An array is truthy,
    also when empty. *)
Definition updaterOf (transform : OptimisationResponse -> OptimisationResponse)
  (old : option CachedData) : Thrown + option CachedData :=
  match old with
  | None => inr None
  | Some (Response r) => inr (Some (Response (transform r)))
  | Some (HighPriority _) => inl noOptimisationsProperty
  end.

(** ** The mutations *)

(** The readings of the clock: [Date.now()] when a cache write is made in
    [onMutate] and in [onError], and [new Date().toISOString()] inside the
    acknowledge updater. *)
Record Clock := {
  mutateAt : Z;
  mutateAtISO : string;
  errorAt : Z
}.

Record Context := {
  previousData : list (QueryKey * option CachedData)
}.

(** [onMutate] of both hooks.  [cancelQueries] stops in-flight reads and
    writes no data; snapshot the previous value; optimistically update the
    cache. *)
Definition onMutateWith (clock : Clock)
  (transform : OptimisationResponse -> OptimisationResponse)
  (cache : Cache CachedData) : Cache CachedData * (Thrown + Context) :=
  let previousData := getQueriesData [K "optimisations"] cache in
  match setQueriesData (mutateAt clock) [K "optimisations"] (updaterOf transform) cache with
  | (cache', Some e) => (cache', inl e)
  | (cache', None) => (cache', inr {| previousData := previousData |})
  end.

(** [onError]: rollback on error,
    [context.previousData.forEach(([queryKey, data]) =>
       queryClient.setQueryData(queryKey, data))]
    when there is a context. *)
Definition rollback (clock : Clock) (context : option Context) (cache : Cache CachedData)
  : Cache CachedData :=
  match context with
  | Some c =>
      fold_left (fun cache' '(queryKey, data) =>
                   setQueryDataValue (errorAt clock) queryKey data cache')
                (previousData c) cache
  | None => cache
  end.

Definition useAcknowledgeOptimisation (clock : Clock)
  : MutationOptions CachedData Thrown OptimisationActionUpdate Context :=
  {| onMutate := fun update cache =>
       onMutateWith clock (acknowledgeTransform (mutateAtISO clock) (update_id update)) cache;
     onError := fun _err _update context cache => rollback clock context cache;
     onSettled := fun cache => invalidateQueries [K "optimisations"] cache |}.

Definition useImplementOptimisation (clock : Clock)
  : MutationOptions CachedData Thrown OptimisationActionUpdate Context :=
  {| onMutate := fun update cache =>
       onMutateWith clock (implementTransform (update_id update)) cache;
     onError := fun _err _update context cache => rollback clock context cache;
     onSettled := fun cache =>
       invalidateQueries [K "nodes"]
         (invalidateQueries [K "summary"]
            (invalidateQueries [K "optimisations"] cache)) |}.

(** [mutate(update)] on the acknowledge hook, for the final outcome of the
    PATCH request. *)
Definition acknowledgeMutation (clock : Clock) (update : OptimisationActionUpdate)
  (network : Thrown + OptimisationAction) (cache : Cache CachedData)
  : Cache CachedData * (Thrown + OptimisationAction) :=
  execute (useAcknowledgeOptimisation clock) update network cache.

(** ** A cache with the two shapes *)

Definition opt_001 : OptimisationAction := {|
  id := "opt-001";
  stream := s_oil;
  type := pressure_adjust;
  title := "Adjust separator pressure";
  description := "Lower the separator pressure at flowstation-001";
  impact := {| estimatedGain := 250; unit := "bbl/d"; confidence := 85;
               timeframe := "24h" |};
  implementation := {| effort := effort_low; estimatedCost := None; currency := None;
                       requiredSkills := ["operations"]; estimatedDuration := "2h" |};
  affectedNodes := ["flowstation-001"];
  status := Pending;
  priority := 8;
  createdAt := "2025-01-01T00:00:00.000Z";
  validUntil := "2025-01-08T00:00:00.000Z";
  acknowledgedAt := None
|}.

Definition response_001 : OptimisationResponse := {|
  optimisations := [opt_001];
  summary := {| total := 1; pending := 1; acknowledged := 0; implemented := 0;
                totalPotentialValue := 250 |}
|}.

(** The list of [useOptimisations] (no filters) and the list of
    [useHighPriorityOptimisations], both fetched at [t = 1000] and both
    holding [opt-001]. *)
Definition bothLists : Cache CachedData := [
  {| queryKey := useOptimisations_key "all" "all" "all" "all";
     data := Some (Response response_001);
     dataUpdatedAt := 1000; isInvalidated := false |};
  {| queryKey := useHighPriorityOptimisations_key;
     data := Some (HighPriority [opt_001]);
     dataUpdatedAt := 1000; isInvalidated := false |}].



Definition responsesOnly : Cache CachedData := [
  {| queryKey := useOptimisations_key "all" "all" "all" "all";
     data := Some (Response response_001);
     dataUpdatedAt := 1000; isInvalidated := false |};
  {| queryKey := useAssetOptimisations_key (Some "east") "all";
     data := None;
     dataUpdatedAt := 0; isInvalidated := false |}].

Definition clock_001 : Clock :=
  {| mutateAt := 2000; mutateAtISO := "2025-01-02T00:00:00.000Z"; errorAt := 2500 |}.

Definition acknowledge_001 : OptimisationActionUpdate :=
  {| update_id := "opt-001"; action := acknowledge; userId := Some "programmer-1";
     comment := None |}.

Definition serverError : Thrown :=
  Rejection {| message := "Server error: Request failed with status code 500";
              code := "SERVER_ERROR"; timestamp := "2025-01-02T00:00:01.000Z" |}.

(** Every query under ['optimisations'] holds a response or nothing. *)
Definition responsesUnderOptimisations (cache : Cache CachedData) : Prop :=
  forall q, In q cache ->
    partialMatchKey (queryKey q) [K "optimisations"] = true ->
    data q = None \/ exists r, data q = Some (Response r).

(** The action [target] is shown as acknowledged wherever a cached response
    lists it. *)
Definition showsAcknowledged (target : string) (d : option CachedData) : Prop :=
  match d with
  | Some (Response r) =>
      forall opt, In opt (optimisations r) -> id opt = target -> status opt = Acknowledged
  | Some (HighPriority l) =>
      forall opt, In opt l -> id opt = target -> status opt = Acknowledged
  | None => True
  end.

End Optimisations.

(* ------------------------------------------------------------------ *)
(** * hooks/useWebSocket.ts: cache invalidation on push events         *)
(* ------------------------------------------------------------------ *)

Module WebSocketEvents.
Import Js QueryClient.

(** [interface OptimisationEvent]; [type] is kept as the string read from
    the message, the switch compares it with its four cases. *)
Record OptimisationEvent := {
  id : string;
  type : string;
  timestamp : string;
  data : JsValue;
  priority : string;
  affectedAssets : option (list string);
  message : option string
}.

Section Handler.
Context {Data : Type}.

(** Cache invalidation based on event type. *)
Definition invalidateByType (type : string) (cache : Cache Data) : Cache Data :=
  if String.eqb type "new_optimisation" || String.eqb type "optimisation_update" then
    invalidateQueries [K "optimisations"] cache
  else if String.eqb type "system_alert" then
    invalidateQueries [K "summary"] (invalidateQueries [K "alerts"] cache)
  else if String.eqb type "performance_change" then
    invalidateQueries [K "nodes"] (invalidateQueries [K "summary"] cache)
  else cache.

(** Asset-specific cache invalidation. *)
Definition invalidateByAssets (affectedAssets : option (list string)) (cache : Cache Data)
  : Cache Data :=
  match affectedAssets with
  | Some assets =>
      fold_left (fun cache' asset =>
                   invalidateQueries [K "optimisations"; K "asset"; K asset]
                     (invalidateQueries [K "summary"; K "asset"; K asset] cache'))
                assets cache
  | None => cache
  end.

(** The effect of [handleMessage] on the query cache for a message that
    [JSON.parse] decoded to [event]. *)
Definition handleEvent (event : OptimisationEvent) (cache : Cache Data) : Cache Data :=
  invalidateByAssets (affectedAssets event) (invalidateByType (type event) cache).

(** [handleMessage]: a message that does not parse is caught and leaves
    the cache as it is. *)
Definition handleMessage (parsed : option OptimisationEvent) (cache : Cache Data)
  : Cache Data :=
  match parsed with
  | Some event => handleEvent event cache
  | None => cache
  end.

End Handler.

(** [event.affectedAssets ?? []] *)
Definition assetsOf (event : OptimisationEvent) : list string :=
  match affectedAssets event with
  | Some assets => assets
  | None => []
  end.

(** An alert about the terminal inventory that names the west asset and no
    optimisation. *)
Definition westAlert : OptimisationEvent :=
  {| id := "mock-3"; type := "system_alert"; timestamp := "2025-01-02T00:00:00.000Z";
     data := JObj [("currentInventory", JNum 2800000); ("threshold", JNum 3000000)];
     priority := "high"; affectedAssets := Some ["west"];
     message := Some "Terminal inventory approaching export threshold" |}.

(** The optimisations of the west asset, the unfiltered list and the
    alerts, none of them invalidated. *)
Definition westOptimisations : Query Optimisations.CachedData :=
  {| queryKey := Optimisations.useAssetOptimisations_key (Some "west") "all";
     QueryClient.data := Some (Optimisations.Response Optimisations.response_001);
     dataUpdatedAt := 1000; isInvalidated := false |}.

Definition allOptimisations : Query Optimisations.CachedData :=
  {| queryKey := Optimisations.useOptimisations_key "all" "all" "all" "all";
     QueryClient.data := Some (Optimisations.Response Optimisations.response_001);
     dataUpdatedAt := 1000; isInvalidated := false |}.

Definition allAlerts : Query Optimisations.CachedData :=
  {| queryKey := [K "alerts"; KObject [("role", SString "all")]];
     QueryClient.data := None;
     dataUpdatedAt := 0; isInvalidated := false |}.

Definition westCache : Cache Optimisations.CachedData :=
  [westOptimisations; allOptimisations; allAlerts].

End WebSocketEvents.

(* ------------------------------------------------------------------ *)
(** * Retry policies: main.tsx and the hooks                           *)
(* ------------------------------------------------------------------ *)

Module Retry.
Import Js Api.

(** The [retry] option of a query: a boolean, a number or a predicate. *)
Inductive RetryValue :=
| RetryBoolean (b : bool)
| RetryNumber (n : nat)
| RetryFunction (f : nat -> Thrown -> bool).

Record QueryOptions := {
  retry : RetryValue;
  retryDelay : nat -> Z
}.

(** [main.tsx], [defaultOptions.queries.retry] *)
Definition defaultRetry (failureCount : nat) (error : Thrown) : bool :=
  let status := responseStatus error in
  if (400 <=? status)%nat && (status <? 500)%nat then false
  else (failureCount <? 3)%nat.

(** [main.tsx], [defaultOptions.queries.retryDelay]:
    [attemptIndex => Math.min(1000 * 2 ** attemptIndex, 30000)] *)
Definition defaultRetryDelay (attemptIndex : nat) : Z :=
  Z.min (1000 * 2 ^ Z.of_nat attemptIndex) 30000.

(** [useNodes]: the retry predicate; the delay is the client default. *)
Definition useNodes_retry (failureCount : nat) (error : Thrown) : bool :=
  if includes "4" (messageOf error) then false
  else (failureCount <? 3)%nat.

Definition useNodes : QueryOptions :=
  {| retry := RetryFunction useNodes_retry; retryDelay := defaultRetryDelay |}.

(** [useAssets] sets neither option and runs on the client defaults. *)
Definition useAssets : QueryOptions :=
  {| retry := RetryFunction defaultRetry; retryDelay := defaultRetryDelay |}.

(** [useProductionFlow]: [retry: 3],
    [retryDelay: attemptIndex => Math.min(1000 * 2 ** attemptIndex, 10000)] *)
Definition useProductionFlow : QueryOptions :=
  {| retry := RetryNumber 3;
     retryDelay := fun attemptIndex => Z.min (1000 * 2 ^ Z.of_nat attemptIndex) 10000 |}.

(** [useOptimisations]: [retry: 2]; the delay is the client default. *)
Definition useOptimisations : QueryOptions :=
  {| retry := RetryNumber 2; retryDelay := defaultRetryDelay |}.

(** The retryer of TanStack Query: [retry === true || (typeof retry ===
    'number' && failureCount < retry) || (typeof retry === 'function' &&
    retry(failureCount, error))]. *)
Definition shouldRetry (options : QueryOptions) (failureCount : nat) (error : Thrown) : bool :=
  match retry options with
  | RetryBoolean b => b
  | RetryNumber n => (failureCount <? n)%nat
  | RetryFunction f => f failureCount error
  end.

Inductive Settled (R : Type) :=
| Resolved (r : R)
| RejectedWith (e : Thrown)
| Waiting.
Arguments Resolved {R} r.
Arguments RejectedWith {R} e.
Arguments Waiting {R}.

(** What one read did: how it settled, how many times the fetch function
    was called and the delays slept between the calls, in milliseconds. *)
Record Run (R : Type) := {
  outcome : Settled R;
  calls : nat;
  delays : list Z
}.
Arguments outcome {R}.
Arguments calls {R}.
Arguments delays {R}.

(** The retryer's [run] loop against the successive answers of the
    transport: a failure is retried after [retryDelay(failureCount, error)]
    when [shouldRetry], with [failureCount] counted before the increment;
    otherwise the read is rejected with it.  [Waiting] is the read whose
    next answer has not come. *)
Fixpoint run {R} (options : QueryOptions) (answers : list (Thrown + R)) (failureCount : nat)
  : Run R :=
  match answers with
  | [] => {| outcome := Waiting; calls := 0; delays := [] |}
  | inr r :: _ => {| outcome := Resolved r; calls := 1; delays := [] |}
  | inl e :: rest =>
      if shouldRetry options failureCount e then
        let next := run options rest (S failureCount) in
        {| outcome := outcome next;
           calls := S (calls next);
           delays := retryDelay options failureCount :: delays next |}
      else {| outcome := RejectedWith e; calls := 1; delays := [] |}
  end.

Definition fetch {R} (options : QueryOptions) (answers : list (Thrown + R)) : Run R :=
  run options answers 0.

(** The message axios gives an answer whose status is rejected by
    [validateStatus]. *)
Definition requestFailed (status : nat) : AxiosError :=
  {| axios_message := "Request failed with status code "
                        ++ NilEmpty.string_of_uint (Nat.to_uint status);
     axios_code := Some (if (status <? 500)%nat then "ERR_BAD_REQUEST" else "ERR_BAD_RESPONSE");
     response := Some {| status := status; response_data := None |} |}.

(** A 503 as the interceptor rejects it. *)
Definition serverDown : Thrown :=
  rejection "2025-01-02T00:00:00.000Z" (requestFailed 503).

End Retry.

(* ------------------------------------------------------------------ *)
(** * types/schemas.ts: the summary schemas                            *)
(* ------------------------------------------------------------------ *)

Module SummarySchemas.
Import Js Zod Schemas.

(** [AssetNetworksSchema]: the networks object without a default of its
    own, followed by the flared-gas transform. *)
Definition AssetNetworksSchema : Schema Networks :=
  transform networksObject withFlaredGas.

Record Asset := {
  currentProduction : number;
  capacity : number;
  status : AssetStatus;
  activeUnits : number;
  totalUnits : number;
  trend : Trend;
  changePercent : number;
  networks : Networks
}.

Definition AssetSchema : Schema Asset :=
  object (fun o =>
    currentProduction <- prop "currentProduction" (default (JNum 0) (nonnegative number_)) o ;;
    capacity <- prop "capacity" (default (JNum 0) (nonnegative number_)) o ;;
    status <- prop "status"
      (default (JStr "normal")
         (enum_ [("normal", st_normal); ("warning", st_warning);
                 ("critical", st_critical)])) o ;;
    activeUnits <- prop "activeUnits" (default (JNum 0) (nonnegative number_)) o ;;
    totalUnits <- prop "totalUnits" (default (JNum 0) (nonnegative number_)) o ;;
    trend <- prop "trend" (default (JStr "stable") TrendSchema) o ;;
    changePercent <- prop "changePercent" (default (JNum 0) number_) o ;;
    networks <- prop "networks" (default defaultNetworks AssetNetworksSchema) o ;;
    Success {| currentProduction := currentProduction; capacity := capacity;
               status := status; activeUnits := activeUnits; totalUnits := totalUnits;
               trend := trend; changePercent := changePercent; networks := networks |}).

Record SystemHealth := {
  nodesOnline : number;
  totalNodes : number;
  criticalIssues : number;
  warningIssues : number
}.

Record SummaryKpi := {
  systemHealth : SystemHealth;
  east_asset : Asset;
  west_asset : Asset;
  lastUpdated : string
}.

Definition SummaryKpiSchema : Schema SummaryKpi :=
  object (fun o =>
    systemHealth <- prop "systemHealth"
      (object (fun h =>
         nodesOnline <- prop "nodesOnline" (default (JNum 0) (nonnegative number_)) h ;;
         totalNodes <- prop "totalNodes" (default (JNum 0) (nonnegative number_)) h ;;
         criticalIssues <- prop "criticalIssues" (default (JNum 0) (nonnegative number_)) h ;;
         warningIssues <- prop "warningIssues" (default (JNum 0) (nonnegative number_)) h ;;
         Success {| nodesOnline := nodesOnline; totalNodes := totalNodes;
                    criticalIssues := criticalIssues; warningIssues := warningIssues |})) o ;;
    assets <- prop "assets"
      (object (fun a =>
         east <- prop "east" AssetSchema a ;;
         west <- prop "west" AssetSchema a ;;
         Success (east, west))) o ;;
    lastUpdated <- prop "lastUpdated" string_ o ;;
    Success {| systemHealth := systemHealth; east_asset := fst assets;
               west_asset := snd assets; lastUpdated := lastUpdated |}).

(** The [queryFn] of [useSummary] and [useAssetSummary] on the answer of
    the transport: [SummaryKpiSchema.parse(response.data)]. *)
Definition useSummary_queryFn (responseData : JsValue) : SafeParse SummaryKpi :=
  SummaryKpiSchema (Some responseData).

(** The summary payload of the contract test: both assets with
    [networks: {}]. *)
Definition contractAsset (status : string) : JsValue :=
  JObj [("currentProduction", JNum 1); ("capacity", JNum 1); ("status", JStr status);
        ("activeUnits", JNum 1); ("totalUnits", JNum 1); ("trend", JStr "stable");
        ("changePercent", JNum 0); ("networks", JObj [])].

Definition contractSummary : JsValue :=
  JObj [("systemHealth", JObj [("nodesOnline", JNum 1); ("totalNodes", JNum 1);
                               ("criticalIssues", JNum 0); ("warningIssues", JNum 0)]);
        ("assets", JObj [("east", contractAsset "normal"); ("west", contractAsset "warning")]);
        ("lastUpdated", JStr "2025-01-01T00:00:00.000Z")].

(** The four checked numbers of a metrics entry. *)
Definition checkedNumbers (m : NetworkMetrics) : list number :=
  [Schemas.maxCapacity m; Schemas.businessTarget m; Schemas.currentProduction m;
   Schemas.deferment m].

Definition nonNegative (numbers : list number) : Prop :=
  Forall (fun x => (0 <= x)%Q) numbers.

(** The numbers of a summary asset that the schema checks. *)
Definition checkedAssetNumbers (a : Asset) : list number :=
  [currentProduction a; capacity a; activeUnits a; totalUnits a].

End SummarySchemas.

(* ------------------------------------------------------------------ *)
(** * The transport between the handlers and the hooks                 *)
(* ------------------------------------------------------------------ *)

Module Transport.
Import Js Zod GapDrivers.

(** [createSecureResponse(data)] of [api/mocks/handlers.ts]. *)
Definition createSecureResponse (now : string) (data : JsValue) : JsValue :=
  JObj [("data", data); ("timestamp", JStr now); ("success", JBool true)].

(** ['k' in value] for a decoded JSON value that is an object; arrays have
    none of the three names the interceptor asks for. *)
Definition has (k : string) (v : JsValue) : bool :=
  match field k v with
  | Some _ => true
  | None => false
  end.

(** The response interceptor of [api/axios.ts] on [response.data]: a value
    that is an object with the properties [data], [timestamp] and
    [success] is replaced by its [data]. *)
Definition unwrap (responseData : JsValue) : JsValue :=
  match responseData with
  | JObj _ =>
      if has "data" responseData && has "timestamp" responseData && has "success" responseData
      then match field "data" responseData with
           | Some d => d
           | None => responseData
           end
      else responseData
  | _ => responseData
  end.

(** ** The gap driver contract *)

Definition StreamTypeSchema : Schema StreamType :=
  enum_ [("oil", s_oil); ("export-gas", s_export_gas); ("domestic-gas", s_domestic_gas)].

Record Duration := {
  start : string;
  estimated_end : option string;
  duration_totalHours : number
}.

(** [GapDriverParsed], the output of [GapDriverSchema]. *)
Record GapDriverParsed := {
  p_id : string;
  p_nodeId : string;
  p_nodeName : string;
  p_gapType : GapType;
  p_description : string;
  p_impact : Impact;
  p_affectedStreams : list StreamType;
  p_duration : Duration;
  p_priority : Priority;
  p_status : GapStatus;
  p_lastUpdated : string
}.

Definition GapDriverSchema : Schema GapDriverParsed :=
  object (fun o =>
    id <- prop "id" string_ o ;;
    nodeId <- prop "nodeId" string_ o ;;
    nodeName <- prop "nodeName" string_ o ;;
    gapType <- prop "gapType"
      (enum_ [("throughput", throughput); ("efficiency", efficiency);
              ("maintenance", maintenance); ("constraint", constraint)]) o ;;
    description <- prop "description" string_ o ;;
    impact <- prop "impact"
      (object (fun i =>
         lostProduction <- prop "lostProduction" number_ i ;;
         unit <- prop "unit" string_ i ;;
         percentage <- prop "percentage" number_ i ;;
         Success {| lostProduction := lostProduction; impact_unit := unit;
                    percentage := percentage |})) o ;;
    affectedStreams <- prop "affectedStreams" (default (JArr []) (array StreamTypeSchema)) o ;;
    duration <- prop "duration"
      (object (fun d =>
         start <- prop "start" string_ d ;;
         estimated_end <- prop "estimated_end" (optional string_) d ;;
         totalHours <- prop "totalHours" number_ d ;;
         Success {| start := start; estimated_end := estimated_end;
                    duration_totalHours := totalHours |})) o ;;
    priority <- prop "priority"
      (enum_ [("critical", critical); ("high", high); ("medium", medium); ("low", low)]) o ;;
    status <- prop "status"
      (enum_ [("active", active); ("acknowledged", acknowledged);
              ("resolved", resolved)]) o ;;
    lastUpdated <- prop "lastUpdated" string_ o ;;
    Success {| p_id := id; p_nodeId := nodeId; p_nodeName := nodeName;
               p_gapType := gapType; p_description := description; p_impact := impact;
               p_affectedStreams := affectedStreams; p_duration := duration;
               p_priority := priority; p_status := status;
               p_lastUpdated := lastUpdated |}).

(** The strings the handler writes for its unions. *)
Definition StreamType_name (s : StreamType) : string :=
  match s with
  | s_oil => "oil"
  | s_export_gas => "export-gas"
  | s_domestic_gas => "domestic-gas"
  end.

Definition GapType_name (g : GapType) : string :=
  match g with
  | throughput => "throughput"
  | efficiency => "efficiency"
  | maintenance => "maintenance"
  | constraint => "constraint"
  end.

Definition Priority_name (p : Priority) : string :=
  match p with
  | critical => "critical"
  | high => "high"
  | medium => "medium"
  | low => "low"
  end.

Definition GapStatus_name (s : GapStatus) : string :=
  match s with
  | active => "active"
  | acknowledged => "acknowledged"
  | resolved => "resolved"
  end.

(** The two readings of the clock the handler stores in a driver:
    [duration.start] and [lastUpdated]. *)
Record Stamps := {
  startedAt : string;
  updatedAt : string
}.

(** The object the handler pushes for a driver, as [HttpResponse.json]
    sends it. *)
Definition GapDriver_toJs (stamps : GapDriver -> Stamps) (d : GapDriver) : JsValue :=
  JObj [("id", JStr (gap_id d));
        ("nodeId", JStr (nodeId d));
        ("nodeName", JStr (nodeName d));
        ("gapType", JStr (GapType_name (gapType d)));
        ("description", JStr (description d));
        ("impact", JObj [("lostProduction", JNum (lostProduction (impact d)));
                         ("unit", JStr (impact_unit (impact d)));
                         ("percentage", JNum (percentage (impact d)))]);
        ("affectedStreams", JArr (map (fun s => JStr (StreamType_name s)) (affectedStreams d)));
        ("duration", JObj [("start", JStr (startedAt (stamps d)));
                           ("totalHours", JNum (totalHours d))]);
        ("priority", JStr (Priority_name (priority d)));
        ("status", JStr (GapStatus_name (status d)));
        ("lastUpdated", JStr (updatedAt (stamps d)))].

(** What the table reads of a driver after validation. *)
Definition parsedOf (stamps : GapDriver -> Stamps) (d : GapDriver) : GapDriverParsed :=
  {| p_id := gap_id d; p_nodeId := nodeId d; p_nodeName := nodeName d;
     p_gapType := gapType d; p_description := description d; p_impact := impact d;
     p_affectedStreams := affectedStreams d;
     p_duration := {| start := startedAt (stamps d); estimated_end := None;
                      duration_totalHours := totalHours d |};
     p_priority := priority d; p_status := status d;
     p_lastUpdated := updatedAt (stamps d) |}.

(** The body of the answer to [GET /api/gap-drivers]. *)
Definition gapDriversResponse (now : string) (stamps : GapDriver -> Stamps)
  (assetParam : option string) : JsValue :=
  createSecureResponse now (JArr (map (GapDriver_toJs stamps) (handler assetParam))).

(** What the [queryFn] of [useGapDrivers] ends with: the validated rows,
    the [ZodError] of the first row that fails, or the [TypeError] of
    calling [map] on a value that has none. *)
Inductive Rows :=
| Validated (rows : list GapDriverParsed)
| Invalid (issue : ZodIssue)
| NoMap.

Fixpoint parseRows (xs : list JsValue) : Rows :=
  match xs with
  | [] => Validated []
  | x :: rest =>
      match GapDriverSchema (Some x) with
      | Failure issue => Invalid issue
      | Success row =>
          match parseRows rest with
          | Validated rows => Validated (row :: rows)
          | other => other
          end
      end
  end.

(** The [queryFn] of [useGapDrivers] on [res.data]:
    [(res.data || []).map((d) => GapDriverSchema.parse(d))].  The falsy
    values give the empty list. *)
Definition useGapDrivers_queryFn (data : JsValue) : Rows :=
  match data with
  | JArr xs => parseRows xs
  | JNull => Validated []
  | JBool false => Validated []
  | JNum n => if Qeq_bool n 0 then Validated [] else NoMap
  | JStr s => if String.eqb s EmptyString then Validated [] else NoMap
  | _ => NoMap
  end.

End Transport.

(* ------------------------------------------------------------------ *)
(** * api/mocks/handlers.ts: the list filters                          *)
(* ------------------------------------------------------------------ *)

Module MockFilters.
Import Js Optimisations.

(** [Array.prototype.slice]: a negative index counts from the end, every
    index is clamped to the array. *)
Definition sliceIndex (len : nat) (i : Z) : nat :=
  if (i <? 0)%Z then Z.to_nat (Z.max (Z.of_nat len + i) 0)
  else Nat.min (Z.to_nat i) len.

Definition slice {A} (first final : Z) (l : list A) : list A :=
  let k := sliceIndex (List.length l) first in
  let e := sliceIndex (List.length l) final in
  firstn (e - k) (skipn k l).

(** [l.slice(first)] *)
Definition sliceFrom {A} (first : Z) (l : list A) : list A :=
  skipn (sliceIndex (List.length l) first) l.

(** [n || fallback] for what [parseInt] returns: an integer, or [NaN],
    which is the [None] here as is a missing property. *)
Definition orElse (n : option Z) (fallback : Z) : Z :=
  match n with
  | Some z => if (z =? 0)%Z then fallback else z
  | None => fallback
  end.

(** Apply pagination: [filtered.slice(offset, offset + limit)] with
    [offset = query.offset || 0] and [limit = query.limit || 50]. *)
Definition paginate {A} (offset limit : option Z) (filtered : list A) : list A :=
  slice (orElse offset 0) (orElse offset 0 + orElse limit 50) filtered.

Definition StreamType_eqb (a b : StreamType) : bool :=
  match a, b with
  | s_oil, s_oil | s_export_gas, s_export_gas | s_domestic_gas, s_domestic_gas => true
  | _, _ => false
  end.

Definition OptimisationStatus_eqb (a b : OptimisationStatus) : bool :=
  match a, b with
  | Pending, Pending | Acknowledged, Acknowledged | Implementing, Implementing
  | Completed, Completed | Rejected, Rejected => true
  | _, _ => false
  end.

Inductive PriorityBand := band_low | band_medium | band_high.

(** [const priorityMap = { low: [1, 3], medium: [4, 6], high: [7, 10] }] *)
Definition priorityMap (band : PriorityBand) : number * number :=
  match band with
  | band_low => (1, 3)
  | band_medium => (4, 6)
  | band_high => (7, 10)
  end.

Record OptimisationsQuery := {
  q_stream : option StreamType;
  q_status : option OptimisationStatus;
  q_priority : option PriorityBand;
  q_limit : option Z;
  q_offset : option Z
}.

(** The three [if (query.x) filtered = filtered.filter(...)] steps. *)
Definition byStream (query : OptimisationsQuery) (o : OptimisationAction) : bool :=
  match q_stream query with
  | Some s => StreamType_eqb (stream o) s
  | None => true
  end.

Definition byStatus (query : OptimisationsQuery) (o : OptimisationAction) : bool :=
  match q_status query with
  | Some s => OptimisationStatus_eqb (status o) s
  | None => true
  end.

Definition byPriority (query : OptimisationsQuery) (o : OptimisationAction) : bool :=
  match q_priority query with
  | Some band =>
      let range := priorityMap band in
      Qle_bool (fst range) (priority o) && Qle_bool (priority o) (snd range)
  | None => true
  end.

(** Filter optimisations by query parameters. *)
Definition filterOptimisations (optimisations : list OptimisationAction)
  (query : OptimisationsQuery) : list OptimisationAction :=
  let filtered := filter (byStream query) optimisations in
  let filtered := filter (byStatus query) filtered in
  let filtered := filter (byPriority query) filtered in
  paginate (q_offset query) (q_limit query) filtered.

Inductive EventType := ev_pressure | ev_temperature | ev_flow | ev_maintenance | ev_safety.
Inductive Severity := sev_info | sev_warning | sev_critical.

Definition Severity_eqb (a b : Severity) : bool :=
  match a, b with
  | sev_info, sev_info | sev_warning, sev_warning | sev_critical, sev_critical => true
  | _, _ => false
  end.

Record ConstraintDetails := {
  currentValue : option number;
  threshold : option number;
  details_unit : option string;
  deviation : option number
}.

Record ConstraintEvent := {
  c_id : string;
  c_nodeId : string;
  c_nodeName : string;
  c_eventType : EventType;
  c_severity : Severity;
  c_stream : StreamType;
  c_description : string;
  c_details : ConstraintDetails;
  c_timestamp : string;
  c_estimatedResolution : option string;
  c_actionRequired : bool
}.

Record ConstraintsQuery := {
  cq_stream : option StreamType;
  cq_severity : option Severity;
  cq_nodeId : option string;
  cq_limit : option Z;
  cq_offset : option Z
}.

Definition constraintMatches (query : ConstraintsQuery) (c : ConstraintEvent) : bool :=
  match cq_stream query with Some s => StreamType_eqb (c_stream c) s | None => true end
  && match cq_severity query with Some s => Severity_eqb (c_severity c) s | None => true end
  && match cq_nodeId query with
     | Some n => if String.eqb n EmptyString then true else String.eqb (c_nodeId c) n
     | None => true
     end.

(** Filter constraints by query parameters. *)
Definition filterConstraints (constraints : list ConstraintEvent) (query : ConstraintsQuery)
  : list ConstraintEvent :=
  let filtered :=
    match cq_stream query with
    | Some s => filter (fun c => StreamType_eqb (c_stream c) s) constraints
    | None => constraints
    end in
  let filtered :=
    match cq_severity query with
    | Some s => filter (fun c => Severity_eqb (c_severity c) s) filtered
    | None => filtered
    end in
  let filtered :=
    match cq_nodeId query with
    | Some n => if String.eqb n EmptyString then filtered
                else filter (fun c => String.eqb (c_nodeId c) n) filtered
    | None => filtered
    end in
  paginate (cq_offset query) (cq_limit query) filtered.

(** An optimisation passes the three filters of a query. *)
Definition optimisationMatches (query : OptimisationsQuery) (o : OptimisationAction) : bool :=
  byStream query o && byStatus query o && byPriority query o.

(** A query with its pagination replaced. *)
Definition page (query : OptimisationsQuery) (offset limit : option Z) : OptimisationsQuery :=
  {| q_stream := q_stream query; q_status := q_status query; q_priority := q_priority query;
     q_limit := limit; q_offset := offset |}.

Definition constraintsPage (query : ConstraintsQuery) (offset limit : option Z)
  : ConstraintsQuery :=
  {| cq_stream := cq_stream query; cq_severity := cq_severity query;
     cq_nodeId := cq_nodeId query; cq_limit := limit; cq_offset := offset |}.

(** The queries without a filter. *)
Definition everyOptimisation : OptimisationsQuery :=
  {| q_stream := None; q_status := None; q_priority := None; q_limit := None;
     q_offset := None |}.

Definition everyConstraint : ConstraintsQuery :=
  {| cq_stream := None; cq_severity := None; cq_nodeId := None; cq_limit := None;
     cq_offset := None |}.

(** The rows [offset], [offset + 1], ... of a list, [limit] of them at
    most. *)
Definition rowsFrom {A} (offset limit : Z) (l : list A) : list A :=
  firstn (Z.to_nat limit) (skipn (Z.to_nat offset) l).

End MockFilters.

(* ------------------------------------------------------------------ *)
(** * hooks/useWebSocket.ts: the state of the hook                     *)
(* ------------------------------------------------------------------ *)

Module WebSocketHook.
Import Js WebSocketEvents MockFilters.

(** [lastEvent] and the elements of [events] are what [JSON.parse]
    returned: the annotation [OptimisationEvent] is not checked when the
    hook runs.  [JNull] is [null]. *)
Record WebSocketState := {
  isConnected : bool;
  isConnecting : bool;
  lastEvent : JsValue;
  events : list JsValue;
  error : option string
}.

Definition initialState : WebSocketState :=
  {| isConnected := false; isConnecting := false; lastEvent := JNull; events := [];
     error := None |}.

(** The [reconnect] option as [handleClose] reads it.  The hook's own
    default, [{ enabled: true, maxAttempts: 5, delay: 3000 }], is an
    object literal evaluated at every render: a hook called without the
    option gets a new [handleClose], a new [connect] and a new run of its
    effect at every render, and the cleanup of the effect clears the
    timer that is pending. *)
Record ReconnectOptions := {
  enabled : bool;
  maxAttempts : nat;
  delay : Z
}.

(** The hook between two renders: its state, the [reconnectAttempts] ref
    and the delays [handleClose] has passed to [setTimeout], oldest
    first.  The list records the calls, not whether a timer fired. *)
Record Hook := {
  state : WebSocketState;
  reconnectAttempts : nat;
  scheduled : list Z
}.

Definition initialHook : Hook :=
  {| state := initialState; reconnectAttempts := 0; scheduled := [] |}.

(** What happens to the hook: [connect] passes its guard and sets the
    state, a message arrives ([parsed] is what [JSON.parse] returns for
    its text, [None] when it throws), the socket opens, closes or fails,
    the user clears the events, or asks for a reconnection ([reconnect]
    resets the attempts and then calls [connect], which is the next
    happening when it passes its guard). *)
Inductive Happening :=
| connecting
| message (parsed : option JsValue)
| opened
| closed (wasClean : bool) (reason : string)
| failed
| cleared
| reconnectRequested.

(** [if (v)] *)
Definition truthy (v : JsValue) : bool :=
  match v with
  | JNull => false
  | JBool b => b
  | JNum n => negb (Qeq_bool n 0)
  | JStr s => negb (String.eqb s EmptyString)
  | JArr _ => true
  | JObj _ => true
  end.

(** Whether the [try] block of [handleMessage] throws after its
    [setState], on the parsed value [v]: reading [v.type] of [null]
    throws, and so does [v.affectedAssets.forEach] when [affectedAssets]
    is truthy and not an array. *)
Definition handlingThrows (v : JsValue) : bool :=
  match v with
  | JNull => true
  | _ =>
      match field "affectedAssets" v with
      | Some (JArr _) => false
      | Some a => truthy a
      | None => false
      end
  end.

(** The state updates of [handleMessage].  A text that [JSON.parse]
    accepts becomes the last event and is appended to the last 99 events
    kept, whatever it is; when the block throws after that, the [catch]
    sets the error on top.  A text on which [JSON.parse] throws only sets
    the error. *)
Definition onMessage (parsed : option JsValue) (prev : WebSocketState)
  : WebSocketState :=
  match parsed with
  | Some v =>
      {| isConnected := isConnected prev; isConnecting := isConnecting prev;
         lastEvent := v;
         events := sliceFrom (-99) (events prev) ++ [v];
         error := if handlingThrows v then Some "Failed to parse WebSocket message"
                  else None |}
  | None =>
      {| isConnected := isConnected prev; isConnecting := isConnecting prev;
         lastEvent := lastEvent prev; events := events prev;
         error := Some "Failed to parse WebSocket message" |}
  end.

Definition handleOpen (h : Hook) : Hook :=
  {| state := {| isConnected := true; isConnecting := false;
                 lastEvent := lastEvent (state h); events := events (state h);
                 error := None |};
     reconnectAttempts := 0;
     scheduled := scheduled h |}.

(** [handleClose]: attempt reconnection if enabled and not a clean close,
    after [delay * reconnectAttempts] with the attempts already counted
    up. *)
Definition handleClose (options : ReconnectOptions) (wasClean : bool) (reason : string)
  (h : Hook) : Hook :=
  let state' :=
    {| isConnected := false; isConnecting := false;
       lastEvent := lastEvent (state h); events := events (state h);
       error := if wasClean then None
                else Some ("WebSocket closed unexpectedly: " ++ reason) |} in
  if enabled options && negb wasClean && (reconnectAttempts h <? maxAttempts options)%nat then
    {| state := state';
       reconnectAttempts := S (reconnectAttempts h);
       scheduled := scheduled h ++ [(delay options * Z.of_nat (S (reconnectAttempts h)))%Z] |}
  else
    {| state := state'; reconnectAttempts := reconnectAttempts h; scheduled := scheduled h |}.

Definition handleError (s : WebSocketState) : WebSocketState :=
  {| isConnected := isConnected s; isConnecting := false; lastEvent := lastEvent s;
     events := events s; error := Some "WebSocket connection error" |}.

(** The [setState] of [connect]. *)
Definition onConnect (s : WebSocketState) : WebSocketState :=
  {| isConnected := isConnected s; isConnecting := true; lastEvent := lastEvent s;
     events := events s; error := None |}.

Definition clearEvents (s : WebSocketState) : WebSocketState :=
  {| isConnected := isConnected s; isConnecting := isConnecting s; lastEvent := JNull;
     events := []; error := error s |}.

Definition withState (f : WebSocketState -> WebSocketState) (h : Hook) : Hook :=
  {| state := f (state h); reconnectAttempts := reconnectAttempts h;
     scheduled := scheduled h |}.

(** One happening, handled with the [reconnect] object [options] of the
    render whose [handleClose] the socket holds. *)
Definition step (options : ReconnectOptions) (h : Hook) (x : Happening) : Hook :=
  match x with
  | connecting => withState onConnect h
  | message parsed => withState (onMessage parsed) h
  | opened => handleOpen h
  | closed wasClean reason => handleClose options wasClean reason h
  | failed => withState handleError h
  | cleared => withState clearEvents h
  | reconnectRequested =>
      {| state := state h; reconnectAttempts := 0; scheduled := scheduled h |}
  end.

Definition hookAfter (options : ReconnectOptions) (xs : list Happening) : Hook :=
  fold_left (step options) xs initialHook.

(** The values [JSON.parse] returned for the messages of a history since
    the events were last cleared. *)
Fixpoint received (xs : list Happening) (acc : list JsValue) : list JsValue :=
  match xs with
  | [] => acc
  | message (Some v) :: rest => received rest (acc ++ [v])
  | cleared :: rest => received rest []
  | _ :: rest => received rest acc
  end.

(** The last [n] elements of a list, and its last element. *)
Definition keepLast {A} (n : nat) (l : list A) : list A :=
  skipn (List.length l - n) l.

Definition lastOf {A} (l : list A) : option A :=
  match rev l with
  | x :: _ => Some x
  | [] => None
  end.

(** The last element of a list of values, [null] for the empty list. *)
Definition lastOrNull (l : list JsValue) : JsValue :=
  match lastOf l with
  | Some v => v
  | None => JNull
  end.



(** A [reconnect] object that a caller passes and keeps across renders,
    with five attempts three seconds apart. *)
Definition fiveAttempts : ReconnectOptions :=
  {| enabled := true; maxAttempts := 5; delay := 3000 |}.


Definition isNull (v : JsValue) : bool :=
  match v with
  | JNull => true
  | _ => false
  end.

(** [event.priority === p], for an [event] that is not [null]; on [null]
    it is [event?.priority === p]. *)
Definition priorityIs (p : string) (event : JsValue) : bool :=
  match field "priority" event with
  | Some (JStr s) => String.eqb s p
  | _ => false
  end.

(** [event.priority === 'critical' || event.priority === 'high'] *)
Definition isHighPriority (event : JsValue) : bool :=
  priorityIs "critical" event || priorityIs "high" event.

Record HighPriorityView := {
  shownEvents : list JsValue;
  shownLastEvent : JsValue
}.

Definition noPriorityOfNull : Api.Thrown :=
  Api.TypeError "Cannot read properties of null (reading 'priority')".

(** [useHighPriorityEvents] on the state of [useWebSocket]: the events
    and the last event it shows.  The callback of [filter] reads
    [event.priority] of every element of the buffer and throws on a
    [null]; the last event is read with [?.] and does not throw. *)
Definition useHighPriorityEvents (s : WebSocketState) : Api.Thrown + HighPriorityView :=
  if existsb isNull (events s) then inl noPriorityOfNull
  else inr {| shownEvents := filter isHighPriority (events s);
              shownLastEvent := if isHighPriority (lastEvent s) then lastEvent s
                                else JNull |}.

(** The alert about the terminal inventory as it arrives, and an event of
    low priority. *)
Definition westAlertJson : JsValue :=
  JObj [("id", JStr "mock-3"); ("type", JStr "system_alert");
        ("timestamp", JStr "2025-01-02T00:00:00.000Z");
        ("priority", JStr "high");
        ("affectedAssets", JArr [JStr "west"]);
        ("message", JStr "Terminal inventory approaching export threshold");
        ("data", JObj [("currentInventory", JNum 2800000); ("threshold", JNum 3000000)])].

Definition efficiencyJson : JsValue :=
  JObj [("id", JStr "mock-2"); ("type", JStr "performance_change");
        ("timestamp", JStr "2025-01-02T00:00:15.000Z");
        ("priority", JStr "low");
        ("affectedAssets", JArr [JStr "west"]);
        ("message", JStr "Production efficiency improved in West Asset");
        ("data", JObj [("previousEfficiency", JNum 94); ("currentEfficiency", JNum 95)])].

End WebSocketHook.

(* ------------------------------------------------------------------ *)
(** * hooks/useNodes.ts: the key and the request of the nodes query    *)
(* ------------------------------------------------------------------ *)

Module Nodes.
Import Js QueryClient.

(** [URLSearchParams]: the pairs in the order of the query string. *)
Definition SearchParams := list (string * string).

(** [searchParams.get(k) || fallback]; [get] returns the first value. *)
Definition getOr (k fallback : string) (searchParams : SearchParams) : string :=
  match assoc k searchParams with
  | Some v => if String.eqb v EmptyString then fallback else v
  | None => fallback
  end.

Record Filters := {
  stream : string;
  asset : string;
  unit : string;
  view : string
}.

(** Extract filters from URL for cache key generation. *)
Definition filtersOf (searchParams : SearchParams) : Filters :=
  {| stream := getOr "stream" "all" searchParams;
     asset := getOr "asset" "all" searchParams;
     unit := getOr "unit" "all" searchParams;
     view := getOr "view" "overview" searchParams |}.

(** [queryKey: ['nodes', { stream, asset, unit, view }]], the properties
    in the order of the hash. *)
Definition queryKey (f : Filters) : QueryKey :=
  [K "nodes";
   KObject [("asset", SString (asset f)); ("stream", SString (stream f));
            ("unit", SString (unit f)); ("view", SString (view f))]].

(** [if (v !== fallback) params.set(k, v)] on the parameters built so far. *)
Definition setUnless (fallback k v : string) : SearchParams :=
  if String.eqb v fallback then [] else [(k, v)].

(** Add non-default filters to API request. *)
Definition requestParams (f : Filters) : SearchParams :=
  (setUnless "all" "stream" (stream f) ++ setUnless "all" "asset" (asset f)
   ++ setUnless "all" "unit" (unit f) ++ setUnless "overview" "view" (view f))%list.

End Nodes.

(* ------------------------------------------------------------------ *)
(** * hooks/useProductionFlow.ts: the view model                       *)
(* ------------------------------------------------------------------ *)

Module FlowView.
Import Js Schemas.

Definition AssetId_eqb (a b : AssetId) : bool :=
  match a, b with
  | east, east | west, west => true
  | _, _ => false
  end.

Definition FacilityType_eqb (a b : FacilityType) : bool :=
  match a, b with
  | flowstation, flowstation | compressor_station, compressor_station
  | gas_plant, gas_plant | terminal, terminal => true
  | _, _ => false
  end.

(** [!assetId || parsed.units.find(u => u.id === f.unitId)?.assetId === assetId] *)
Definition inAsset (assetId : option AssetId) (units : list TopologyUnit)
  (f : TopologyFacility) : bool :=
  match assetId with
  | None => true
  | Some a =>
      match List.find (fun u => String.eqb (tu_id u) (tf_unitId f)) units with
      | Some u => AssetId_eqb (tu_assetId u) a
      | None => false
      end
  end.

(** The accumulator of the [reduce]: one array for each facility type. *)
Record ByType := {
  by_flowstation : list TopologyFacility;
  by_compressor_station : list TopologyFacility;
  by_gas_plant : list TopologyFacility;
  by_terminal : list TopologyFacility
}.

Definition noFacilities : ByType :=
  {| by_flowstation := []; by_compressor_station := []; by_gas_plant := [];
     by_terminal := [] |}.

(** [acc[f.type].push(f)] *)
Definition push (acc : ByType) (f : TopologyFacility) : ByType :=
  match tf_type f with
  | flowstation =>
      {| by_flowstation := (by_flowstation acc ++ [f])%list;
         by_compressor_station := by_compressor_station acc;
         by_gas_plant := by_gas_plant acc; by_terminal := by_terminal acc |}
  | compressor_station =>
      {| by_flowstation := by_flowstation acc;
         by_compressor_station := (by_compressor_station acc ++ [f])%list;
         by_gas_plant := by_gas_plant acc; by_terminal := by_terminal acc |}
  | gas_plant =>
      {| by_flowstation := by_flowstation acc;
         by_compressor_station := by_compressor_station acc;
         by_gas_plant := (by_gas_plant acc ++ [f])%list; by_terminal := by_terminal acc |}
  | terminal =>
      {| by_flowstation := by_flowstation acc;
         by_compressor_station := by_compressor_station acc;
         by_gas_plant := by_gas_plant acc; by_terminal := (by_terminal acc ++ [f])%list |}
  end.

Definition facilitiesByType (assetId : option AssetId) (parsed : ProductionFlow) : ByType :=
  fold_left push (filter (inAsset assetId (flow_units parsed)) (flow_facilities parsed))
            noFacilities.

(** [m?.currentProduction] *)
Definition production (m : option NetworkMetrics) : option number :=
  match m with
  | Some x => Some (currentProduction x)
  | None => None
  end.

(** [a ?? b] *)
Definition coalesce {A} (a : option A) (b : A) : A :=
  match a with
  | Some x => x
  | None => b
  end.

Record Flowstation := {
  fs_id : string;
  fs_name : string;
  fs_status : string;
  fs_throughput : number;
  compressorConnections : list string;
  fs_pipelineConnections : list string
}.

Record CompressorStation := {
  cs_id : string;
  cs_name : string;
  cs_status : string;
  cs_throughput : number;
  destinationNetwork : string
}.

Record GasPlant := {
  gp_id : string;
  gp_name : string;
  gp_status : string;
  salesGas : number;
  gp_pipelineConnections : list string
}.

Record Terminal := {
  t_id : string;
  t_name : string;
  t_status : string;
  inventory : number;
  t_maxCapacity : number;
  loadingRate : number
}.

Record Pipeline := {
  pl_id : string;
  pl_sourceId : string;
  destinationId : string;
  pl_maxCapacity : number;
  pl_currentThroughput : number;
  pl_product : Product;
  pl_status : string
}.

Definition flowstationOf (f : TopologyFacility) : Flowstation :=
  {| fs_id := tf_id f; fs_name := tf_name f; fs_status := tf_status f;
     fs_throughput := coalesce (production (oil (tf_networks f))) 0;
     compressorConnections := []; fs_pipelineConnections := [] |}.

Definition compressorStationOf (f : TopologyFacility) : CompressorStation :=
  {| cs_id := tf_id f; cs_name := tf_name f; cs_status := tf_status f;
     cs_throughput :=
       match production (domesticGas (tf_networks f)) with
       | Some p => p
       | None => coalesce (production (exportGas (tf_networks f))) 0
       end;
     destinationNetwork :=
       match exportGas (tf_networks f) with
       | Some _ => "export"
       | None => "domestic"
       end |}.

Definition gasPlantOf (f : TopologyFacility) : GasPlant :=
  {| gp_id := tf_id f; gp_name := tf_name f; gp_status := tf_status f;
     salesGas :=
       match production (exportGas (tf_networks f)) with
       | Some p => p
       | None => coalesce (production (domesticGas (tf_networks f))) 0
       end;
     gp_pipelineConnections := [] |}.

Definition terminalOf (f : TopologyFacility) : Terminal :=
  {| t_id := tf_id f; t_name := tf_name f; t_status := tf_status f;
     inventory := 0; t_maxCapacity := 0; loadingRate := 0 |}.

Definition pipelineOf (e : TopologyEdge) : Pipeline :=
  {| pl_id := sourceId e ++ "-" ++ targetId e;
     pl_sourceId := sourceId e; destinationId := targetId e;
     pl_maxCapacity := edge_maxCapacity e;
     pl_currentThroughput := currentThroughput e;
     pl_product := product e; pl_status := edge_status e |}.

(** The view model; its [wells], [flowlines], [manifolds] and
    [receivingPoints] are only ever the empty array. *)
Record ProductionFlowView := {
  wells : list JsValue;
  flowlines : list JsValue;
  manifolds : list JsValue;
  flowstations : list Flowstation;
  gasPlants : list GasPlant;
  compressorStations : list CompressorStation;
  pipelines : list Pipeline;
  terminals : list Terminal;
  receivingPoints : list JsValue
}.

(** Map topology to legacy view model expected by [ProductionFlowMap]. *)
Definition viewOf (assetId : option AssetId) (parsed : ProductionFlow) : ProductionFlowView :=
  let facilitiesByType := facilitiesByType assetId parsed in
  {| wells := []; flowlines := []; manifolds := [];
     flowstations := map flowstationOf (by_flowstation facilitiesByType);
     gasPlants := map gasPlantOf (by_gas_plant facilitiesByType);
     compressorStations := map compressorStationOf (by_compressor_station facilitiesByType);
     pipelines := map pipelineOf (flow_edges parsed);
     terminals := map terminalOf (by_terminal facilitiesByType);
     receivingPoints := [] |}.

(** The [queryFn] of [useProductionFlow] on the answer of the transport. *)
Definition useProductionFlow_queryFn (assetId : option AssetId) (responseData : JsValue)
  : Zod.SafeParse ProductionFlowView :=
  Zod.bind (ProductionFlowSchema (Some responseData))
           (fun parsed => Zod.Success (viewOf assetId parsed)).

(** The facilities the view keeps: those of the asset asked for. *)
Definition kept (assetId : option AssetId) (parsed : ProductionFlow) : list TopologyFacility :=
  filter (inAsset assetId (flow_units parsed)) (flow_facilities parsed).

Definition ofType (t : FacilityType) (l : list TopologyFacility) : list TopologyFacility :=
  filter (fun f => FacilityType_eqb (tf_type f) t) l.

(** A facility belongs to a unit of the asset. *)
Definition belongsTo (a : AssetId) (units : list TopologyUnit) (f : TopologyFacility) : Prop :=
  exists u, In u units /\ tu_id u = tf_unitId f /\ tu_assetId u = a.

(** The production-flow payload of the contract test. *)
Definition contractFlow : JsValue :=
  JObj [("units", JArr [JObj [("id", JStr "u1"); ("name", JStr "Unit 1");
                              ("assetId", JStr "east")]]);
        ("facilities", JArr [JObj [("id", JStr "f1"); ("name", JStr "Fac 1");
                                   ("type", JStr "flowstation"); ("unitId", JStr "u1");
                                   ("status", JStr "online"); ("networks", JObj [])]]);
        ("edges", JArr [JObj [("sourceId", JStr "f1"); ("targetId", JStr "f1");
                              ("product", JStr "oil"); ("maxCapacity", JNum 1);
                              ("currentThroughput", JNum 1); ("status", JStr "ok")]])].

End FlowView.

(* ------------------------------------------------------------------ *)
(** * The shape of a hierarchy payload and of its parse                *)
(* ------------------------------------------------------------------ *)

Module Hierarchy.
Import Js Zod Schemas.

(** [value.id] when it is a string. *)
Definition idOf (v : JsValue) : option string :=
  match field "id" v with
  | Some (JStr s) => Some s
  | _ => None
  end.

(** The ids of the units of an asset of the payload, each with the ids of
    its facilities, in the order of the payload. *)
Definition sourceUnits (ja : JsValue) : list (option string * list (option string)) :=
  map (fun ju => (idOf ju, map idOf (elements "facilities" ju)))
      (elements "productionUnits" ja).

Definition sourceShape (payload : JsValue)
  : list (list (option string * list (option string))) :=
  map sourceUnits (elements "assets" payload).

(** The same of the parsed response. *)
Definition parsedUnits (a : AssetItem) : list (option string * list (option string)) :=
  map (fun u => (Some (unit_id u), map (fun f => Some (fac_id f)) (facilities u)))
      (productionUnits a).

Definition parsedShape (r : AssetsResponse)
  : list (list (option string * list (option string))) :=
  map parsedUnits (assets r).

End Hierarchy.

(* ------------------------------------------------------------------ *)
(** * Views of the gap driver list                                     *)
(* ------------------------------------------------------------------ *)

Module Ranking.
Import Js Double GapDrivers.

(** The drivers of a list that lose [v], in the order of the list. *)
Definition losing (v : number) (l : list GapDriver) : list GapDriver :=
  filter (fun d => Qeq_bool (lostProduction (impact d)) v) l.

(** The networks a facility of the table lists. *)
Definition networksOf (fac : FacilityNet) : list (NetworkKey * BasicNetMetrics) :=
  match networks fac with
  | Some n => n
  | None => []
  end.

(** What the loop body computes for one stream network of the table, next
    to the percentage of the specification. *)
Definition tableEntry (key : NetworkKey) (metrics : BasicNetMetrics) (def cap : Z) : Prop :=
  deferment metrics = Some (inject_Z def)
  /\ maxCapacity metrics = Some (inject_Z cap)
  /\ (0 < def)%Z /\ (0 < cap)%Z
  /\ (lost metrics == inject_Z def)%Q
  /\ (exactPercentage (inject_Z def) (inject_Z cap) == inject_Z def / inject_Z cap * 100)%Q
  /\ percentageOf key metrics = fl (fl (inject_Z def / inject_Z cap) * 100)
  /\ (Qabs (percentageOf key metrics - exactPercentage (inject_Z def) (inject_Z cap))
      < 1 # 10 ^ 12)%Q
  /\ priorityOf (percentageOf key metrics)
     = priorityOf (exactPercentage (inject_Z def) (inject_Z cap))
  /\ toFixed1 (percentageOf key metrics)
     = fl (nearestTenth (exactPercentage (inject_Z def) (inject_Z cap))).

End Ranking.

(* ------------------------------------------------------------------ *)
(** * Traces of reads                                                  *)
(* ------------------------------------------------------------------ *)

Module RetryTraces.
Import Js Api Retry.

(** A read of [answers] under [options] calls the transport at most
    [most] times after the first call, and sleeps 1 s, 2 s, 4 s between
    the calls. *)
Definition givesUpAfter {R} (most : nat) (options : QueryOptions)
  (answers : list (Thrown + R)) : Prop :=
  let r := fetch options answers in
  (calls r <= S most)%nat
  /\ (List.length (delays r) <= most)%nat
  /\ delays r = firstn (List.length (delays r)) [1000; 2000; 4000]%Z.

(** The answers of a transport that fails with [errors] in turn. *)
Definition failures {R} (errors : list Thrown) : list (Thrown + R) :=
  map inl errors.

(** Every error of the list is retried at its position. *)
Definition allRetried (options : QueryOptions) (errors : list Thrown) : Prop :=
  forall i e, nth_error errors i = Some e -> shouldRetry options i e = true.

End RetryTraces.

(* ------------------------------------------------------------------ *)
(** * Views of the query cache                                         *)
(* ------------------------------------------------------------------ *)

Module CacheViews.
Import Js QueryClient Api Optimisations.

(** [queryClient.getQueryState(key)?.isInvalidated]: the query of the key
    is marked for a refetch. *)
Definition stale {Data} (key : QueryKey) (cache : Cache Data) : bool :=
  match find key cache with
  | Some q => isInvalidated q
  | None => false
  end.

(** The action [target] is shown as completed wherever a cached response
    lists it. *)
Definition showsCompleted (target : string) (d : option CachedData) : Prop :=
  match d with
  | Some (Response r) =>
      forall opt, In opt (optimisations r) -> id opt = target -> status opt = Completed
  | Some (HighPriority l) =>
      forall opt, In opt l -> id opt = target -> status opt = Completed
  | None => True
  end.

(** The key is under one of the prefixes. *)
Definition underAny (prefixes : list QueryKey) (key : QueryKey) : bool :=
  existsb (partialMatchKey key) prefixes.

(** [mutate(update)] on the implement hook, for the final outcome of the
    PATCH request. *)
Definition implementMutation (clock : Clock) (update : OptimisationActionUpdate)
  (network : Thrown + OptimisationAction) (cache : Cache CachedData)
  : Cache CachedData * (Thrown + OptimisationAction) :=
  execute (useImplementOptimisation clock) update network cache.

(** The queries an event invalidates, read off [handleMessage]: those of
    the case of its type and those of the assets it lists. *)
Definition byType (type : string) (key : QueryKey) : bool :=
  if String.eqb type "new_optimisation" || String.eqb type "optimisation_update" then
    partialMatchKey key [K "optimisations"]
  else if String.eqb type "system_alert" then
    partialMatchKey key [K "alerts"] || partialMatchKey key [K "summary"]
  else if String.eqb type "performance_change" then
    partialMatchKey key [K "summary"] || partialMatchKey key [K "nodes"]
  else false.

Definition byAsset (assets : list string) (key : QueryKey) : bool :=
  existsb (fun asset =>
             partialMatchKey key [K "summary"; K "asset"; K asset]
             || partialMatchKey key [K "optimisations"; K "asset"; K asset]) assets.

Definition invalidatedBy (event : WebSocketEvents.OptimisationEvent) (key : QueryKey) : bool :=
  byType (WebSocketEvents.type event) key || byAsset (WebSocketEvents.assetsOf event) key.

End CacheViews.

(* ================================================================== *)
(** * Properties                                                       *)
(* ================================================================== *)

Module JsFacts.
Import Js.

Lemma Qltb_lt (a b : Q) : Qltb a b = true <-> (a < b)%Q.
Proof.
  unfold Qltb. rewrite negb_true_iff. split; intro H.
  - apply Qnot_le_lt. intro Hle. apply Qle_bool_iff in Hle. congruence.
  - destruct (Qle_bool b a) eqn:E; trivial.
    apply Qle_bool_iff in E. exfalso. exact (Qlt_not_le _ _ H E).
Qed.

Lemma Qltb_ge (a b : Q) : Qltb a b = false <-> (b <= a)%Q.
Proof.
  unfold Qltb. rewrite negb_false_iff. apply Qle_bool_iff.
Qed.

Lemma Qle_bool_false (a b : Q) : Qle_bool a b = false <-> (b < a)%Q.
Proof.
  split; intro H.
  - apply Qnot_le_lt. intro Hle. apply Qle_bool_iff in Hle. congruence.
  - destruct (Qle_bool a b) eqn:E; trivial.
    apply Qle_bool_iff in E. exfalso. exact (Qlt_not_le _ _ H E).
Qed.

End JsFacts.

(* ------------------------------------------------------------------ *)
(** ** Rounding to the nearest double                                  *)
(* ------------------------------------------------------------------ *)

Module DoubleFacts.
Import Double.
Local Open Scope Q_scope.

Lemma pow2_pos e : 0 < pow2 e.
Proof. apply Qpower_0_lt. reflexivity. Qed.

Lemma pow2_add a b : pow2 (a + b) == pow2 a * pow2 b.
Proof. apply Qpower_plus. discriminate. Qed.

Lemma pow2_sub a b : pow2 (a - b) == pow2 a / pow2 b.
Proof. apply Qpower_minus. discriminate. Qed.

Lemma pow2_le a b : (a <= b)%Z -> pow2 a <= pow2 b.
Proof. intros. apply Qpower_le_compat_l; [assumption | discriminate]. Qed.

Lemma pow2_lt a b : (a < b)%Z -> pow2 a < pow2 b.
Proof. intros. apply Qpower_lt_compat_l; [assumption | reflexivity]. Qed.


Lemma pow2_Z n : (0 <= n)%Z -> pow2 n == inject_Z (2 ^ n).
Proof. intros. unfold pow2. rewrite Zpower_Qpower by assumption. reflexivity. Qed.

Lemma pow2_succ a : pow2 (a + 1) == 2 * pow2 a.
Proof. rewrite pow2_add. unfold pow2 at 2. simpl. ring. Qed.

Lemma div_mul_le (p q d : Q) : 0 < p -> 0 < q -> d <= q -> p / q * d <= p.
Proof.
  intros Hp Hq Hd.
  assert (H : d / q <= 1) by (apply Qle_shift_div_r; lra).
  setoid_replace (p / q * d) with (p * (d / q)) by (field; lra).
  rewrite <- (Qmult_1_r p) at 2. apply Qmult_le_l; assumption.
Qed.

Lemma le_div_mul (p q d : Q) : 0 < p -> 0 < q -> q <= d -> p <= p / q * d.
Proof.
  intros Hp Hq Hd.
  assert (H : 1 <= d / q) by (apply Qle_shift_div_l; lra).
  setoid_replace (p / q * d) with (p * (d / q)) by (field; lra).
  rewrite <- (Qmult_1_r p) at 1. apply Qmult_le_l; assumption.
Qed.

Lemma log2_bounds (n : Z) :
  (0 < n)%Z -> pow2 (Z.log2 n) <= inject_Z n < pow2 (Z.log2 n + 1).
Proof.
  intros Hn. destruct (Z.log2_spec n Hn) as [H1 H2].
  pose proof (Z.log2_nonneg n).
  rewrite !pow2_Z by lia. rewrite <- Zle_Qle, <- Zlt_Qlt.
  replace (Z.log2 n + 1)%Z with (Z.succ (Z.log2 n)) by lia. split; assumption.
Qed.

Lemma floorLog2_spec (x : Q) :
  0 < x -> pow2 (floorLog2 x) <= x < pow2 (floorLog2 x + 1).
Proof.
  intros Hx. unfold floorLog2.
  destruct x as [n d]. cbn [Qnum Qden].
  assert (Hn : (0 < n)%Z) by (unfold Qlt in Hx; simpl in Hx; lia).
  destruct (log2_bounds n Hn) as [Hn1 Hn2].
  destruct (log2_bounds (Zpos d) eq_refl) as [Hd1 Hd2].
  set (a := Z.log2 n) in *. set (b := Z.log2 (Zpos d)) in *.
  assert (Hq : n # d == inject_Z n / inject_Z (Zpos d)) by (apply Qmake_Qdiv).
  assert (Hdpos : 0 < inject_Z (Zpos d)) by reflexivity.
  pose proof (pow2_pos b) as Hb. pose proof (pow2_pos a) as Ha.
  assert (Hlo : pow2 (a - b - 1) <= n # d).
  { rewrite Hq. apply Qle_shift_div_l; [assumption|].
    replace (a - b - 1)%Z with (a - (b + 1))%Z by lia. rewrite pow2_sub.
    apply Qle_trans with (pow2 a); [| assumption].
    apply div_mul_le; try assumption; try apply pow2_pos; lra. }
  assert (Hhi : n # d < pow2 (a - b + 1)).
  { rewrite Hq. apply Qlt_shift_div_r; [assumption|].
    replace (a - b + 1)%Z with (a + 1 - b)%Z by lia. rewrite pow2_sub.
    apply Qlt_le_trans with (pow2 (a + 1)); [assumption|].
    apply le_div_mul; try assumption. apply pow2_pos. }
  destruct (Qle_bool (pow2 (a - b)) (n # d)) eqn:E.
  - apply Qle_bool_iff in E. split; assumption.
  - assert (n # d < pow2 (a - b)).
    { apply Qnot_le_lt. intro Hc. apply Qle_bool_iff in Hc. congruence. }
    replace (a - b - 1 + 1)%Z with (a - b)%Z by lia. split; assumption.
Qed.






Lemma roundHalfEven_floor (x : Q) : (Qfloor x <= roundHalfEven x)%Z.
Proof.
  unfold roundHalfEven.
  destruct (x - inject_Z (Qfloor x) ?= 1 # 2); [destruct (Z.even _) | |]; lia.
Qed.


Lemma nearest_pos (x : Q) : 0 < x -> 0 <= nearest x.
Proof.
  intros Hx. unfold nearest. set (e := Z.max _ _).
  apply Qmult_le_0_compat; [| apply Qlt_le_weak, pow2_pos].
  change 0 with (inject_Z 0). rewrite <- Zle_Qle.
  etransitivity; [| apply roundHalfEven_floor].
  change 0%Z with (Qfloor 0). apply Qfloor_resp_le.
  apply Qle_shift_div_l; [apply pow2_pos|]. lra.
Qed.

Lemma fl_nonneg (x : Q) : 0 <= x -> 0 <= fl x.
Proof.
  intros Hx. unfold fl. rewrite Qred_correct.
  destruct (x ?= 0) eqn:C.
  - lra.
  - rewrite <- Qlt_alt in C. lra.
  - rewrite <- Qgt_alt in C. apply nearest_pos; assumption.
Qed.

(** A whole number up to 2^53 is a lower bound of the double nearest to
    anything above it: rounding never crosses a representable value. *)
Lemma nearest_above (z : Z) (y : Q) :
  (0 < z <= 2 ^ 53)%Z -> inject_Z z <= y -> inject_Z z <= nearest y.
Proof.
  intros Hz Hy.
  assert (Hy0 : 0 < y).
  { eapply Qlt_le_trans; [| eassumption]. change 0 with (inject_Z 0).
    rewrite <- Zlt_Qlt. lia. }
  destruct (floorLog2_spec y Hy0) as [HE _].
  unfold nearest. set (E := floorLog2 y) in *. set (e := Z.max _ _).
  pose proof (pow2_pos e) as He.
  assert (Hfl : forall m : Z, inject_Z m <= y / pow2 e ->
                              inject_Z m * pow2 e <= inject_Z (roundHalfEven (y / pow2 e)) * pow2 e).
  { intros m Hm. apply Qmult_le_compat_r; [| lra].
    rewrite <- Zle_Qle. etransitivity; [| apply roundHalfEven_floor].
    rewrite <- (Qfloor_Z m). apply Qfloor_resp_le. assumption. }
  destruct (Z_le_gt_dec e 0) as [Hle | Hgt].
  - (* z / 2^e is a whole number *)
    assert (Hm : inject_Z z == inject_Z (z * 2 ^ (- e)) * pow2 e).
    { rewrite inject_Z_mult, <- pow2_Z by lia.
      rewrite <- Qmult_assoc, <- pow2_add.
      replace (- e + e)%Z with 0%Z by lia. unfold pow2 at 1. simpl. ring. }
    rewrite Hm. apply Hfl. apply Qle_shift_div_l; [assumption|].
    rewrite <- Hm. assumption.
  - assert (He52 : e = (E - 52)%Z) by (unfold e in *; lia).
    apply Qle_trans with (inject_Z (2 ^ 52) * pow2 e).
    + rewrite <- pow2_Z by lia. rewrite <- pow2_add.
      apply Qle_trans with (pow2 53).
      * rewrite pow2_Z by lia. rewrite <- Zle_Qle. lia.
      * apply pow2_le. lia.
    + apply Hfl. apply Qle_shift_div_l; [assumption|].
      rewrite <- pow2_Z by lia. rewrite <- pow2_add.
      replace (52 + e)%Z with E by lia. assumption.
Qed.

Lemma fl_above (z : Z) (y : Q) :
  (0 < z <= 2 ^ 53)%Z -> inject_Z z <= y -> inject_Z z <= fl y.
Proof.
  intros Hz Hy.
  assert (Hy0 : 0 < y).
  { eapply Qlt_le_trans; [| eassumption]. change 0 with (inject_Z 0).
    rewrite <- Zlt_Qlt. lia. }
  unfold fl. rewrite Qred_correct.
  destruct (y ?= 0) eqn:C.
  - apply Qeq_alt in C. lra.
  - rewrite <- Qlt_alt in C. lra.
  - apply nearest_above; assumption.
Qed.




End DoubleFacts.


(* ------------------------------------------------------------------ *)
(** ** What a successful parse says about its input                    *)
(* ------------------------------------------------------------------ *)

Module ZodFacts.
Import Js Zod.

Lemma bind_Success {A B} (r : SafeParse A) (k : A -> SafeParse B) (b : B) :
  bind r k = Success b -> exists a, r = Success a /\ k a = Success b.
Proof.
  destruct r as [a|i]; simpl; intro H; [eauto | discriminate].
Qed.

Lemma under_Success {A} (p : PathItem) (r : SafeParse A) (a : A) :
  under p r = Success a -> r = Success a.
Proof.
  destruct r; simpl; intro H; [assumption | discriminate].
Qed.

Lemma prop_Success {A} (k : string) (s : Schema A) (o : JsValue) (a : A) :
  prop k s o = Success a -> s (field k o) = Success a.
Proof. apply under_Success. Qed.

Lemma object_Success {A} (shape : JsValue -> SafeParse A) (v : option JsValue) (a : A) :
  object shape v = Success a ->
  exists fs, v = Some (JObj fs) /\ shape (JObj fs) = Success a.
Proof.
  destruct v as [[ | | | | |fs]|]; simpl; try discriminate. eauto.
Qed.

Lemma each_Success {A} (s : Schema A) (xs : list JsValue) :
  forall (i : nat) (l : list A),
    each s i xs = Success l ->
    Forall2 (fun x a => s (Some x) = Success a) xs l.
Proof.
  induction xs as [|x xs IH]; simpl; intros i l H.
  - injection H as <-. constructor.
  - apply bind_Success in H as (a & Ha & H).
    apply bind_Success in H as (l' & Hl' & H).
    injection H as <-. apply under_Success in Ha.
    constructor; eauto.
Qed.

(** An array property with the default [[]]: the parsed list follows the
    elements of the source one by one. *)
Lemma default_array_Success {A} (s : Schema A) (k : string) (o : JsValue) (l : list A) :
  default (JArr []) (array s) (field k o) = Success l ->
  Forall2 (fun x a => s (Some x) = Success a) (elements k o) l.
Proof.
  unfold elements, default, array.
  destruct (field k o) as [[ | | | |xs| ]|]; simpl; try discriminate.
  - apply each_Success.
  - intro H. injection H as <-. constructor.
Qed.

Lemma array_Success {A} (s : Schema A) (k : string) (o : JsValue) (l : list A) :
  array s (field k o) = Success l ->
  Forall2 (fun x a => s (Some x) = Success a) (elements k o) l.
Proof.
  unfold elements, array.
  destruct (field k o) as [[ | | | |xs| ]|]; simpl; try discriminate.
  apply each_Success.
Qed.

Lemma Forall2_In_r {A B} (R : A -> B -> Prop) (xs : list A) (ys : list B) :
  Forall2 R xs ys -> forall y, In y ys -> exists x, In x xs /\ R x y.
Proof.
  induction 1 as [|x y xs ys Hxy _ IH]; simpl; intros b Hb; [contradiction|].
  destruct Hb as [<-|Hb]; [eauto|].
  destruct (IH b Hb) as (a & Ha & Hab). eauto.
Qed.

Lemma Forall2_In_l {A B} (R : A -> B -> Prop) (xs : list A) (ys : list B) :
  Forall2 R xs ys -> forall x, In x xs -> exists y, In y ys /\ R x y.
Proof.
  induction 1 as [|x y xs ys Hxy _ IH]; simpl; intros a Ha; [contradiction|].
  destruct Ha as [<-|Ha]; [eauto|].
  destruct (IH a Ha) as (b & Hb & Hab). eauto.
Qed.

(** Splits a hypothesis [x <- r ;; k = Success b] into its steps. *)
Ltac zod_steps H :=
  repeat
    (let a := fresh "v" in
     let Ha := fresh "P" in
     apply bind_Success in H as (a & Ha & H);
     try apply prop_Success in Ha).

End ZodFacts.

(* ------------------------------------------------------------------ *)
(** ** Ingestion of the hierarchy payload                              *)
(* ------------------------------------------------------------------ *)

Module SchemaFacts.
Import Js Zod Schemas JsFacts ZodFacts.

Lemma nonnegative_default_0_spec (v : option JsValue) (n : number) :
  nonnegative_default_0 v = Success n ->
  n = match v with Some (JNum d) => d | _ => 0 end /\ (0 <= n)%Q.
Proof.
  unfold nonnegative_default_0, default, nonnegative, number_.
  destruct v as [[ | |d| | | ]|]; simpl; try discriminate.
  - destruct (Qltb d 0) eqn:E; [discriminate|].
    intro H. injection H as <-. split; [reflexivity|]. now apply Qltb_ge.
  - intro H. vm_compute in H. injection H as <-. split; [reflexivity|]. apply Qle_refl.
Qed.

Lemma NetworkMetricsSchema_deferment (v : JsValue) (m : NetworkMetrics) :
  NetworkMetricsSchema (Some v) = Success m ->
  deferment m = match field "deferment" v with Some (JNum d) => d | _ => 0 end
  /\ (0 <= deferment m)%Q.
Proof.
  intro H. apply object_Success in H as (fs & Hv & H).
  injection Hv as ->. zod_steps H. injection H as <-. simpl.
  now apply nonnegative_default_0_spec.
Qed.

Lemma NetworkMetricsSchema_default :
  NetworkMetricsSchema (Some (NetworkMetrics_toJs DEFAULT_FLARED_GAS_METRICS))
  = Success DEFAULT_FLARED_GAS_METRICS.
Proof. reflexivity. Qed.

Lemma spreadOverDefault_id (m : NetworkMetrics) : spreadOverDefault m = m.
Proof. now destruct m. Qed.

Lemma optional_Some {A} (s : Schema A) (v : option JsValue) (a : A) :
  optional s v = Success (Some a) -> exists x, v = Some x /\ s (Some x) = Success a.
Proof.
  destruct v as [x|]; simpl; [|discriminate].
  intro H. apply bind_Success in H as (a' & Ha & H). injection H as ->. eauto.
Qed.

Lemma optional_None {A} (s : Schema A) (v : option JsValue) :
  optional s v = Success None -> v = None.
Proof.
  destruct v as [x|]; simpl; [|reflexivity].
  intro H. apply bind_Success in H as (a' & Ha & H). discriminate.
Qed.

(** Each network of the parsed object is the parse of the property of
    that name. *)
Lemma networksObject_network (v : JsValue) (n : Networks) (key : NetworkKey) :
  networksObject (Some v) = Success n ->
  optional NetworkMetricsSchema (field (NetworkKey_name key) v) = Success (network key n).
Proof.
  intro H. apply object_Success in H as (fs & Hv & H).
  injection Hv as ->. zod_steps H. injection H as <-.
  destruct key; simpl; assumption.
Qed.

Lemma networks_Success (v : option JsValue) (n : Networks) :
  transform (default defaultNetworks networksObject) withFlaredGas v = Success n ->
  exists raw,
    networksObject (Some (match v with Some x => x | None => defaultNetworks end)) = Success raw
    /\ n = withFlaredGas raw.
Proof.
  unfold transform. intro H. apply bind_Success in H as (raw & Hraw & H).
  injection H as <-. exists raw. split; [|reflexivity].
  destruct v; exact Hraw.
Qed.

Lemma FacilityRefSchema_networks (jf : JsValue) (f : FacilityRef) :
  FacilityRefSchema (Some jf) = Success f ->
  exists raw,
    networksObject (Some (sourceNetworks jf)) = Success raw
    /\ fac_networks f = withFlaredGas raw.
Proof.
  intro H. apply object_Success in H as (fs & Hv & H).
  injection Hv as ->. zod_steps H. injection H as <-. simpl.
  unfold sourceNetworks. unfold default in P1.
  destruct (field "networks" (JObj fs)) as [x|];
    apply networks_Success in P1 as (raw & Hraw & ->); eauto.
Qed.

Lemma ProductionUnitSchema_networks (ju : JsValue) (u : ProductionUnit) :
  ProductionUnitSchema (Some ju) = Success u ->
  exists raw,
    networksObject (Some (sourceNetworks ju)) = Success raw
    /\ unit_networks u = withFlaredGas raw.
Proof.
  intro H. apply object_Success in H as (fs & Hv & H).
  injection Hv as ->. zod_steps H. injection H as <-. simpl.
  unfold sourceNetworks.
  apply networks_Success in P6 as (raw & Hraw & ->). eauto.
Qed.

Lemma suppliedDeferment_at (jf nx x : JsValue) (key : NetworkKey) :
  field "networks" jf = Some nx ->
  field (NetworkKey_name key) nx = Some x ->
  suppliedDeferment jf key = match field "deferment" x with Some (JNum d) => d | _ => 0 end.
Proof.
  intros H1 H2. unfold suppliedDeferment. simpl. rewrite H1, H2.
  now destruct (field "deferment" x).
Qed.

Lemma suppliedDeferment_no_networks (jf : JsValue) (key : NetworkKey) :
  field "networks" jf = None -> suppliedDeferment jf key = 0.
Proof. intro H. unfold suppliedDeferment. simpl. now rewrite H. Qed.

Lemma suppliedDeferment_no_network (jf nx : JsValue) (key : NetworkKey) :
  field "networks" jf = Some nx ->
  field (NetworkKey_name key) nx = None ->
  suppliedDeferment jf key = 0.
Proof. intros H1 H2. unfold suppliedDeferment. simpl. now rewrite H1, H2. Qed.

(** The deferment of a parsed facility network is the number the feed
    supplied, or the default [0]: the schema checks its sign and never
    recomputes it. *)
Lemma facility_deferment_supplied (jf : JsValue) (f : FacilityRef)
  (key : NetworkKey) (m : NetworkMetrics) :
  FacilityRefSchema (Some jf) = Success f ->
  network key (fac_networks f) = Some m ->
  deferment m = suppliedDeferment jf key /\ (0 <= deferment m)%Q.
Proof.
  intros H Hm.
  destruct (FacilityRefSchema_networks _ _ H) as (raw & Hraw & Hn).
  rewrite Hn in Hm. clear Hn H.
  pose proof (networksObject_network _ _ key Hraw) as Hkey.
  unfold sourceNetworks in Hkey.
  destruct (field "networks" jf) as [nx|] eqn:Hnx.
  - (* the feed has [networks] *)
    assert (Hsupplied : forall x, field (NetworkKey_name key) nx = Some x ->
                                  NetworkMetricsSchema (Some x) = Success m ->
                                  deferment m = suppliedDeferment jf key /\ (0 <= deferment m)%Q).
    { intros x Hx Hp. rewrite (suppliedDeferment_at _ _ _ _ Hnx Hx).
      now apply NetworkMetricsSchema_deferment. }
    destruct key; cbn [network] in Hkey; simpl in Hm;
      try (rewrite Hm in Hkey; apply optional_Some in Hkey as (x & Hx & Hp); now eauto).
    rewrite spreadOverDefault_id in Hm.
    destruct (flaredGas raw) as [fm|]; injection Hm as <-.
    + apply optional_Some in Hkey as (x & Hx & Hp). now eauto.
    + apply optional_None in Hkey.
      rewrite (suppliedDeferment_no_network _ _ _ Hnx Hkey).
      split; [reflexivity | apply Qle_refl].
  - (* no [networks]: the default, flared gas only *)
    rewrite (suppliedDeferment_no_networks _ _ Hnx).
    destruct key; cbn [network] in Hkey; simpl in Hm;
      try (rewrite Hm in Hkey; apply optional_Some in Hkey as (x & Hx & _); discriminate Hx).
    rewrite spreadOverDefault_id in Hm.
    destruct (flaredGas raw) as [fm|]; injection Hm as <-.
    + apply optional_Some in Hkey as (x & Hx & Hp).
      simpl in Hx. injection Hx as <-.
      rewrite NetworkMetricsSchema_default in Hp. injection Hp as <-.
      split; [reflexivity | apply Qle_refl].
    + split; [reflexivity | apply Qle_refl].
Qed.

Lemma optional_Some_default (o : option NetworkMetrics) :
  optional NetworkMetricsSchema (field "flaredGas" defaultNetworks) = Success o ->
  o = Some DEFAULT_FLARED_GAS_METRICS.
Proof. intro H. vm_compute in H. now injection H as <-. Qed.

(** *** From the payload to its entities *)

Lemma AssetsResponseSchema_assets (p : JsValue) (r : AssetsResponse) :
  AssetsResponseSchema (Some p) = Success r ->
  Forall2 (fun x a => AssetItemSchema (Some x) = Success a) (elements "assets" p) (assets r).
Proof.
  intro H. apply object_Success in H as (fs & Hv & H).
  injection Hv as ->. zod_steps H. injection H as <-.
  cbn [assets productionUnits facilities flow_facilities]. now apply array_Success.
Qed.

Lemma AssetItemSchema_units (ja : JsValue) (a : AssetItem) :
  AssetItemSchema (Some ja) = Success a ->
  Forall2 (fun x u => ProductionUnitSchema (Some x) = Success u)
          (elements "productionUnits" ja) (productionUnits a).
Proof.
  intro H. apply object_Success in H as (fs & Hv & H).
  injection Hv as ->. zod_steps H. injection H as <-.
  cbn [assets productionUnits facilities flow_facilities]. now apply default_array_Success.
Qed.

Lemma ProductionUnitSchema_facilities (ju : JsValue) (u : ProductionUnit) :
  ProductionUnitSchema (Some ju) = Success u ->
  Forall2 (fun x f => FacilityRefSchema (Some x) = Success f)
          (elements "facilities" ju) (facilities u).
Proof.
  intro H. apply object_Success in H as (fs & Hv & H).
  injection Hv as ->. zod_steps H. injection H as <-.
  cbn [assets productionUnits facilities flow_facilities]. now apply default_array_Success.
Qed.

(** Every parsed unit is the parse of a unit written in the payload. *)
Lemma parsed_unit_source (p : JsValue) (r : AssetsResponse) (a : AssetItem)
  (u : ProductionUnit) :
  useAssets_queryFn p = Success r ->
  In a (assets r) -> In u (productionUnits a) ->
  exists ju, In ju (unitSources p) /\ ProductionUnitSchema (Some ju) = Success u.
Proof.
  intros H Ha Hu. apply AssetsResponseSchema_assets in H.
  destruct (Forall2_In_r _ _ _ H a Ha) as (ja & Hja & Pa).
  apply AssetItemSchema_units in Pa.
  destruct (Forall2_In_r _ _ _ Pa u Hu) as (ju & Hju & Pu).
  exists ju. split; [|exact Pu].
  unfold unitSources. apply in_flat_map. eauto.
Qed.

(** Every parsed facility is the parse of a facility written in the
    payload. *)
Lemma parsed_facility_source (p : JsValue) (r : AssetsResponse) (a : AssetItem)
  (u : ProductionUnit) (f : FacilityRef) :
  useAssets_queryFn p = Success r ->
  In a (assets r) -> In u (productionUnits a) -> In f (facilities u) ->
  exists jf, In jf (facilitySources p) /\ FacilityRefSchema (Some jf) = Success f.
Proof.
  intros H Ha Hu Hf.
  destruct (parsed_unit_source _ _ _ _ H Ha Hu) as (ju & Hju & Pu).
  apply ProductionUnitSchema_facilities in Pu.
  destruct (Forall2_In_r _ _ _ Pu f Hf) as (jf & Hjf & Pf).
  exists jf. split; [|exact Pf].
  unfold facilitySources. apply in_flat_map. eauto.
Qed.

(** A payload is accepted only if every facility written in it is. *)
Lemma accepted_facilities (p : JsValue) (r : AssetsResponse) (jf : JsValue) :
  useAssets_queryFn p = Success r ->
  In jf (facilitySources p) ->
  exists f, FacilityRefSchema (Some jf) = Success f.
Proof.
  intros H Hjf. apply AssetsResponseSchema_assets in H.
  unfold facilitySources, unitSources in Hjf.
  apply in_flat_map in Hjf as (ju & Hju & Hjf).
  apply in_flat_map in Hju as (ja & Hja & Hju).
  destruct (Forall2_In_l _ _ _ H ja Hja) as (a & _ & Pa).
  apply AssetItemSchema_units in Pa.
  destruct (Forall2_In_l _ _ _ Pa ju Hju) as (u & _ & Pu).
  apply ProductionUnitSchema_facilities in Pu.
  destruct (Forall2_In_l _ _ _ Pu jf Hjf) as (f & _ & Pf).
  eauto.
Qed.

Lemma FacilityRefSchema_required (jf : JsValue) (f : FacilityRef) :
  FacilityRefSchema (Some jf) = Success f ->
  field "id" jf <> None /\ field "type" jf <> None.
Proof.
  intro H. apply object_Success in H as (fs & Hv & H).
  injection Hv as ->. zod_steps H.
  split; intro E.
  - rewrite E in P. discriminate P.
  - rewrite E in P0. discriminate P0.
Qed.

Lemma TopologyFacilitySchema_required (jf : JsValue) (f : TopologyFacility) :
  TopologyFacilitySchema (Some jf) = Success f ->
  field "type" jf <> None /\ field "unitId" jf <> None.
Proof.
  intro H. apply object_Success in H as (fs & Hv & H).
  injection Hv as ->. zod_steps H.
  split; intro E.
  - rewrite E in P1. discriminate P1.
  - rewrite E in P2. discriminate P2.
Qed.

Lemma ProductionFlowSchema_facilities (p : JsValue) (r : ProductionFlow) :
  ProductionFlowSchema (Some p) = Success r ->
  Forall2 (fun x f => TopologyFacilitySchema (Some x) = Success f)
          (elements "facilities" p) (flow_facilities r).
Proof.
  intro H. apply object_Success in H as (fs & Hv & H).
  injection Hv as ->. zod_steps H. injection H as <-.
  cbn [assets productionUnits facilities flow_facilities]. now apply array_Success.
Qed.

(** *** Flared gas *)

Lemma flaredGas_present (raw : Networks) :
  exists m, flaredGas (withFlaredGas raw) = Some m.
Proof. simpl. eauto. Qed.

Lemma flaredGas_default (o : JsValue) (raw : Networks) :
  networksObject (Some (sourceNetworks o)) = Success raw ->
  at_path ["networks"; "flaredGas"] o = None ->
  flaredGas (withFlaredGas raw) = Some DEFAULT_FLARED_GAS_METRICS.
Proof.
  intros Hraw Habsent.
  pose proof (networksObject_network _ _ k_flaredGas Hraw) as Hkey.
  unfold sourceNetworks in Hkey. simpl in Hkey, Habsent.
  unfold withFlaredGas. cbn [flaredGas].
  destruct (field "networks" o) as [nx|].
  - destruct (field "flaredGas" nx) as [x|]; [discriminate Habsent|].
    simpl in Hkey. injection Hkey as <-. reflexivity.
  - apply optional_Some_default in Hkey. rewrite Hkey. reflexivity.
Qed.

(** *** The claims about ingestion *)

(** C1, as the code has it.  After ingestion of a hierarchy payload, the
    deferment of every Facility Network metrics entry is the number the
    feed supplied for it, or [0] when the feed supplied none; it is checked
    to be non-negative and is not recomputed from [businessTarget] and
    [currentProduction]. *)
Theorem deferment_is_the_supplied_value
  (payload : JsValue) (r : AssetsResponse) (a : AssetItem) (u : ProductionUnit)
  (f : FacilityRef) (key : NetworkKey) (m : NetworkMetrics) :
  useAssets_queryFn payload = Success r ->
  In a (assets r) -> In u (productionUnits a) -> In f (facilities u) ->
  network key (fac_networks f) = Some m ->
  exists jf,
    In jf (facilitySources payload)
    /\ FacilityRefSchema (Some jf) = Success f
    /\ deferment m = suppliedDeferment jf key
    /\ (0 <= deferment m)%Q.
Proof.
  intros H Ha Hu Hf Hm.
  destruct (parsed_facility_source _ _ _ _ _ H Ha Hu Hf) as (jf & Hjf & Pf).
  exists jf. repeat split; try assumption;
    now apply (facility_deferment_supplied jf f key m).
Qed.

Lemma deferment_is_the_supplied_value_witness :
  exists jf,
    In jf (facilitySources examplePayload)
    /\ FacilityRefSchema (Some jf)
       = Success {| fac_id := "flowstation-001"; fac_type := flowstation;
                    fac_networks := {| oil := Some oil_001; domesticGas := None;
                                       exportGas := None;
                                       flaredGas := Some {| maxCapacity := 800;
                                                            businessTarget := 600;
                                                            currentProduction := 500;
                                                            deferment := 300;
                                                            unit := "mcf/d";
                                                            trend := stable;
                                                            changePercent := 0.0 |} |} |}
    /\ deferment oil_001 = suppliedDeferment jf k_oil
    /\ (0 <= deferment oil_001)%Q.
Proof.
  eapply (deferment_is_the_supplied_value examplePayload).
  - vm_compute. reflexivity.
  - simpl. left. reflexivity.
  - simpl. left. reflexivity.
  - simpl. left. reflexivity.
  - reflexivity.
Defined.

(** C1 as stated fails: [flowstation-001] of the mock feed is ingested with
    an oil deferment of 1200 although its target less its production is
    400. *)
Lemma deferment_is_not_recomputed :
  exists r a u f m,
    useAssets_queryFn examplePayload = Success r
    /\ In a (assets r) /\ In u (productionUnits a) /\ In f (facilities u)
    /\ network k_oil (fac_networks f) = Some m
    /\ (deferment m == 1200)%Q
    /\ (canonicalDeferment m == 400)%Q
    /\ ~ (deferment m == canonicalDeferment m)%Q.
Proof.
  do 4 eexists. exists oil_001.
  split; [vm_compute; reflexivity|].
  split; [simpl; left; reflexivity|].
  split; [simpl; left; reflexivity|].
  split; [simpl; left; reflexivity|].
  split; [reflexivity|].
  split; [reflexivity|].
  split; [vm_compute; reflexivity|].
  vm_compute. discriminate.
Qed.



(** C8, as the code has it.  A hierarchy payload in which a facility has
    no [id] or no [type] is rejected as a whole: [parse] throws, no
    hierarchy is returned and nothing is dropped; it is the same for a
    production-flow payload with a facility that has no [type] or no
    [unitId].  What is defaulted is a missing [facilities] list (empty)
    and missing networks. *)
Theorem facility_without_type_rejects_payload (payload jf ju : JsValue) :
  (In jf (facilitySources payload) ->
   field "id" jf = None \/ field "type" jf = None ->
   exists issue, useAssets_queryFn payload = Failure issue)
  /\ (In jf (elements "facilities" payload) ->
      field "type" jf = None \/ field "unitId" jf = None ->
      exists issue, ProductionFlowSchema (Some payload) = Failure issue)
  /\ (forall u, ProductionUnitSchema (Some ju) = Success u ->
      field "facilities" ju = None ->
      facilities u = [] /\ exists m, flaredGas (unit_networks u) = Some m).
Proof.
  split; [|split].
  - intros Hjf Hmissing.
    destruct (useAssets_queryFn payload) as [r|issue] eqn:E; [|eauto].
    destruct (accepted_facilities _ _ _ E Hjf) as (f & Pf).
    apply FacilityRefSchema_required in Pf. tauto.
  - intros Hjf Hmissing.
    destruct (ProductionFlowSchema (Some payload)) as [r|issue] eqn:E; [|eauto].
    apply ProductionFlowSchema_facilities in E.
    destruct (Forall2_In_l _ _ _ E jf Hjf) as (f & _ & Pf).
    apply TopologyFacilitySchema_required in Pf. tauto.
  - intros u Pu Hnone.
    pose proof (ProductionUnitSchema_facilities _ _ Pu) as Hfs.
    destruct (ProductionUnitSchema_networks _ _ Pu) as (raw & _ & Hn).
    unfold elements in Hfs. rewrite Hnone in Hfs. inversion Hfs.
    split; [reflexivity|]. rewrite Hn. apply flaredGas_present.
Qed.

Lemma facility_without_type_rejects_payload_witness :
  (exists issue, useAssets_queryFn payloadWithoutType = Failure issue)
  /\ (exists issue, ProductionFlowSchema (Some flowWithoutUnitId) = Failure issue).
Proof.
  split.
  - apply (proj1 (facility_without_type_rejects_payload payloadWithoutType
                    facility_without_type JNull)).
    + simpl. right. left. reflexivity.
    + right. reflexivity.
  - eapply (proj1 (proj2 (facility_without_type_rejects_payload flowWithoutUnitId _ JNull))).
    + simpl. left. reflexivity.
    + right. reflexivity.
Defined.

(** C8 as stated fails: the facility without [type] is not dropped, the
    whole payload is rejected with an issue at that facility, although the
    same payload is accepted once the facility is taken out. *)
Lemma facility_without_type_is_not_dropped :
  field "type" facility_without_type = None
  /\ useAssets_queryFn payloadWithoutType
     = Failure {| code := invalid_type;
                  path := [PKey "assets"; PIndex 0; PKey "productionUnits"; PIndex 0;
                           PKey "facilities"; PIndex 1; PKey "type"] |}
  /\ (forall r, useAssets_queryFn payloadWithoutType <> Success r)
  /\ is_success (useAssets_queryFn (assetsPayload [flowstation_001])) = true.
Proof.
  split; [reflexivity|].
  split; [vm_compute; reflexivity|].
  split; [|vm_compute; reflexivity].
  intros r E. vm_compute in E. discriminate E.
Qed.

End SchemaFacts.

(* ------------------------------------------------------------------ *)
(** ** The gap driver handler                                          *)
(* ------------------------------------------------------------------ *)

Module GapDriverFacts.
Import Js Double GapDrivers Ranking JsFacts.

(** *** The sort *)

Lemma insert_Permutation {A} (compare : A -> A -> number) (x : A) (l : list A) :
  Permutation (insert compare x l) (x :: l).
Proof.
  induction l as [|y l IH]; simpl; [reflexivity|].
  destruct (Qltb 0 (compare x y)); [|reflexivity].
  rewrite IH. apply perm_swap.
Qed.

Lemma sort_Permutation {A} (compare : A -> A -> number) (l : list A) :
  Permutation (sort compare l) l.
Proof.
  induction l as [|x l IH]; simpl; [reflexivity|].
  rewrite insert_Permutation. now constructor.
Qed.

Lemma byImpact_after (x y : GapDriver) :
  Qltb 0 (byImpact x y) = true -> descendingImpact y x.
Proof.
  unfold byImpact, descendingImpact. intro H. apply Qltb_lt in H.
  apply Qlt_le_weak. now apply Qlt_minus_iff.
Qed.

Lemma byImpact_before (x y : GapDriver) :
  Qltb 0 (byImpact x y) = false -> descendingImpact x y.
Proof.
  unfold byImpact, descendingImpact. intro H. apply Qltb_ge in H.
  apply Qnot_lt_le. intro Hlt. apply Qlt_minus_iff in Hlt.
  exact (Qlt_not_le _ _ Hlt H).
Qed.

Lemma descendingImpact_trans (a b c : GapDriver) :
  descendingImpact a b -> descendingImpact b c -> descendingImpact a c.
Proof. unfold descendingImpact. intros Hab Hbc. now apply (Qle_trans _ _ _ Hbc). Qed.

Lemma insert_sorted (x : GapDriver) (l : list GapDriver) :
  StronglySorted descendingImpact l ->
  StronglySorted descendingImpact (insert byImpact x l).
Proof.
  induction 1 as [|y l Hl IH Hy]; simpl.
  - repeat constructor.
  - destruct (Qltb 0 (byImpact x y)) eqn:E.
    + constructor; [exact IH|].
      rewrite (insert_Permutation byImpact x l).
      constructor; [now apply byImpact_after | exact Hy].
    + apply byImpact_before in E.
      constructor; [now constructor|].
      constructor; [exact E|].
      apply (Forall_impl _ (fun z Hz => descendingImpact_trans _ _ _ E Hz) Hy).
Qed.

Lemma sort_sorted (l : list GapDriver) :
  StronglySorted descendingImpact (sort byImpact l).
Proof.
  induction l as [|x l IH]; simpl; [constructor | now apply insert_sorted].
Qed.

Lemma firstn_sorted {A} (R : A -> A -> Prop) (n : nat) (l : list A) :
  StronglySorted R l -> StronglySorted R (firstn n l).
Proof.
  intro H. revert n. induction H as [|x l Hl IH Hx]; intro n.
  - rewrite firstn_nil. constructor.
  - destruct n as [|n]; simpl; constructor; [apply IH|].
    apply Forall_forall. intros z Hz.
    apply (proj1 (Forall_forall _ _) Hx).
    rewrite <- (firstn_skipn n l). apply in_or_app. now left.
Qed.

(** *** Percentage and priority *)

Lemma priorityOf_thresholds (p : number) :
  ((30 <= p)%Q -> priorityOf p = critical)
  /\ ((20 <= p)%Q -> (p < 30)%Q -> priorityOf p = high)
  /\ ((10 <= p)%Q -> (p < 20)%Q -> priorityOf p = medium)
  /\ ((p < 10)%Q -> priorityOf p = low).
Proof.
  unfold priorityOf.
  destruct (Qle_bool 30 p) eqn:E30; destruct (Qle_bool 20 p) eqn:E20;
    destruct (Qle_bool 10 p) eqn:E10;
    repeat match goal with
           | H : Qle_bool _ _ = true |- _ => apply Qle_bool_iff in H
           | H : Qle_bool _ _ = false |- _ => apply Qle_bool_false in H
           end;
    repeat split; intros; try reflexivity; exfalso; lra.
Qed.

Lemma lost_of_integer (metrics : BasicNetMetrics) (z : Z) :
  (0 <= z)%Z -> deferment metrics = Some (inject_Z z) -> (lost metrics == inject_Z z)%Q.
Proof.
  intros Hz Hd. unfold lost. rewrite Hd, Qfloor_Z.
  apply Q.max_r. change 0%Q with (inject_Z 0). now rewrite <- Zle_Qle.
Qed.

Lemma driverOf_Some (asset : AssetNet) (unit : UnitNet) (fac : FacilityNet)
  (key : NetworkKey) (metrics : BasicNetMetrics) (d : GapDriver) :
  driverOf asset unit fac key metrics = Some d ->
  toStream key <> None
  /\ ~ (lost metrics == 0)%Q
  /\ lostProduction (impact d) = lost metrics
  /\ percentage (impact d) = toFixed1 (percentageOf key metrics)
  /\ priority d = priorityOf (percentageOf key metrics)
  /\ gapType d = gapTypeOf (type fac)
  /\ nodeId d = id fac.
Proof.
  unfold driverOf. destruct (toStream key) as [stream|]; [|discriminate].
  destruct (Qeq_bool (lost metrics) 0) eqn:E; [discriminate|].
  intro H. injection H as <-. simpl.
  repeat split; try reflexivity; try discriminate.
  intro Hz. apply Qeq_bool_iff in Hz. congruence.
Qed.

(** In the handler's table every network that is a stream has a positive
    maximum capacity and a positive whole deferment. *)
Lemma table_capacities_and_deferments :
  Forall (fun '(key, metrics) =>
            toStream key <> None ->
            exists (cap : number) (z : Z),
              maxCapacity metrics = Some cap /\ (0 < cap)%Q
              /\ deferment metrics = Some (inject_Z z) /\ (0 < z)%Z)
         (tablePairs assets).
Proof.
  unfold tablePairs, assets. simpl.
  repeat constructor; simpl; intro H; try (exfalso; now apply H);
    do 2 eexists; repeat split; reflexivity.
Qed.

Lemma In_collect (table : list AssetNet) (assetFilter : option string) (d : GapDriver) :
  In d (collect table assetFilter) ->
  exists asset unit fac key metrics,
    In asset table /\ In unit (units asset) /\ In fac (facilities unit)
    /\ In (key, metrics) (networksOf fac)
    /\ driverOf asset unit fac key metrics = Some d
    /\ (forall f, assetFilter = Some f -> assetId asset = f).
Proof.
  unfold collect. intro H. apply in_flat_map in H as (asset & Hasset & H).
  assert (Hd : In d (flat_map (fun unit => flat_map (driversOfFacility asset unit)
                                                    (facilities unit)) (units asset))
               /\ (forall f, assetFilter = Some f -> assetId asset = f)).
  { destruct assetFilter as [f|].
    - destruct (String.eqb (assetId asset) f) eqn:E; [|contradiction].
      split; [exact H|]. intros f' Hf. injection Hf as <-. now apply String.eqb_eq.
    - split; [exact H|]. discriminate. }
  destruct Hd as (Hd & Hscope).
  apply in_flat_map in Hd as (unit & Hunit & Hd).
  apply in_flat_map in Hd as (fac & Hfac & Hd).
  unfold driversOfFacility in Hd.
  apply in_flat_map in Hd as ((key, metrics) & Hnet & Hd).
  destruct (driverOf asset unit fac key metrics) as [d'|] eqn:E; [|contradiction].
  destruct Hd as [<-|[]].
  exists asset, unit, fac, key, metrics. auto 10.
Qed.

Lemma In_firstn_In {A} (n : nat) (l : list A) (x : A) : In x (firstn n l) -> In x l.
Proof.
  revert l. induction n as [|n IH]; intros [|y l] H; simpl in H; try contradiction.
  destruct H as [->|H]; [now left | right; now apply IH].
Qed.

Lemma In_gapDrivers (table : list AssetNet) (param : option string) (d : GapDriver) :
  In d (gapDrivers table param) -> In d (collect table (assetFilterOf param)).
Proof.
  unfold gapDrivers. intro H. apply In_firstn_In in H.
  exact (Permutation_in d (sort_Permutation byImpact _) H).
Qed.

Lemma In_tablePairs (table : list AssetNet) (asset : AssetNet) (unit : UnitNet)
  (fac : FacilityNet) (pair : NetworkKey * BasicNetMetrics) :
  In asset table -> In unit (units asset) -> In fac (facilities unit) ->
  In pair (networksOf fac) -> In pair (tablePairs table).
Proof.
  intros Ha Hu Hf Hn. unfold tablePairs.
  apply in_flat_map. exists asset. split; [exact Ha|].
  apply in_flat_map. exists unit. split; [exact Hu|].
  apply in_flat_map. exists fac. split; [exact Hf | exact Hn].
Qed.

Ltac table_entry :=
  let H := fresh "H" in
  intro H;
  first [ exfalso; apply H; reflexivity
        | do 2 eexists; unfold tableEntry;
          split; [reflexivity|]; split; [reflexivity|];
          split; [reflexivity|]; split; [reflexivity|];
          split; [vm_compute; reflexivity|]; split; [vm_compute; reflexivity|];
          split; [vm_compute; reflexivity|]; split; [vm_compute; reflexivity|];
          split; vm_compute; reflexivity ].

(** Every stream network of the handler's table has a positive whole
    deferment and a positive whole maximum capacity, and on each of them
    the doubles of the loop body agree with the exact percentage: they
    differ by less than [10^-12], fall in the same priority bucket and
    round to the same tenth. *)
Lemma table_percentages :
  Forall (fun '(key, metrics) =>
            toStream key <> None -> exists def cap : Z, tableEntry key metrics def cap)
         (tablePairs assets).
Proof.
  unfold tablePairs, assets. cbn [flat_map units facilities networks fac net app].
  repeat (apply Forall_cons; [table_entry|]). apply Forall_nil.
Qed.

Lemma zero_capacity (key : NetworkKey) (metrics : BasicNetMetrics) (cap : number) :
  maxCapacity metrics = Some cap -> (cap == 0)%Q ->
  percentageOf key metrics = 0%Q
  /\ toFixed1 (percentageOf key metrics) = 0%Q
  /\ priorityOf (percentageOf key metrics) = low
  /\ forall def, exactPercentage def cap = 0%Q.
Proof.
  intros Hcap Hzero.
  assert (E : percentageOf key metrics = 0%Q).
  { unfold percentageOf, capacity. rewrite Hcap.
    destruct (Qltb 0 cap) eqn:El; [|reflexivity].
    apply Qltb_lt in El. rewrite Hzero in El. now apply Qlt_irrefl in El. }
  rewrite E. repeat split.
  intro def. unfold exactPercentage.
  apply Qeq_bool_iff in Hzero. now rewrite Hzero.
Qed.

(** C4.  Every driver the handler builds, and so every driver it
    returns, was made for a (facility, network) pair of its table that has
    a positive whole deferment and a positive whole maximum capacity.  Its
    lost production is that
    deferment; the percentage the loop computes is
    [deferment / maxCapacity * 100] in double arithmetic, within [10^-12]
    of the exact quotient; its priority is the bucket of that percentage,
    which is the bucket of the exact one; the percentage it reports is
    the exact one rounded to one decimal.  The buckets are: 30 and more
    critical, 20 and more high, 10 and more medium, low below.  A maximum
    capacity of 0 gives the percentage 0 and the priority low.  The
    answer to a request without filter holds the driver of the oil of
    [flowstation-002], deferment 12000 of 50000: 24 percent, high; 32 is
    critical and 5 is low. *)
Theorem gap_percentage_and_priority (param : option string) (d : GapDriver) :
  In d (collect assets (assetFilterOf param)) ->
  (exists asset unit fac key metrics (def cap : Z),
     In asset assets /\ In unit (units asset) /\ In fac (facilities unit)
     /\ In (key, metrics) (networksOf fac)
     /\ driverOf asset unit fac key metrics = Some d
     /\ deferment metrics = Some (inject_Z def)
     /\ maxCapacity metrics = Some (inject_Z cap)
     /\ (0 < def)%Z /\ (0 < cap)%Z
     /\ (lostProduction (impact d) == inject_Z def)%Q
     /\ (exactPercentage (inject_Z def) (inject_Z cap)
         == inject_Z def / inject_Z cap * 100)%Q
     /\ percentageOf key metrics = fl (fl (inject_Z def / inject_Z cap) * 100)
     /\ (Qabs (percentageOf key metrics - exactPercentage (inject_Z def) (inject_Z cap))
         < 1 # 10 ^ 12)%Q
     /\ priority d = priorityOf (percentageOf key metrics)
     /\ priority d = priorityOf (exactPercentage (inject_Z def) (inject_Z cap))
     /\ percentage (impact d)
        = fl (nearestTenth (exactPercentage (inject_Z def) (inject_Z cap))))
  /\ (forall d', In d' (handler param) -> In d' (collect assets (assetFilterOf param)))
  /\ (forall p : number,
        ((30 <= p)%Q -> priorityOf p = critical)
        /\ ((20 <= p)%Q -> (p < 30)%Q -> priorityOf p = high)
        /\ ((10 <= p)%Q -> (p < 20)%Q -> priorityOf p = medium)
        /\ ((p < 10)%Q -> priorityOf p = low))
  /\ (forall asset unit fac key metrics cap d',
        driverOf asset unit fac key metrics = Some d' ->
        maxCapacity metrics = Some cap -> (cap == 0)%Q ->
        percentageOf key metrics = 0%Q
        /\ percentage (impact d') = 0%Q
        /\ priority d' = low
        /\ forall def, exactPercentage def cap = 0%Q)
  /\ (exists d0,
        In d0 (handler None) /\ nodeId d0 = "flowstation-002"
        /\ (lostProduction (impact d0) == 12000)%Q
        /\ (percentage (impact d0) == 24)%Q
        /\ priority d0 = high)
  /\ priorityOf 32 = critical /\ priorityOf 5 = low.
Proof.
  intro H. split; [|split; [|split; [|split; [|split]]]].
  - destruct (In_collect _ _ _ H)
      as (asset & unit & fac & key & metrics & Ha & Hu & Hf & Hn & Hd & _).
    destruct (driverOf_Some _ _ _ _ _ _ Hd) as (Hstream & _ & Hlost & Hpct & Hprio & _).
    pose proof (proj1 (Forall_forall _ _) table_percentages (key, metrics)
                  (In_tablePairs _ _ _ _ _ Ha Hu Hf Hn) Hstream) as (def & cap & Hentry).
    destruct Hentry as (H1 & H2 & H3 & H4 & H5 & H6 & H7 & H8 & H9 & H10).
    exists asset, unit, fac, key, metrics, def, cap.
    repeat match goal with |- _ /\ _ => split end; try assumption.
    + rewrite Hlost. exact H5.
    + rewrite Hprio. exact H9.
    + rewrite Hpct. exact H10.
  - intros d' Hd'. now apply In_gapDrivers.
  - apply priorityOf_thresholds.
  - intros asset unit fac key metrics cap d' Hd' Hcap Hzero.
    destruct (driverOf_Some _ _ _ _ _ _ Hd') as (_ & _ & _ & Hpct & Hprio & _).
    destruct (zero_capacity key metrics cap Hcap Hzero) as (E1 & E2 & E3 & E4).
    rewrite Hpct, Hprio. auto.
  - exists (nth 7 (handler None) (nth 0 (handler None) d)).
    split; [vm_compute; do 7 right; left; reflexivity|].
    repeat split; vm_compute; reflexivity.
  - split; reflexivity.
Qed.

(** The example of the specification, in the answer to a request without
    filter: the oil of [flowstation-002], [deferment: 12000],
    [maxCapacity: 50000]. *)
Lemma gap_percentage_and_priority_witness :
  exists d (def cap : Z),
    In d (collect assets (assetFilterOf None)) /\ In d (handler None)
    /\ nodeId d = "flowstation-002"
    /\ (lostProduction (impact d) == inject_Z def)%Q
    /\ percentage (impact d)
       = fl (nearestTenth (exactPercentage (inject_Z def) (inject_Z cap)))
    /\ priority d = priorityOf (exactPercentage (inject_Z def) (inject_Z cap))
    /\ (lostProduction (impact d) == 12000)%Q
    /\ (percentage (impact d) == 24)%Q
    /\ priority d = high.
Proof.
  assert (Hin : exists d, In d (collect assets (assetFilterOf None)) /\ In d (handler None)
                          /\ nodeId d = "flowstation-002"
                          /\ (lostProduction (impact d) == 12000)%Q
                          /\ (percentage (impact d) == 24)%Q
                          /\ priority d = high).
  { eexists. split; [vm_compute; do 5 right; left; reflexivity|].
    split; [vm_compute; do 7 right; left; reflexivity|].
    repeat split; vm_compute; reflexivity. }
  destruct Hin as (d & Hd & Hout & Hid & Hlost & Hpct & Hprio).
  destruct (gap_percentage_and_priority None d Hd)
    as ((asset & unit & fac & key & metrics & def & cap & _ & _ & _ & _ & _ & _ & _
         & _ & _ & H1 & _ & _ & _ & _ & H2 & H3) & _).
  exists d, def, cap. auto 12.
Defined.

(** *** The ranking *)

(** C6, as the code has it.  The list the handler returns is the drivers
    sorted by lost production, largest first, cut to its first 12 entries
    whatever the request; the sort keeps every driver, and with no driver
    to rank the handler returns the empty list. *)
Theorem gap_drivers_sorted_top_12 (table : list AssetNet) (param : option string) :
  let drivers := collect table (assetFilterOf param) in
  let out := gapDrivers table param in
  StronglySorted descendingImpact out
  /\ out = firstn 12 (sort byImpact drivers)
  /\ Permutation (sort byImpact drivers) drivers
  /\ List.length out = Nat.min 12 (List.length drivers)
  /\ (forall d, In d out -> In d drivers)
  /\ (drivers = [] -> out = [])
  /\ handler (Some "north") = [].
Proof.
  intros drivers out.
  assert (Hperm : Permutation (sort byImpact drivers) drivers) by apply sort_Permutation.
  split; [apply firstn_sorted, sort_sorted|].
  split; [reflexivity|].
  split; [exact Hperm|].
  split.
  { unfold out, gapDrivers. fold drivers.
    rewrite length_firstn. now rewrite (Permutation_length Hperm). }
  split.
  { intros d Hd. apply (Permutation_in _ Hperm).
    unfold out, gapDrivers in Hd. fold drivers in Hd.
    rewrite <- (firstn_skipn 12 (sort byImpact drivers)).
    apply in_or_app. now left. }
  split; [|reflexivity].
  unfold out, gapDrivers. fold drivers. now intros ->.
Qed.

(** C6 as stated fails: a request that asks for no limit gets 12 of the 20
    drivers of the table; the oil gap of [flowstation-001] is among those
    cut off. *)
Lemma gap_drivers_capped_without_limit :
  List.length (collect assets (assetFilterOf None)) = 20%nat
  /\ List.length (handler None) = 12%nat
  /\ exists d,
       driverOf {| assetId := "east"; units := [] |}
                {| unitId := "east-production-unit-01"; unitName := "Soku Production Unit";
                   facilities := [] |}
                (fac "flowstation-001" "East Flowstation 001" flowstation [])
                k_oil flowstation_001_oil = Some d
       /\ In (gap_id d) (map gap_id (collect assets (assetFilterOf None)))
       /\ ~ In (gap_id d) (map gap_id (handler None)).
Proof.
  split; [vm_compute; reflexivity|].
  split; [vm_compute; reflexivity|].
  eexists. split; [reflexivity|].
  split.
  - vm_compute. left. reflexivity.
  - vm_compute. intuition discriminate.
Qed.

End GapDriverFacts.

(* ------------------------------------------------------------------ *)
(** ** The query cache                                                 *)
(* ------------------------------------------------------------------ *)

Module QueryClientFacts.
Import Js QueryClient.

Lemma Scalar_eqb_eq (a b : Scalar) : Scalar_eqb a b = true <-> a = b.
Proof.
  destruct a, b; simpl; split; intro H; try discriminate; try reflexivity.
  - apply String.eqb_eq in H. now subst.
  - injection H as ->. apply String.eqb_refl.
  - apply Bool.eqb_prop in H. now subst.
  - injection H as ->. apply Bool.eqb_reflx.
Qed.

Lemma samePart_eq (a b : KeyPart) : samePart a b = true <-> a = b.
Proof.
  destruct a as [x|oa], b as [y|ob]; simpl; try (split; intro; discriminate).
  - rewrite Scalar_eqb_eq. split; [now intros -> | now intros [= ->]].
  - revert ob. induction oa as [|[k1 v1] r1 IH]; intros [|[k2 v2] r2];
      try (split; intro; discriminate); [split; reflexivity|].
    rewrite !andb_true_iff, String.eqb_eq, Scalar_eqb_eq, IH.
    split.
    + intros ((-> & ->) & [= ->]). reflexivity.
    + intros [= -> -> ->]. repeat split.
Qed.

Lemma sameHash_eq (a b : QueryKey) : sameHash a b = true <-> a = b.
Proof.
  revert b. induction a as [|pa a IH]; intros [|pb b]; simpl;
    try (split; intro; discriminate); [split; reflexivity|].
  rewrite andb_true_iff, samePart_eq, IH.
  split; [now intros (-> & ->) | now intros [= -> ->]].
Qed.

Lemma sameHash_refl (a : QueryKey) : sameHash a a = true.
Proof. now apply sameHash_eq. Qed.

Lemma sameHash_neq (a b : QueryKey) : a <> b -> sameHash a b = false.
Proof.
  intro H. destruct (sameHash a b) eqn:E; [|reflexivity].
  apply sameHash_eq in E. contradiction.
Qed.

(** A filter of one string matches the keys that start with it. *)
Lemma partialMatchKey_kind (key : QueryKey) (s : string) :
  partialMatchKey key [K s] = true <-> exists rest, key = K s :: rest.
Proof.
  destruct key as [|[[ |x|b]|o] rest]; simpl;
    try (split; [discriminate | intros (? & [=])]).
  rewrite andb_true_r, String.eqb_eq.
  split; [intros ->; eauto | now intros (? & [= ->])].
Qed.

Section Cache.
Context {Data Exn : Type}.
Implicit Types (cache : Cache Data) (q : Query Data) (key : QueryKey).

(** In a cache with one query per hash, a query is found under its key. *)
Lemma find_In cache q :
  NoDup (map queryKey cache) -> In q cache -> find (queryKey q) cache = Some q.
Proof.
  induction cache as [|q' cache IH]; simpl; intros Hnd Hin; [contradiction|].
  inversion Hnd as [|? ? Hnotin Hnd']; subst.
  destruct Hin as [->|Hin]; [now rewrite sameHash_refl|].
  rewrite sameHash_neq; [now apply IH|].
  intro E. apply Hnotin. rewrite E. now apply in_map.
Qed.

Lemma getQueryData_In cache q :
  NoDup (map queryKey cache) -> In q cache -> getQueryData (queryKey q) cache = data q.
Proof. intros Hnd Hin. unfold getQueryData. now rewrite (find_In _ _ Hnd Hin). Qed.

Lemma getQueryData_store_same (now : Z) key (d : Data) cache :
  getQueryData key (store now key d cache) = Some d.
Proof.
  unfold getQueryData.
  induction cache as [|q cache IH]; simpl.
  - now rewrite sameHash_refl.
  - destruct (sameHash (queryKey q) key) eqn:E; simpl.
    + now rewrite E.
    + now rewrite E.
Qed.

Lemma getQueryData_store_other (now : Z) key key' (d : Data) cache :
  key' <> key -> getQueryData key' (store now key d cache) = getQueryData key' cache.
Proof.
  intro Hneq. unfold getQueryData.
  induction cache as [|q cache IH]; simpl.
  - rewrite sameHash_neq; [reflexivity | congruence].
  - destruct (sameHash (queryKey q) key) eqn:E; simpl.
    + apply sameHash_eq in E. rewrite E.
      rewrite sameHash_neq; [reflexivity | congruence].
    + destruct (sameHash (queryKey q) key'); [reflexivity | exact IH].
Qed.

(** [invalidateQueries] writes no data. *)
Lemma getQueryData_invalidateQueries (filters : QueryKey) key cache :
  getQueryData key (invalidateQueries filters cache) = getQueryData key cache.
Proof.
  unfold getQueryData.
  induction cache as [|q cache IH]; simpl; [reflexivity|].
  destruct (partialMatchKey (queryKey q) filters); simpl;
    destruct (sameHash (queryKey q) key); try reflexivity; exact IH.
Qed.

(** What [setQueriesData] does when the updater throws on none of the
    queries it visits: each of them holds what the updater returned, or
    what it held when the updater returned [undefined]; the other queries
    hold what they held. *)
Lemma setEach_no_throw (now : Z) (updater : option Data -> Exn + option Data)
  (keys : list QueryKey) :
  NoDup keys ->
  forall cache,
    (forall key, In key keys -> exists o, updater (getQueryData key cache) = inr o) ->
    exists cache',
      setEach now keys updater cache = (cache', None)
      /\ (forall key, In key keys ->
            getQueryData key cache'
            = match updater (getQueryData key cache) with
              | inr (Some d) => Some d
              | _ => getQueryData key cache
              end)
      /\ (forall key, ~ In key keys -> getQueryData key cache' = getQueryData key cache).
Proof.
  induction 1 as [|k keys Hnotin Hnd IH]; intros cache Hok.
  - exists cache. simpl. split; [reflexivity|]. split; intros; [contradiction | reflexivity].
  - destruct (Hok k (or_introl eq_refl)) as (o & Ho).
    simpl. unfold setQueryData. rewrite Ho.
    set (cache1 := match o with Some d => store now k d cache | None => cache end).
    assert (Hother : forall key, key <> k ->
                                 getQueryData key cache1 = getQueryData key cache).
    { intros key Hneq. unfold cache1. destruct o; [|reflexivity].
      now apply getQueryData_store_other. }
    assert (Hsame : getQueryData k cache1
                    = match o with Some d => Some d | None => getQueryData k cache end).
    { unfold cache1. destruct o; [|reflexivity]. apply getQueryData_store_same. }
    destruct (IH cache1) as (cache' & Hrun & Hin & Hout).
    { intros key Hkey. rewrite Hother; [|intros ->; contradiction].
      apply Hok. now right. }
    exists cache'. split; [|split].
    + destruct o; exact Hrun.
    + intros key [<-|Hkey].
      * rewrite (Hout k Hnotin), Ho. exact Hsame.
      * rewrite (Hin key Hkey), Hother; [reflexivity|].
        intros ->. contradiction.
    + intros key Hkey.
      rewrite Hout; [|intro; apply Hkey; now right].
      apply Hother. intros ->. apply Hkey. now left.
Qed.

Lemma NoDup_findAll (filters : QueryKey) cache :
  NoDup (map queryKey cache) -> NoDup (map queryKey (findAll filters cache)).
Proof.
  unfold findAll. induction cache as [|q cache IH]; simpl; intro Hnd; [constructor|].
  inversion Hnd as [|? ? Hnotin Hnd']; subst.
  destruct (partialMatchKey (queryKey q) filters); simpl; [|now apply IH].
  constructor; [|now apply IH].
  intro Hin. apply Hnotin. apply in_map_iff in Hin as (q' & Hq' & Hin).
  apply filter_In in Hin as (Hin & _). rewrite <- Hq'. now apply in_map.
Qed.

(** Writing back a snapshot: every key snapshotted with data holds that
    data again; the keys snapshotted without data, and the keys that are
    not in the snapshot, hold what they held before the write-back. *)
Lemma restore_snapshot (now : Z) (snapshot : list (QueryKey * option Data)) :
  NoDup (map fst snapshot) ->
  forall cache,
    let cache' := fold_left (fun c '(key, d) => setQueryDataValue now key d c)
                            snapshot cache in
    (forall key d, In (key, Some d) snapshot -> getQueryData key cache' = Some d)
    /\ (forall key, ~ In key (map fst (filter (fun e => match snd e with
                                                        | Some _ => true
                                                        | None => false
                                                        end) snapshot)) ->
                    getQueryData key cache' = getQueryData key cache).
Proof.
  induction snapshot as [|[k o] snapshot IH]; simpl; intros Hnd cache.
  - split; [contradiction | reflexivity].
  - inversion Hnd as [|? ? Hnotin Hnd']; subst.
    destruct (IH Hnd' (setQueryDataValue now k o cache)) as (Hin & Hout).
    split.
    + intros key d [[= -> ->]|Hkey]; [|now apply Hin].
      rewrite Hout.
      * apply getQueryData_store_same.
      * intro Hk. apply Hnotin. apply in_map_iff in Hk as (e & <- & He).
        apply filter_In in He as (He & _). now apply in_map.
    + intros key Hkey. rewrite Hout.
      * destruct o as [d|]; [|reflexivity].
        apply getQueryData_store_other. intros ->. apply Hkey. simpl. now left.
      * intro Hk. apply Hkey. destruct o; simpl; [now right | exact Hk].
Qed.

End Cache.

End QueryClientFacts.

(* ------------------------------------------------------------------ *)
(** ** The optimistic mutations                                        *)
(* ------------------------------------------------------------------ *)

Module OptimisationFacts.
Import Js Double QueryClient Api Optimisations DoubleFacts QueryClientFacts.



(** *** The acknowledge mutation on a cache of responses *)

Lemma NoDup_key_inj {Data} (cache : Cache Data) (q q' : Query Data) :
  NoDup (map queryKey cache) -> In q cache -> In q' cache ->
  queryKey q = queryKey q' -> q = q'.
Proof.
  induction cache as [|x cache IH]; simpl; intros Hnd Hq Hq' E; [contradiction|].
  inversion Hnd as [|? ? Hnotin Hnd']; subst.
  destruct Hq as [->|Hq], Hq' as [->|Hq']; trivial.
  - exfalso. apply Hnotin. rewrite E. now apply in_map.
  - exfalso. apply Hnotin. rewrite <- E. now apply in_map.
  - now apply IH.
Qed.

Lemma In_findAll {Data} (filters : QueryKey) (cache : Cache Data) (key : QueryKey) :
  In key (map queryKey (findAll filters cache)) <->
  exists q, In q cache /\ partialMatchKey (queryKey q) filters = true /\ queryKey q = key.
Proof.
  unfold findAll. rewrite in_map_iff. split.
  - intros (q & E & Hq). apply filter_In in Hq as (Hq & Hm). eauto.
  - intros (q & Hq & Hm & E). exists q. split; [exact E|]. now apply filter_In.
Qed.

(** [onMutate] on a cache of responses: it does not throw, the snapshot is
    the data of the matching queries, every matching response is
    transformed and nothing else is written. *)
Lemma onMutate_responses (clock : Clock)
  (transform : OptimisationResponse -> OptimisationResponse) (cache : Cache CachedData) :
  NoDup (map queryKey cache) ->
  responsesUnderOptimisations cache ->
  exists cache1,
    onMutateWith clock transform cache
    = (cache1, inr {| previousData := getQueriesData [K "optimisations"] cache |})
    /\ (forall q, In q cache ->
          partialMatchKey (queryKey q) [K "optimisations"] = true ->
          getQueryData (queryKey q) cache1
          = match data q with
            | Some (Response r) => Some (Response (transform r))
            | other => other
            end)
    /\ (forall q, In q cache ->
          partialMatchKey (queryKey q) [K "optimisations"] = false ->
          getQueryData (queryKey q) cache1 = data q).
Proof.
  intros Hnd Hresp. unfold onMutateWith, setQueriesData.
  destruct (setEach_no_throw (mutateAt clock) (updaterOf transform)
              (map queryKey (findAll [K "optimisations"] cache))
              (NoDup_findAll _ _ Hnd) cache) as (cache1 & Hrun & Hin & Hout).
  { intros key Hkey. apply In_findAll in Hkey as (q & Hq & Hm & <-).
    rewrite (getQueryData_In _ _ Hnd Hq).
    destruct (Hresp q Hq Hm) as [->|(r & ->)]; simpl; eauto. }
  exists cache1. rewrite Hrun. split; [reflexivity|]. split.
  - intros q Hq Hm. rewrite Hin; [|apply In_findAll; eauto].
    rewrite (getQueryData_In _ _ Hnd Hq).
    destruct (Hresp q Hq Hm) as [->|(r & ->)]; reflexivity.
  - intros q Hq Hm. rewrite Hout; [now apply getQueryData_In|].
    intro Hkey. apply In_findAll in Hkey as (q' & Hq' & Hm' & E).
    rewrite (NoDup_key_inj _ _ _ Hnd Hq' Hq E) in Hm'. congruence.
Qed.

Lemma acknowledgeTransform_shows (nowISO target : string) (r : OptimisationResponse) :
  showsAcknowledged target (Some (Response (acknowledgeTransform nowISO target r))).
Proof.
  simpl. intros opt Hopt Hid.
  apply in_map_iff in Hopt as (o & <- & _).
  destruct (String.eqb (id o) target) eqn:E; [reflexivity|].
  apply String.eqb_neq in E. contradiction.
Qed.

(** On a cache of responses the first half of C3 holds: while the request
    is in flight every query under ['optimisations'] shows the target
    acknowledged. *)
Lemma acknowledge_in_flight_on_responses (clock : Clock) (update : OptimisationActionUpdate)
  (cache : Cache CachedData) (q : Query CachedData) :
  NoDup (map queryKey cache) ->
  responsesUnderOptimisations cache ->
  In q cache ->
  partialMatchKey (queryKey q) [K "optimisations"] = true ->
  showsAcknowledged (update_id update)
    (getQueryData (queryKey q) (inFlight (useAcknowledgeOptimisation clock) update cache)).
Proof.
  intros Hnd Hresp Hq Hm. unfold inFlight. simpl.
  destruct (onMutate_responses clock
              (acknowledgeTransform (mutateAtISO clock) (update_id update)) cache Hnd Hresp)
    as (cache1 & Hrun & Hin & _).
  rewrite Hrun. simpl. rewrite (Hin q Hq Hm).
  destruct (Hresp q Hq Hm) as [->|(r & ->)]; [exact I|].
  apply acknowledgeTransform_shows.
Qed.

Lemma snapshot_keys {Data} (filters : QueryKey) (cache : Cache Data) :
  map fst (getQueriesData filters cache) = map queryKey (findAll filters cache).
Proof. unfold getQueriesData. rewrite map_map. reflexivity. Qed.

(** On a cache of responses the second half of C3 holds: when the request
    fails, every query holds the data it held before the mutation and the
    error is the outcome of the mutation. *)
Lemma acknowledge_rollback_on_responses (clock : Clock) (update : OptimisationActionUpdate)
  (cache : Cache CachedData) (e : Thrown) :
  NoDup (map queryKey cache) ->
  responsesUnderOptimisations cache ->
  exists cache',
    acknowledgeMutation clock update (inl e) cache = (cache', inl e)
    /\ forall q, In q cache -> getQueryData (queryKey q) cache' = data q.
Proof.
  intros Hnd Hresp. unfold acknowledgeMutation, execute. simpl onMutate.
  destruct (onMutate_responses clock
              (acknowledgeTransform (mutateAtISO clock) (update_id update)) cache Hnd Hresp)
    as (cache1 & Hrun & Hin & Hout).
  rewrite Hrun. eexists. split; [reflexivity|].
  intros q Hq. simpl. rewrite getQueryData_invalidateQueries.
  destruct (restore_snapshot (errorAt clock) (getQueriesData [K "optimisations"] cache))
    with (cache := cache1) as (Hback & Hkept).
  { rewrite snapshot_keys. now apply NoDup_findAll. }
  destruct (partialMatchKey (queryKey q) [K "optimisations"]) eqn:Hm.
  - destruct (data q) as [d|] eqn:Hd.
    + apply Hback.
      unfold getQueriesData. apply in_map_iff. exists q.
      split; [now rewrite Hd|]. now apply filter_In.
    + rewrite Hkept.
      * rewrite (Hin q Hq Hm), Hd. reflexivity.
      * intro Hk. apply in_map_iff in Hk as ([k o] & Ek & Hk). simpl in Ek. subst k.
        apply filter_In in Hk as (Hk & Ho). simpl in Ho.
        unfold getQueriesData in Hk. apply in_map_iff in Hk as (q' & [= Ek Eo] & Hq').
        apply filter_In in Hq' as (Hq' & _).
        rewrite (NoDup_key_inj _ _ _ Hnd Hq' Hq Ek) in Eo.
        rewrite Hd in Eo. subst o. discriminate Ho.
  - rewrite Hkept; [now apply Hout|].
    intro Hk. apply in_map_iff in Hk as ([k o] & Ek & Hk). simpl in Ek. subst k.
    apply filter_In in Hk as (Hk & _).
    unfold getQueriesData in Hk. apply in_map_iff in Hk as (q' & [= Ek Eo] & Hq').
    apply filter_In in Hq' as (Hq' & Hm').
    rewrite (NoDup_key_inj _ _ _ Hnd Hq' Hq Ek) in Hm'. congruence.
Qed.

(** *** The acknowledge mutation on the two lists *)

(** C3 at the cache [bothLists].  The updater reads
    [old.optimisations.map] on the bare array of the high-priority list and
    throws: in flight that list still shows [opt-001] pending; [onMutate]
    has thrown after the write to the first list, so the request is never
    sent, the mutation fails with the [TypeError] whatever the transport
    would have answered, [onError] gets no context and the first list
    stays acknowledged. *)
Theorem acknowledge_breaks_on_bare_list :
  let key1 := useOptimisations_key "all" "all" "all" "all" in
  let key2 := useHighPriorityOptimisations_key in
  let during := inFlight (useAcknowledgeOptimisation clock_001) acknowledge_001 bothLists in
  getQueryData key2 during = Some (HighPriority [opt_001])
  /\ ~ showsAcknowledged "opt-001" (getQueryData key2 during)
  /\ forall network : Thrown + OptimisationAction,
       exists after,
         acknowledgeMutation clock_001 acknowledge_001 network bothLists
         = (after, inl noOptimisationsProperty)
         /\ getQueryData key1 after
            = Some (Response (acknowledgeTransform (mutateAtISO clock_001) "opt-001"
                                                   response_001))
         /\ getQueryData key1 after <> getQueryData key1 bothLists.
Proof.
  intros key1 key2 during.
  assert (Hduring : getQueryData key2 during = Some (HighPriority [opt_001]))
    by (vm_compute; reflexivity).
  split; [exact Hduring|].
  split.
  - rewrite Hduring. simpl. intro H.
    specialize (H opt_001 (or_introl eq_refl) eq_refl). discriminate H.
  - intro network. eexists.
    split; [vm_compute; reflexivity|].
    split; [vm_compute; reflexivity|].
    intro E. vm_compute in E. discriminate E.
Qed.

(** The same mutation on [responsesOnly], where the request fails with a
    server error: the list shows [opt-001] acknowledged in flight and holds
    its old data after the failure. *)
Example acknowledge_on_responsesOnly :
  let key1 := useOptimisations_key "all" "all" "all" "all" in
  showsAcknowledged "opt-001"
    (getQueryData key1
       (inFlight (useAcknowledgeOptimisation clock_001) acknowledge_001 responsesOnly))
  /\ exists after,
       acknowledgeMutation clock_001 acknowledge_001 (inl serverError) responsesOnly
       = (after, inl serverError)
       /\ getQueryData key1 after = Some (Response response_001).
Proof.
  split.
  - apply (acknowledge_in_flight_on_responses clock_001 acknowledge_001 responsesOnly
             (nth 0 responsesOnly
                  {| queryKey := []; data := None; dataUpdatedAt := 0;
                     isInvalidated := false |})).
    + repeat constructor; simpl; intuition discriminate.
    + intros q [<-|[<-|[]]] _; simpl; eauto.
    + left. reflexivity.
    + reflexivity.
  - eexists. split; vm_compute; reflexivity.
Qed.

(** *** The counters of a cached response *)







End OptimisationFacts.

(* ------------------------------------------------------------------ *)
(** ** Push events                                                     *)
(* ------------------------------------------------------------------ *)

Module WebSocketFacts.
Import Js QueryClient WebSocketEvents QueryClientFacts.

Section Marking.
Context {Data : Type}.
Implicit Types (cache : Cache Data) (q : Query Data).

Lemma invalidateQueries_mark (filters : QueryKey) cache :
  invalidateQueries filters cache = mark (fun key => partialMatchKey key filters) cache.
Proof. reflexivity. Qed.

Lemma mark_ext (p p' : QueryKey -> bool) cache :
  (forall key, p key = p' key) -> mark p cache = mark p' cache.
Proof. intro H. apply map_ext. intro q. now rewrite H. Qed.

Lemma mark_mark (p1 p2 : QueryKey -> bool) cache :
  mark p2 (mark p1 cache) = mark (fun key => p1 key || p2 key) cache.
Proof.
  unfold mark. rewrite map_map. apply map_ext. intro q.
  destruct (p1 (queryKey q)) eqn:E1; simpl.
  - destruct (p2 (queryKey q)); reflexivity.
  - reflexivity.
Qed.

Lemma invalidateByAssets_mark (assets : list string) :
  forall (p : QueryKey -> bool) cache,
    invalidateByAssets (Some assets) (mark p cache)
    = mark (fun key =>
              p key || existsb (fun asset =>
                                  partialMatchKey key [K "summary"; K "asset"; K asset]
                                  || partialMatchKey key [K "optimisations"; K "asset"; K asset])
                               assets) cache.
Proof.
  induction assets as [|asset assets IH]; intros p cache; simpl.
  - apply mark_ext. intro key. now rewrite orb_false_r.
  - rewrite !invalidateQueries_mark, !mark_mark.
    change (fold_left _ assets ?c) with (invalidateByAssets (Some assets) c).
    rewrite IH. apply mark_ext. intro key.
    now rewrite <- !orb_assoc.
Qed.

Lemma nth_error_mark (p : QueryKey -> bool) cache (i : nat) q :
  nth_error cache i = Some q ->
  nth_error (mark p cache) i = Some (if p (queryKey q) then invalidate q else q).
Proof. intro H. unfold mark. now rewrite nth_error_map, H. Qed.

End Marking.

Lemma handleEvent_system_alert {Data} (event : OptimisationEvent) (cache : Cache Data) :
  type event = "system_alert" ->
  handleEvent event cache
  = mark (fun key =>
            (partialMatchKey key [K "alerts"] || partialMatchKey key [K "summary"])
            || existsb (fun asset =>
                          partialMatchKey key [K "summary"; K "asset"; K asset]
                          || partialMatchKey key [K "optimisations"; K "asset"; K asset])
                       (assetsOf event)) cache.
Proof.
  intro Htype. unfold handleEvent, invalidateByType, assetsOf. rewrite Htype. simpl.
  rewrite !invalidateQueries_mark, mark_mark.
  destruct (affectedAssets event) as [assets|].
  - apply invalidateByAssets_mark.
  - simpl. apply mark_ext. intro key. now rewrite orb_false_r.
Qed.

Lemma existsb_pointwise {A} (f g : A -> bool) (l : list A) :
  (forall x, f x = g x) -> existsb f l = existsb g l.
Proof. intro H. induction l as [|x l IH]; simpl; [reflexivity | now rewrite H, IH]. Qed.

Lemma under_optimisations (key : QueryKey) (asset : string) :
  partialMatchKey key [K "optimisations"] = true ->
  partialMatchKey key [K "alerts"] = false
  /\ partialMatchKey key [K "summary"] = false
  /\ partialMatchKey key [K "summary"; K "asset"; K asset] = false.
Proof.
  intro H. apply partialMatchKey_kind in H as (rest & ->). repeat split.
Qed.

(** C9, as the code has it.  A [system_alert] event invalidates every
    query under ['alerts'] and under ['summary'] and writes no data; a
    query under ['optimisations'] is invalidated exactly when its key is
    under ['optimisations', 'asset', a] for an asset [a] the event lists in
    [affectedAssets], and keeps its staleness otherwise, in particular when
    the event lists no asset. *)
Theorem system_alert_invalidation {Data} (event : OptimisationEvent)
  (cache : Cache Data) (i : nat) (q : Query Data) :
  type event = "system_alert" ->
  nth_error cache i = Some q ->
  exists q',
    nth_error (handleEvent event cache) i = Some q'
    /\ queryKey q' = queryKey q
    /\ QueryClient.data q' = QueryClient.data q
    /\ dataUpdatedAt q' = dataUpdatedAt q
    /\ (partialMatchKey (queryKey q) [K "alerts"] = true -> isInvalidated q' = true)
    /\ (partialMatchKey (queryKey q) [K "summary"] = true -> isInvalidated q' = true)
    /\ (partialMatchKey (queryKey q) [K "optimisations"] = true ->
        isInvalidated q'
        = isInvalidated q
          || existsb (fun asset =>
                        partialMatchKey (queryKey q) [K "optimisations"; K "asset"; K asset])
                     (assetsOf event)).
Proof.
  intros Htype Hq. rewrite (handleEvent_system_alert _ _ Htype).
  match goal with |- context [mark ?P cache] => set (p := P) end.
  exists (if p (queryKey q) then invalidate q else q).
  split; [apply (nth_error_mark _ _ _ _ Hq)|].
  split; [destruct (p (queryKey q)); reflexivity|].
  split; [destruct (p (queryKey q)); reflexivity|].
  split; [destruct (p (queryKey q)); reflexivity|].
  split; [|split].
  - intro H. unfold p. rewrite H. reflexivity.
  - intro H. unfold p. rewrite H, orb_true_r. reflexivity.
  - intro H.
    assert (Hp : p (queryKey q)
                 = existsb (fun asset =>
                              partialMatchKey (queryKey q)
                                [K "optimisations"; K "asset"; K asset])
                           (assetsOf event)).
    { unfold p.
      destruct (under_optimisations _ EmptyString H) as (-> & -> & _). cbn [orb].
      apply existsb_pointwise. intro asset.
      now destruct (under_optimisations _ asset H) as (_ & _ & ->). }
    rewrite Hp.
    destruct (existsb _ (assetsOf event)); simpl;
      [now rewrite orb_true_r | now rewrite orb_false_r].
Qed.

(** The alert for the west asset: the alerts query is invalidated, the
    unfiltered optimisations keep their staleness. *)
Lemma system_alert_invalidation_witness :
  exists q',
    nth_error (handleEvent westAlert westCache) 1 = Some q'
    /\ isInvalidated q' = false
    /\ exists a',
         nth_error (handleEvent westAlert westCache) 2 = Some a'
         /\ isInvalidated a' = true.
Proof.
  destruct (system_alert_invalidation westAlert westCache 1 allOptimisations
              eq_refl eq_refl)
    as (q' & Hq' & _ & _ & _ & _ & _ & Hopt).
  exists q'. split; [exact Hq'|].
  split; [rewrite Hopt; reflexivity|].
  eexists. split; reflexivity.
Defined.

(** C9 as stated fails: the alert names the west asset and no optimisation,
    and the optimisations of the west asset, fresh before the event, are
    invalidated by it. *)
Lemma system_alert_invalidates_asset_optimisations :
  type westAlert = "system_alert"
  /\ at_path ["optimisationIds"] (data westAlert) = None
  /\ map isInvalidated westCache = [false; false; false]
  /\ map isInvalidated (handleEvent westAlert westCache) = [true; false; true]
  /\ map queryKey westCache
     = [[K "optimisations"; K "asset"; K "west"; KObject [("stream", SString "all")]];
        [K "optimisations";
         KObject [("asset", SString "all"); ("priority", SString "all");
                  ("status", SString "all"); ("stream", SString "all")]];
        [K "alerts"; KObject [("role", SString "all")]]].
Proof. repeat split. Qed.

(** The switch has no case for the type [constraint_alert] that the
    WebSocket mock emits: such an event that lists no asset invalidates
    nothing. *)
Example constraint_alert_has_no_case :
  let event := {| id := "constraint-1"; type := "constraint_alert";
                  timestamp := "2025-01-02T00:00:00.000Z";
                  data := JObj [("nodeId", JStr "well-001")];
                  priority := "high"; affectedAssets := None; message := None |} in
  handleEvent event westCache = westCache.
Proof. reflexivity. Qed.

End WebSocketFacts.

(* ------------------------------------------------------------------ *)
(** ** Retry policies                                                  *)
(* ------------------------------------------------------------------ *)

Module RetryFacts.
Import Js Api Retry.








End RetryFacts.

(* ------------------------------------------------------------------ *)
(** * The transport and the gap driver contract                        *)
(* ------------------------------------------------------------------ *)

Module TransportFacts.
Import Js Zod GapDrivers Transport ZodFacts.

Lemma StreamTypeSchema_names (streams : list StreamType) (i : nat) :
  each StreamTypeSchema i (map (fun s => JStr (StreamType_name s)) streams)
  = Success streams.
Proof.
  revert i. induction streams as [|s rest IH]; intro i; [reflexivity|].
  cbn [map each]. rewrite IH. now destruct s.
Qed.

(** A driver written by the handler is read back by the schema as the
    same driver. *)
Lemma GapDriverSchema_toJs (stamps : GapDriver -> Stamps) (d : GapDriver) :
  GapDriverSchema (Some (GapDriver_toJs stamps d)) = Success (parsedOf stamps d).
Proof.
  unfold GapDriverSchema, GapDriver_toJs, parsedOf, object, prop.
  cbn [field assoc String.eqb Ascii.eqb Bool.eqb string_ number_ under bind default
       optional array].
  rewrite StreamTypeSchema_names. cbn [under bind].
  destruct d as [gid nid nname gt descr [lp iu pc] streams hours prio st].
  cbn [gap_id nodeId nodeName gapType description impact affectedStreams totalHours
       priority status lostProduction impact_unit percentage].
  now destruct gt, prio, st.
Qed.

Lemma parseRows_toJs (stamps : GapDriver -> Stamps) (drivers : list GapDriver) :
  parseRows (map (GapDriver_toJs stamps) drivers) = Validated (map (parsedOf stamps) drivers).
Proof.
  induction drivers as [|d rest IH]; [reflexivity|].
  cbn [map parseRows]. now rewrite GapDriverSchema_toJs, IH.
Qed.

Lemma parseRows_Validated (xs : list JsValue) (rows : list GapDriverParsed) :
  parseRows xs = Validated rows ->
  Forall2 (fun x row => GapDriverSchema (Some x) = Success row) xs rows.
Proof.
  revert rows. induction xs as [|x rest IH]; intros rows H.
  - injection H as <-. constructor.
  - cbn [parseRows] in H. destruct (GapDriverSchema (Some x)) as [row|] eqn:Hx; [|discriminate].
    destruct (parseRows rest) as [rows'| |]; try discriminate.
    injection H as <-. constructor; [exact Hx | now apply IH].
Qed.

Lemma parseRows_Invalid (xs : list JsValue) (x : JsValue) (issue : ZodIssue) :
  In x xs -> GapDriverSchema (Some x) = Failure issue ->
  exists first, parseRows xs = Invalid first.
Proof.
  induction xs as [|y rest IH]; intros Hin Hx; [contradiction|].
  cbn [parseRows]. destruct (GapDriverSchema (Some y)) as [row|i] eqn:Hy; [|eauto].
  destruct Hin as [->|Hin]; [congruence|].
  destruct (IH Hin Hx) as (first & ->). eauto.
Qed.

(** X5.  The answer of the gap-drivers handler passes the contract of the
    table that reads it: after the response interceptor has taken the
    list out of its envelope, [useGapDrivers] validates every driver of
    the answer and returns them all, in the order of the answer, each with
    the fields the handler wrote; this holds for every list of drivers the
    handler could send, whatever the clock readings. *)
Theorem gap_drivers_answer_is_validated (now : string) (stamps : GapDriver -> Stamps) :
  (forall drivers,
     useGapDrivers_queryFn
       (unwrap (createSecureResponse now (JArr (map (GapDriver_toJs stamps) drivers))))
     = Validated (map (parsedOf stamps) drivers))
  /\ (forall assetParam,
        useGapDrivers_queryFn (unwrap (gapDriversResponse now stamps assetParam))
        = Validated (map (parsedOf stamps) (handler assetParam))).
Proof.
  assert (H : forall drivers,
             useGapDrivers_queryFn
               (unwrap (createSecureResponse now (JArr (map (GapDriver_toJs stamps) drivers))))
             = Validated (map (parsedOf stamps) drivers)).
  { intro drivers. change (parseRows (map (GapDriver_toJs stamps) drivers)
                           = Validated (map (parsedOf stamps) drivers)).
    apply parseRows_toJs. }
  split; [exact H|]. intro assetParam. apply H.
Qed.

(** X6.  [useGapDrivers] validates all or nothing: when it returns rows,
    there is one validated row for each element of the answer, in order;
    as soon as one element fails [GapDriverSchema] the whole read fails
    with a validation error and no row is returned.  An answer without a
    list ([null]) reads as the empty list. *)
Theorem gap_driver_rows_all_or_nothing (xs : list JsValue) (x : JsValue) (issue : ZodIssue) :
  In x xs -> GapDriverSchema (Some x) = Failure issue ->
  (exists first, useGapDrivers_queryFn (JArr xs) = Invalid first)
  /\ (forall ys rows, useGapDrivers_queryFn (JArr ys) = Validated rows ->
        Forall2 (fun y row => GapDriverSchema (Some y) = Success row) ys rows)
  /\ useGapDrivers_queryFn JNull = Validated [].
Proof.
  intros Hin Hx. split; [exact (parseRows_Invalid xs x issue Hin Hx)|].
  split; [|reflexivity]. intros ys rows. apply parseRows_Validated.
Qed.

(** A driver without its [duration] after a well-formed one. *)
Lemma gap_driver_rows_all_or_nothing_witness :
  let stamps := fun _ : GapDriver =>
                  {| startedAt := "2025-01-01T00:00:00.000Z";
                     updatedAt := "2025-01-02T00:00:00.000Z" |} in
  let bad := JObj [("id", JStr "gap-1"); ("nodeId", JStr "flowstation-001")] in
  exists first,
    useGapDrivers_queryFn (JArr (map (GapDriver_toJs stamps) (handler None) ++ [bad]))
    = Invalid first.
Proof.
  intros stamps bad.
  eapply (gap_driver_rows_all_or_nothing _ bad).
  - apply in_or_app. right. left. reflexivity.
  - vm_compute. reflexivity.
Defined.

End TransportFacts.

(* ------------------------------------------------------------------ *)
(** * More on the schemas                                              *)
(* ------------------------------------------------------------------ *)

Module SchemaExtras.
Import Js Zod Schemas SummarySchemas Hierarchy JsFacts ZodFacts SchemaFacts.

Lemma NetworkMetricsSchema_checked (v : JsValue) (m : NetworkMetrics) :
  NetworkMetricsSchema (Some v) = Success m -> nonNegative (checkedNumbers m).
Proof.
  intro H. apply object_Success in H as (fs & Hv & H).
  injection Hv as ->. zod_steps H. injection H as <-.
  unfold nonNegative, checkedNumbers. cbn.
  repeat constructor; eapply nonnegative_default_0_spec; eassumption.
Qed.

Lemma default_checked : nonNegative (checkedNumbers DEFAULT_FLARED_GAS_METRICS).
Proof. unfold nonNegative. cbn. repeat constructor; apply Qle_refl. Qed.

(** Every network of a networks object that went through the flared-gas
    transform holds checked numbers. *)
Lemma withFlaredGas_checked (v : JsValue) (raw : Networks) (key : NetworkKey)
  (m : NetworkMetrics) :
  networksObject (Some v) = Success raw ->
  network key (withFlaredGas raw) = Some m ->
  nonNegative (checkedNumbers m).
Proof.
  intros Hraw Hm.
  pose proof (networksObject_network _ _ key Hraw) as Hkey.
  destruct key; cbn [network] in Hkey; simpl in Hm;
    try (rewrite Hm in Hkey; apply optional_Some in Hkey as (x & _ & Hp);
         now apply (NetworkMetricsSchema_checked x)).
  rewrite spreadOverDefault_id in Hm.
  destruct (flaredGas raw) as [fm|]; injection Hm as <-.
  - apply optional_Some in Hkey as (x & _ & Hp). now apply (NetworkMetricsSchema_checked x).
  - apply default_checked.
Qed.

Lemma TopologyFacilitySchema_networks (jf : JsValue) (f : TopologyFacility) :
  TopologyFacilitySchema (Some jf) = Success f ->
  exists raw,
    networksObject (Some (sourceNetworks jf)) = Success raw
    /\ tf_networks f = withFlaredGas raw.
Proof.
  intro H. apply object_Success in H as (fs & Hv & H).
  injection Hv as ->. zod_steps H. injection H as <-. simpl.
  unfold sourceNetworks. unfold default in P4.
  destruct (field "networks" (JObj fs)) as [x|];
    apply networks_Success in P4 as (raw & Hraw & ->); eauto.
Qed.

(** Every metrics entry of an accepted topology payload holds
    non-negative numbers. *)
Lemma flow_metrics_are_non_negative (payload : JsValue) (flow : ProductionFlow)
  (f : TopologyFacility) (key : NetworkKey) (m : NetworkMetrics) :
  ProductionFlowSchema (Some payload) = Success flow ->
  In f (flow_facilities flow) -> network key (tf_networks f) = Some m ->
  nonNegative (checkedNumbers m).
Proof.
  intros Hflow Hf Hm.
  pose proof (ProductionFlowSchema_facilities _ _ Hflow) as Hall.
  destruct (Forall2_In_r _ _ _ Hall f Hf) as (jf & _ & Hjf).
  destruct (TopologyFacilitySchema_networks _ _ Hjf) as (raw & Hraw & Hn).
  rewrite Hn in Hm. exact (withFlaredGas_checked _ _ _ _ Hraw Hm).
Qed.

(** X1.  Every metrics entry of an accepted hierarchy payload holds
    non-negative numbers: the max capacity, business target, current
    production and deferment of every network of every production unit
    and of every facility that [useAssets] returns are at least 0,
    whether the entry was supplied by the feed or filled in by a
    default. *)
Theorem accepted_metrics_are_non_negative
  (payload : JsValue) (r : AssetsResponse) (a : AssetItem) (u : ProductionUnit) :
  useAssets_queryFn payload = Success r ->
  In a (assets r) -> In u (productionUnits a) ->
  (forall key m, network key (unit_networks u) = Some m ->
     nonNegative (checkedNumbers m))
  /\ (forall f key m, In f (facilities u) -> network key (fac_networks f) = Some m ->
       nonNegative (checkedNumbers m)).
Proof.
  intros Hr Ha Hu. split.
  - intros key m Hm.
    destruct (parsed_unit_source _ _ _ _ Hr Ha Hu) as (ju & _ & Hju).
    destruct (ProductionUnitSchema_networks _ _ Hju) as (raw & Hraw & Hn).
    rewrite Hn in Hm. exact (withFlaredGas_checked _ _ _ _ Hraw Hm).
  - intros f key m Hf Hm.
    destruct (parsed_facility_source _ _ _ _ _ Hr Ha Hu Hf) as (jf & _ & Hjf).
    destruct (FacilityRefSchema_networks _ _ Hjf) as (raw & Hraw & Hn).
    rewrite Hn in Hm. exact (withFlaredGas_checked _ _ _ _ Hraw Hm).
Qed.

(** The oil entry of flowstation-001 in the example payload. *)
Lemma accepted_metrics_are_non_negative_witness :
  nonNegative (checkedNumbers oil_001).
Proof.
  eapply (accepted_metrics_are_non_negative examplePayload).
  - vm_compute. reflexivity.
  - simpl. left. reflexivity.
  - simpl. left. reflexivity.
  - simpl. left. reflexivity.
  - instantiate (1 := k_oil). reflexivity.
Defined.

Lemma nonnegative_number (x : number) :
  nonnegative number_ (Some (JNum x)) = (if Qltb x 0 then fail too_small else Success x).
Proof. reflexivity. Qed.

Lemma NetworkMetricsSchema_toJs (m : NetworkMetrics) :
  nonNegative (checkedNumbers m) ->
  NetworkMetricsSchema (Some (NetworkMetrics_toJs m)) = Success m.
Proof.
  intro H. destruct m as [mc bt cp df un tr ch].
  unfold nonNegative, checkedNumbers in H. cbn in H.
  inversion H as [|? ? Hmc H1]; subst. inversion H1 as [|? ? Hbt H2]; subst.
  inversion H2 as [|? ? Hcp H3]; subst. inversion H3 as [|? ? Hdf _]; subst.
  apply Qltb_ge in Hmc, Hbt, Hcp, Hdf.
  unfold NetworkMetricsSchema, NetworkMetrics_toJs, object, prop, nonnegative_default_0.
  cbn [field assoc String.eqb Ascii.eqb Bool.eqb default Schemas.maxCapacity
       Schemas.businessTarget Schemas.currentProduction Schemas.deferment Schemas.unit
       Schemas.trend Schemas.changePercent].
  rewrite !nonnegative_number, Hmc, Hbt, Hcp, Hdf.
  now destruct tr.
Qed.

(** X2.  Validation of a metrics entry is idempotent: the entry that
    [NetworkMetricsSchema] returns for any input is accepted again and
    returned unchanged, so data that was validated once can be validated
    again anywhere.  An entry passes exactly when its four checked numbers
    are non-negative. *)
Theorem validated_metrics_revalidate (v : JsValue) (m : NetworkMetrics) :
  NetworkMetricsSchema (Some v) = Success m ->
  NetworkMetricsSchema (Some (NetworkMetrics_toJs m)) = Success m
  /\ (forall m' : NetworkMetrics,
        nonNegative (checkedNumbers m')
        <-> NetworkMetricsSchema (Some (NetworkMetrics_toJs m')) = Success m').
Proof.
  intro H. split.
  - apply NetworkMetricsSchema_toJs. now apply (NetworkMetricsSchema_checked v).
  - intro m'. split.
    + apply NetworkMetricsSchema_toJs.
    + apply NetworkMetricsSchema_checked.
Qed.

(** An entry that supplies only its production is completed by the
    defaults and then validates to itself. *)
Lemma validated_metrics_revalidate_witness :
  let m := {| Schemas.maxCapacity := 0; Schemas.businessTarget := 0;
              Schemas.currentProduction := 3800; Schemas.deferment := 0;
              Schemas.unit := "bbl/d"; Schemas.trend := stable;
              Schemas.changePercent := 0 |} in
  NetworkMetricsSchema (Some (JObj [("currentProduction", JNum 3800)])) = Success m
  /\ NetworkMetricsSchema (Some (NetworkMetrics_toJs m)) = Success m.
Proof.
  intro m. split; [reflexivity|].
  destruct (validated_metrics_revalidate (JObj [("currentProduction", JNum 3800)]) m)
    as [H _]; [reflexivity | exact H].
Defined.

Lemma Forall2_map {A B C} (R : A -> B -> Prop) (g : A -> C) (h : B -> C)
  (xs : list A) (ys : list B) :
  (forall x y, R x y -> g x = h y) -> Forall2 R xs ys -> map g xs = map h ys.
Proof.
  intros Hgh H. induction H as [|x y xs ys Hxy _ IH]; [reflexivity|].
  cbn [map]. now rewrite (Hgh x y Hxy), IH.
Qed.

Lemma string_Success (v : option JsValue) (s : string) :
  string_ v = Success s -> v = Some (JStr s).
Proof.
  destruct v as [[ | | |x| | ]|]; simpl; try discriminate.
  intro H. now injection H as ->.
Qed.

Lemma FacilityRefSchema_id (jf : JsValue) (f : FacilityRef) :
  FacilityRefSchema (Some jf) = Success f -> idOf jf = Some (fac_id f).
Proof.
  intro H. apply object_Success in H as (fs & Hv & H).
  injection Hv as ->. zod_steps H. injection H as <-. simpl.
  unfold idOf. now rewrite (string_Success _ _ P).
Qed.

Lemma ProductionUnitSchema_id (ju : JsValue) (u : ProductionUnit) :
  ProductionUnitSchema (Some ju) = Success u -> idOf ju = Some (unit_id u).
Proof.
  intro H. apply object_Success in H as (fs & Hv & H).
  injection Hv as ->. zod_steps H. injection H as <-. simpl.
  unfold idOf. now rewrite (string_Success _ _ P).
Qed.

(** X3.  Validation keeps the shape of the hierarchy: the response that
    [useAssets] returns has the assets of the payload in the same order,
    each with its production units in the same order and under the same
    ids, each unit with its facilities in the same order and under the
    same ids.  Nothing is dropped, added, merged or reordered. *)
Theorem validation_keeps_the_hierarchy (payload : JsValue) (r : AssetsResponse) :
  useAssets_queryFn payload = Success r ->
  parsedShape r = sourceShape payload.
Proof.
  intro Hr. unfold parsedShape, sourceShape. symmetry.
  refine (Forall2_map _ _ _ _ _ _ (AssetsResponseSchema_assets _ _ Hr)).
  intros ja a Ha. unfold sourceUnits, parsedUnits.
  refine (Forall2_map _ _ _ _ _ _ (AssetItemSchema_units _ _ Ha)).
  intros ju u Hu. cbv beta.
  rewrite (ProductionUnitSchema_id _ _ Hu). f_equal.
  refine (Forall2_map _ _ _ _ _ _ (ProductionUnitSchema_facilities _ _ Hu)).
  intros jf f Hf. cbv beta. exact (FacilityRefSchema_id _ _ Hf).
Qed.

(** The example payload: one asset, one unit, its two facilities. *)
Lemma validation_keeps_the_hierarchy_witness :
  exists r,
    useAssets_queryFn examplePayload = Success r
    /\ parsedShape r = sourceShape examplePayload
    /\ parsedShape r
       = [[(Some "east-production-unit-01",
            [Some "flowstation-001"; Some "terminal-001"])]].
Proof.
  eexists. split; [vm_compute; reflexivity|]. split.
  - apply (validation_keeps_the_hierarchy examplePayload). vm_compute. reflexivity.
  - vm_compute. reflexivity.
Defined.

Lemma AssetSchema_networks (ja : JsValue) (a : Asset) :
  AssetSchema (Some ja) = Success a ->
  nonNegative (checkedAssetNumbers a)
  /\ exists raw,
       networksObject (Some (sourceNetworks ja)) = Success raw
       /\ networks a = withFlaredGas raw.
Proof.
  intro H. apply object_Success in H as (fs & Hv & H).
  injection Hv as ->. zod_steps H. injection H as <-. split.
  - unfold nonNegative, checkedAssetNumbers. cbn.
    repeat constructor; eapply nonnegative_default_0_spec; eassumption.
  - cbn [networks]. unfold sourceNetworks.
    assert (Hn : transform networksObject withFlaredGas
                   (Some (match field "networks" (JObj fs) with
                          | Some x => x
                          | None => defaultNetworks
                          end)) = Success v6).
    { unfold default in P6. now destruct (field "networks" (JObj fs)). }
    unfold transform in Hn. apply bind_Success in Hn as (raw & Hraw & Hn).
    injection Hn as <-. eauto.
Qed.

Lemma SummaryKpiSchema_assets (payload : JsValue) (k : SummaryKpi) :
  useSummary_queryFn payload = Success k ->
  exists je jw,
    at_path ["assets"; "east"] payload = Some je
    /\ at_path ["assets"; "west"] payload = Some jw
    /\ AssetSchema (Some je) = Success (east_asset k)
    /\ AssetSchema (Some jw) = Success (west_asset k).
Proof.
  unfold useSummary_queryFn, SummaryKpiSchema. intro H.
  apply object_Success in H as (fs & Hv & H).
  injection Hv as ->. zod_steps H. injection H as <-.
  apply object_Success in P0 as (fa & Hfa & P0). zod_steps P0. injection P0 as <-.
  cbn [east_asset west_asset fst snd at_path]. rewrite Hfa.
  pose proof P2 as He. pose proof P3 as Hw.
  apply object_Success in He as (fe & He & _).
  apply object_Success in Hw as (fw & Hw & _).
  exists (JObj fe), (JObj fw). rewrite He, Hw in *. auto.
Qed.

(** X4.  Every asset of an accepted summary carries a flared-gas entry:
    in what [useSummary] returns, the east and the west asset each have
    [networks.flaredGas], which is the default entry (all zero, mcf/d)
    when the payload has no [networks] or no [flaredGas] for that asset;
    their production, capacity and unit counts and every number of every
    network entry are non-negative. *)
Theorem summary_assets_have_flared_gas (payload : JsValue) (k : SummaryKpi) :
  useSummary_queryFn payload = Success k ->
  forall side a,
    (side = "east" /\ a = east_asset k) \/ (side = "west" /\ a = west_asset k) ->
    (exists m, flaredGas (networks a) = Some m)
    /\ (forall ja, at_path ["assets"; side] payload = Some ja ->
         at_path ["networks"; "flaredGas"] ja = None ->
         flaredGas (networks a) = Some DEFAULT_FLARED_GAS_METRICS)
    /\ nonNegative (checkedAssetNumbers a)
    /\ (forall key m, network key (networks a) = Some m -> nonNegative (checkedNumbers m)).
Proof.
  intros Hk side a Hside.
  destruct (SummaryKpiSchema_assets _ _ Hk) as (je & jw & Hje & Hjw & He & Hw).
  assert (Ha : exists ja, at_path ["assets"; side] payload = Some ja
                          /\ AssetSchema (Some ja) = Success a).
  { destruct Hside as [[-> ->]|[-> ->]]; eauto. }
  destruct Ha as (ja & Hja & Hparse).
  destruct (AssetSchema_networks _ _ Hparse) as (Hnumbers & raw & Hraw & Hn).
  rewrite Hn. repeat match goal with |- _ /\ _ => split end.
  - apply flaredGas_present.
  - intros ja' Hja' Habsent. rewrite Hja in Hja'. injection Hja' as <-.
    exact (flaredGas_default _ _ Hraw Habsent).
  - exact Hnumbers.
  - intros key m Hm. exact (withFlaredGas_checked _ _ _ _ Hraw Hm).
Qed.

(** The summary of the contract test, whose assets have [networks: {}]. *)
Lemma summary_assets_have_flared_gas_witness :
  exists k,
    useSummary_queryFn contractSummary = Success k
    /\ flaredGas (networks (west_asset k)) = Some DEFAULT_FLARED_GAS_METRICS.
Proof.
  eexists. split; [vm_compute; reflexivity|].
  match goal with
  | |- flaredGas (networks (west_asset ?k)) = _ =>
      destruct (summary_assets_have_flared_gas contractSummary k) with "west" (west_asset k)
        as (_ & Hdefault & _);
        [vm_compute; reflexivity | right; split; reflexivity |];
        apply (Hdefault (contractAsset "warning")); reflexivity
  end.
Defined.

End SchemaExtras.

(* ------------------------------------------------------------------ *)
(** * More on the gap drivers                                          *)
(* ------------------------------------------------------------------ *)

Module GapDriverExtras.
Import Js Double GapDrivers Ranking JsFacts DoubleFacts GapDriverFacts.

(** X7.  Every driver of the answer comes from the table: it was built
    by the loop body for one network of one facility of one unit of one
    asset of the table, it is named after that facility, and when the
    request carries a non-empty [asset] parameter that asset is the one
    asked for.  So a request for an asset never shows a driver of another
    asset, and a request for an asset that the table does not have gets
    the empty list. *)
Theorem every_driver_has_a_source (table : list AssetNet) (param : option string)
  (d : GapDriver) :
  In d (gapDrivers table param) ->
  (exists asset unit fac key metrics,
     In asset table /\ In unit (units asset) /\ In fac (facilities unit)
     /\ In (key, metrics) (networksOf fac)
     /\ driverOf asset unit fac key metrics = Some d
     /\ nodeId d = id fac /\ nodeName d = name fac
     /\ (forall f, assetFilterOf param = Some f -> assetId asset = f))
  /\ (forall f, assetFilterOf param = Some f ->
        exists asset, In asset table /\ assetId asset = f).
Proof.
  intro H. apply In_gapDrivers in H.
  destruct (In_collect _ _ _ H)
    as (asset & unit & fac & key & metrics & Ha & Hu & Hf & Hn & Hd & Hscope).
  split.
  - exists asset, unit, fac, key, metrics.
    repeat match goal with |- _ /\ _ => split end; try assumption.
    + now apply (driverOf_Some asset unit fac key metrics).
    + unfold driverOf in Hd. destruct (toStream key); [|discriminate].
      destruct (Qeq_bool (lost metrics) 0); [discriminate|].
      injection Hd as <-. reflexivity.
  - intros f Hparam. exists asset. auto.
Qed.

(** The first driver of the answer for the west asset. *)
Lemma every_driver_has_a_source_witness :
  exists d asset unit fac key metrics,
    In d (handler (Some "west"))
    /\ In asset assets /\ assetId asset = "west"
    /\ driverOf asset unit fac key metrics = Some d
    /\ nodeId d = id fac.
Proof.
  assert (H : exists d, In d (handler (Some "west"))).
  { eexists. vm_compute. left. reflexivity. }
  destruct H as (d & Hd).
  destruct (every_driver_has_a_source assets (Some "west") d Hd)
    as ((asset & unit & fac & key & metrics & Ha & _ & _ & _ & Hdriver & Hid & _ & Hscope) & _).
  exists d, asset, unit, fac, key, metrics.
  split; [exact Hd|]. split; [exact Ha|].
  split; [apply Hscope; reflexivity|]. split; assumption.
Defined.

Lemma lost_whole (metrics : BasicNetMetrics) :
  exists z : Z, (0 <= z)%Z /\ (lost metrics == inject_Z z)%Q.
Proof.
  unfold lost.
  set (z := Qfloor match deferment metrics with Some d => d | None => 0 end).
  destruct (Z_le_gt_dec 0 z) as [Hz|Hz].
  - exists z. split; [exact Hz|]. apply Q.max_r.
    change (inject_Z 0 <= inject_Z z)%Q. now rewrite <- Zle_Qle.
  - exists 0%Z. split; [lia|]. apply Q.max_l.
    change (inject_Z z <= inject_Z 0)%Q. rewrite <- Zle_Qle. lia.
Qed.

Lemma nearestTenth_nonneg (x : Q) : (0 <= x)%Q -> (0 <= nearestTenth x)%Q.
Proof.
  intro H. unfold nearestTenth.
  assert (Hz : (0 <= Qfloor (x * 10 + (1 # 2)))%Z).
  { change 0%Z with (Qfloor 0). apply Qfloor_resp_le. lra. }
  rewrite Zle_Qle in Hz. change (inject_Z 0) with 0%Q in Hz.
  unfold Qdiv. apply Qmult_le_0_compat; [exact Hz|]. discriminate.
Qed.

Lemma toFixed1_nonneg (x : number) : (0 <= x)%Q -> (0 <= toFixed1 x)%Q.
Proof.
  intro H. unfold toFixed1.
  assert (E : Qltb x 0 = false) by (now apply Qltb_ge).
  rewrite E.
  assert (Ha : (0 <= Qabs x)%Q) by apply Qabs_nonneg.
  destruct (Qle_bool (inject_Z (10 ^ 21)) (Qabs x)); [exact Ha|].
  apply fl_nonneg, nearestTenth_nonneg, Ha.
Qed.

Lemma percentageOf_nonneg (key : NetworkKey) (metrics : BasicNetMetrics) :
  (0 <= percentageOf key metrics)%Q.
Proof.
  unfold percentageOf. destruct (Qltb 0 (capacity key metrics)) eqn:E; [|apply Qle_refl].
  apply Qltb_lt in E.
  destruct (lost_whole metrics) as (z & Hz & Hlost).
  rewrite Zle_Qle in Hz. change (inject_Z 0) with 0%Q in Hz.
  apply fl_nonneg.
  apply Qmult_le_0_compat; [|discriminate].
  apply fl_nonneg. rewrite Hlost.
  unfold Qdiv. apply Qmult_le_0_compat; [exact Hz|].
  apply Qlt_le_weak. now apply Qinv_lt_0_compat.
Qed.

Lemma driverOf_invariants (asset : AssetNet) (unit : UnitNet) (fac : FacilityNet)
  (key : NetworkKey) (metrics : BasicNetMetrics) (d : GapDriver) :
  driverOf asset unit fac key metrics = Some d ->
  (0 < lostProduction (impact d))%Q
  /\ (exists z : Z, (lostProduction (impact d) == inject_Z z)%Q)
  /\ (0 <= percentage (impact d))%Q
  /\ (12 <= totalHours d)%Q
  /\ status d = active
  /\ (exists stream, toStream key = Some stream /\ affectedStreams d = [stream]).
Proof.
  unfold driverOf. intro H. destruct (toStream key) as [stream|]; [|discriminate].
  destruct (Qeq_bool (lost metrics) 0) eqn:E; [discriminate|].
  injection H as <-. cbn.
  destruct (lost_whole metrics) as (z & Hz & Hlost).
  repeat match goal with |- _ /\ _ => split end.
  - apply Qeq_bool_neq in E. rewrite Hlost in *.
    rewrite Zle_Qle in Hz. change (inject_Z 0) with 0%Q in Hz.
    destruct (Qle_lt_or_eq _ _ Hz) as [Hlt|Heq]; [exact Hlt|].
    exfalso. apply E. now rewrite <- Heq.
  - now exists z.
  - apply toFixed1_nonneg, percentageOf_nonneg.
  - unfold floor.
    assert (Hf : (0 <= Qfloor (percentageOf key metrics))%Z).
    { change 0%Z with (Qfloor 0). apply Qfloor_resp_le, percentageOf_nonneg. }
    rewrite Zle_Qle in Hf. change (inject_Z 0) with 0%Q in Hf.
    apply (fl_above 12); [lia|]. change (inject_Z 12) with 12%Q. lra.
  - reflexivity.
  - now exists stream.
Qed.

(** X8.  What every driver of the answer looks like: it loses a positive
    whole amount (a network without loss gets no driver), its percentage
    is not negative, its duration is at least 12 hours, it is active, and
    it names exactly one affected stream, which is never the flared
    gas. *)
Theorem drivers_are_positive_losses (table : list AssetNet) (param : option string)
  (d : GapDriver) :
  In d (gapDrivers table param) ->
  (0 < lostProduction (impact d))%Q
  /\ (exists z : Z, (lostProduction (impact d) == inject_Z z)%Q)
  /\ (0 <= percentage (impact d))%Q
  /\ (12 <= totalHours d)%Q
  /\ status d = active
  /\ (exists stream, affectedStreams d = [stream]).
Proof.
  intro H. apply In_gapDrivers in H.
  destruct (In_collect _ _ _ H) as (asset & unit & fac & key & metrics & _ & _ & _ & _ & Hd & _).
  destruct (driverOf_invariants _ _ _ _ _ _ Hd) as (H1 & H2 & H3 & H4 & H5 & stream & _ & H6).
  eauto 10.
Qed.

(** The first driver of the unfiltered answer. *)
Lemma drivers_are_positive_losses_witness :
  exists d,
    In d (handler None)
    /\ (0 < lostProduction (impact d))%Q
    /\ (12 <= totalHours d)%Q
    /\ status d = active.
Proof.
  assert (H : exists d, In d (handler None)).
  { eexists. vm_compute. left. reflexivity. }
  destruct H as (d & Hd). exists d.
  destruct (drivers_are_positive_losses assets None d Hd) as (H1 & _ & _ & H4 & H5 & _).
  auto.
Defined.

Lemma losing_insert (v : number) (x : GapDriver) (l : list GapDriver) :
  losing v (insert byImpact x l)
  = if Qeq_bool (lostProduction (impact x)) v then x :: losing v l else losing v l.
Proof.
  induction l as [|y l IH]; [reflexivity|].
  cbn [insert]. destruct (Qltb 0 (byImpact x y)) eqn:E; [|reflexivity].
  unfold losing in *. cbn [filter]. rewrite IH.
  destruct (Qeq_bool (lostProduction (impact x)) v) eqn:Ex; [|reflexivity].
  destruct (Qeq_bool (lostProduction (impact y)) v) eqn:Ey; [|reflexivity].
  exfalso. apply Qltb_lt in E. apply Qeq_bool_eq in Ex, Ey.
  unfold byImpact in E. lra.
Qed.

Lemma losing_sort (v : number) (l : list GapDriver) :
  losing v (sort byImpact l) = losing v l.
Proof.
  induction l as [|x l IH]; [reflexivity|].
  change (sort byImpact (x :: l)) with (insert byImpact x (sort byImpact l)).
  rewrite losing_insert, IH. reflexivity.
Qed.

(** X9.  The ranking is stable: sorting by impact never swaps two drivers
    that lose the same amount, they stay in the order in which the loops
    over the table pushed them; and the drivers of a given loss that make
    it into the capped answer are the first ones of the table with that
    loss. *)
Theorem ties_keep_the_table_order (table : list AssetNet) (param : option string)
  (v : number) :
  let drivers := collect table (assetFilterOf param) in
  losing v (sort byImpact drivers) = losing v drivers
  /\ exists rest, losing v drivers = (losing v (gapDrivers table param) ++ rest)%list.
Proof.
  intro drivers. split; [apply losing_sort|].
  unfold gapDrivers. fold drivers.
  exists (losing v (skipn 12 (sort byImpact drivers))).
  rewrite <- (losing_sort v drivers) at 1.
  rewrite <- (firstn_skipn 12 (sort byImpact drivers)) at 1.
  unfold losing. apply filter_app.
Qed.

End GapDriverExtras.

(* ------------------------------------------------------------------ *)
(** * More on the retries                                              *)
(* ------------------------------------------------------------------ *)

Module RetryExtras.
Import Js Api Retry RetryTraces.

(** The trace of a read under a policy that gives up from [bound]
    failures on. *)
Lemma run_bounded {R} (options : QueryOptions) (bound : nat) :
  (forall k e, (bound <= k)%nat -> shouldRetry options k e = false) ->
  forall (answers : list (Thrown + R)) (failureCount : nat),
    (failureCount <= bound)%nat ->
    let r := run options answers failureCount in
    (calls r <= S (bound - failureCount))%nat
    /\ (List.length (delays r) <= bound - failureCount)%nat
    /\ delays r = map (retryDelay options) (seq failureCount (List.length (delays r))).
Proof.
  intros Hstop answers. induction answers as [|[e|r] rest IH]; intros c Hc; cbn zeta.
  - cbn. repeat split; lia.
  - cbn [run]. destruct (shouldRetry options c e) eqn:E.
    + assert (Hlt : (c < bound)%nat).
      { destruct (Nat.lt_ge_cases c bound) as [H|H]; [exact H|].
        rewrite (Hstop c e H) in E. discriminate. }
      destruct (IH (S c) Hlt) as (H1 & H2 & H3). cbn [calls delays List.length].
      repeat split; try lia.
      cbn [seq map]. now rewrite <- H3.
    + cbn. repeat split; lia.
  - cbn. repeat split; lia.
Qed.

Lemma retry_stops (failureCount : nat) (error : Thrown) :
  (3 <= failureCount)%nat ->
  shouldRetry useNodes failureCount error = false
  /\ shouldRetry useAssets failureCount error = false
  /\ shouldRetry useProductionFlow failureCount error = false
  /\ shouldRetry useOptimisations failureCount error = false.
Proof.
  intro H. unfold shouldRetry. cbn [retry useNodes useAssets useProductionFlow useOptimisations].
  unfold useNodes_retry, defaultRetry.
  assert (E3 : (failureCount <? 3)%nat = false) by (apply Nat.ltb_ge; lia).
  assert (E2 : (failureCount <? 2)%nat = false) by (apply Nat.ltb_ge; lia).
  rewrite E3, E2.
  repeat split.
  - now destruct (includes "4" (messageOf error)).
  - now destruct ((400 <=? responseStatus error)%nat && (responseStatus error <? 500)%nat).
Qed.

Lemma delays_of_three (options : QueryOptions) (n : nat) :
  retryDelay options 0 = 1000%Z -> retryDelay options 1 = 2000%Z ->
  retryDelay options 2 = 4000%Z -> (n <= 3)%nat ->
  map (retryDelay options) (seq 0 n) = firstn n [1000; 2000; 4000]%Z.
Proof.
  intros H0 H1 H2 Hn.
  destruct n as [|[|[|[|n]]]]; cbn [seq map firstn]; try rewrite H0; try rewrite H1;
    try rewrite H2; try reflexivity. lia.
Qed.

Lemma givesUpAfter_bound {R} (options : QueryOptions) (bound : nat)
  (answers : list (Thrown + R)) :
  (forall k e, (bound <= k)%nat -> shouldRetry options k e = false) ->
  retryDelay options 0 = 1000%Z -> retryDelay options 1 = 2000%Z ->
  retryDelay options 2 = 4000%Z -> (bound <= 3)%nat ->
  givesUpAfter bound options answers.
Proof.
  intros Hstop H0 H1 H2 Hb. unfold givesUpAfter, fetch. cbn zeta.
  destruct (run_bounded options bound Hstop answers 0 (Nat.le_0_l _)) as (Hc & Hl & Hd).
  rewrite Nat.sub_0_r in Hc, Hl.
  repeat split; try assumption.
  rewrite Hd at 1. apply delays_of_three; try assumption. lia.
Qed.

(** X10.  Every read gives up: whatever the transport answers, and for
    however long it keeps failing, a read of [useNodes], [useAssets] or
    [useProductionFlow] calls it at most 4 times and a read of
    [useOptimisations] at most 3 times; the waits between the calls are
    1 s, 2 s and 4 s, in this order, so a read has settled or is at its
    last call after 7 s of waiting. *)
Theorem every_read_gives_up {R} (answers : list (Thrown + R)) :
  givesUpAfter 3 useNodes answers
  /\ givesUpAfter 3 useAssets answers
  /\ givesUpAfter 3 useProductionFlow answers
  /\ givesUpAfter 2 useOptimisations answers.
Proof.
  split; [|split; [|split]];
    apply givesUpAfter_bound; try reflexivity; try lia;
    try (intros k e Hk; now apply retry_stops).
  intros k e Hk. unfold shouldRetry. cbn [retry useOptimisations].
  apply Nat.ltb_ge. exact Hk.
Qed.

Lemma run_failures {R} (options : QueryOptions) (errors : list Thrown)
  (rest : list (Thrown + R)) :
  forall failureCount,
    (forall i e, nth_error errors i = Some e ->
                 shouldRetry options (failureCount + i) e = true) ->
    let next := run options rest (failureCount + List.length errors) in
    run options (failures errors ++ rest) failureCount
    = {| outcome := outcome next;
         calls := List.length errors + calls next;
         delays := map (retryDelay options) (seq failureCount (List.length errors))
                   ++ delays next |}.
Proof.
  induction errors as [|e errors IH]; intros c Hall; cbn zeta.
  - cbn. rewrite Nat.add_0_r. now destruct (run options rest c).
  - cbn [failures map app run]. fold (@failures R errors).
    pose proof (Hall 0%nat e eq_refl) as He. rewrite Nat.add_0_r in He. rewrite He.
    rewrite (IH (S c)).
    + cbn [outcome calls delays List.length seq map app].
      now rewrite Nat.add_succ_r.
    + intros i e' Hi. rewrite Nat.add_succ_comm. now apply (Hall (S i)).
Qed.

(** X11.  What a read does with failures that are retried: it resolves
    with the first answer that is not a failure, after one call for each
    failure and one more, having slept the delay of each failure in turn;
    and it is rejected with the first failure that is not retried, the
    answers after it never being asked for. *)
Theorem read_settles_with_first_final_answer {R} (options : QueryOptions)
  (errors : list Thrown) (rest : list (Thrown + R)) :
  allRetried options errors ->
  (forall r,
     fetch options (failures errors ++ inr r :: rest)
     = {| outcome := Resolved r;
          calls := S (List.length errors);
          delays := map (retryDelay options) (seq 0 (List.length errors)) |})
  /\ (forall e,
        shouldRetry options (List.length errors) e = false ->
        fetch options (failures errors ++ inl e :: rest)
        = {| outcome := RejectedWith e;
             calls := S (List.length errors);
             delays := map (retryDelay options) (seq 0 (List.length errors)) |}).
Proof.
  intro Hall. split.
  - intro r. unfold fetch. rewrite run_failures by exact Hall.
    cbn. now rewrite Nat.add_1_r, app_nil_r.
  - intros e He. unfold fetch. rewrite run_failures by exact Hall.
    cbn [run Nat.add]. rewrite He. cbn. now rewrite Nat.add_1_r, app_nil_r.
Qed.

(** Two outages answered by the third call of [useProductionFlow]. *)
Lemma read_settles_with_first_final_answer_witness :
  fetch useProductionFlow (failures [serverDown; serverDown] ++ [inr tt])
  = {| outcome := Resolved tt; calls := 3; delays := [1000; 2000]%Z |}.
Proof.
  refine (proj1 (read_settles_with_first_final_answer useProductionFlow
                   [serverDown; serverDown] [] _) tt).
  intros [|[|i]] e H; try reflexivity. destruct i; discriminate H.
Defined.

(** X12.  The default retry predicate never sees the status of a failure
    of the API client: the response interceptor rejects with a plain
    [{ message, code, timestamp }], so for every failed answer, a 4xx
    included, [useAssets] retries until three failures were counted and
    calls the transport four times before the failure surfaces. *)
Theorem default_retry_sees_no_status {R} (now : string) (cause : AxiosError)
  (failureCount : nat) (rest : list (Thrown + R)) :
  responseStatus (rejection now cause) = 0%nat
  /\ defaultRetry failureCount (rejection now cause) = (failureCount <? 3)%nat
  /\ fetch useAssets (failures (repeat (rejection now cause) 4) ++ rest)
     = {| outcome := RejectedWith (rejection now cause); calls := 4;
          delays := [1000; 2000; 4000]%Z |}.
Proof. repeat split. Qed.

End RetryExtras.

(* ------------------------------------------------------------------ *)
(** * More on the push events                                          *)
(* ------------------------------------------------------------------ *)

Module WebSocketExtras.
Import Js QueryClient WebSocketEvents CacheViews QueryClientFacts WebSocketFacts.

Section Events.
Context {Data : Type}.
Implicit Types (cache : Cache Data) (q : Query Data).

Lemma mark_none cache : mark (fun _ => false) cache = cache.
Proof. unfold mark. induction cache as [|q cache IH]; [reflexivity|]. cbn. now rewrite IH. Qed.

(** An event invalidates the queries whose key satisfies a predicate that
    depends on the event only. *)
Lemma handleEvent_mark (event : OptimisationEvent) :
  exists p : QueryKey -> bool, forall cache, handleEvent event cache = mark p cache.
Proof.
  assert (Htype : exists p : QueryKey -> bool,
             forall cache, invalidateByType (type event) cache = mark p cache).
  { unfold invalidateByType.
    destruct (String.eqb (type event) "new_optimisation"
              || String.eqb (type event) "optimisation_update").
    { eexists. intro cache. apply invalidateQueries_mark. }
    destruct (String.eqb (type event) "system_alert").
    { eexists. intro cache. rewrite !invalidateQueries_mark. apply mark_mark. }
    destruct (String.eqb (type event) "performance_change").
    { eexists. intro cache. rewrite !invalidateQueries_mark. apply mark_mark. }
    exists (fun _ => false). intro cache. symmetry. apply mark_none. }
  destruct Htype as (p & Hp). unfold handleEvent.
  destruct (affectedAssets event) as [assets|].
  - eexists. intro cache. rewrite Hp. apply invalidateByAssets_mark.
  - exists p. intro cache. now rewrite Hp.
Qed.

Lemma mark_frame (p : QueryKey -> bool) cache :
  map queryKey (mark p cache) = map queryKey cache
  /\ map QueryClient.data (mark p cache) = map QueryClient.data cache
  /\ map dataUpdatedAt (mark p cache) = map dataUpdatedAt cache
  /\ Forall2 (fun q q' => isInvalidated q = true -> isInvalidated q' = true)
             cache (mark p cache).
Proof.
  unfold mark. induction cache as [|q cache (IH1 & IH2 & IH3 & IH4)].
  - repeat split; constructor.
  - cbn [map]. rewrite IH1, IH2, IH3.
    repeat split; try (now destruct (p (queryKey q))).
    constructor; [|exact IH4]. now destruct (p (queryKey q)).
Qed.

End Events.

(** X13.  Push events can be delivered twice or out of order: handling an
    event a second time changes nothing, and handling two events in
    either order leaves the same cache. *)
Theorem events_replay_and_reorder {Data} (first second : OptimisationEvent)
  (cache : Cache Data) :
  handleEvent first (handleEvent first cache) = handleEvent first cache
  /\ handleEvent first (handleEvent second cache)
     = handleEvent second (handleEvent first cache).
Proof.
  destruct (handleEvent_mark (Data := Data) first) as (p1 & H1).
  destruct (handleEvent_mark (Data := Data) second) as (p2 & H2).
  repeat (rewrite H1 || rewrite H2). rewrite !mark_mark.
  split; apply mark_ext; intro key.
  - apply orb_diag.
  - apply orb_comm.
Qed.

(** X14.  A message only ever marks queries as invalidated: whatever the
    message, the cache keeps the same queries in the same order with the
    same data and the same time of last write, and no query that was
    invalidated becomes fresh again. *)
Theorem messages_only_invalidate {Data} (parsed : option OptimisationEvent)
  (cache : Cache Data) :
  let after := handleMessage parsed cache in
  map queryKey after = map queryKey cache
  /\ map QueryClient.data after = map QueryClient.data cache
  /\ map dataUpdatedAt after = map dataUpdatedAt cache
  /\ Forall2 (fun q q' => isInvalidated q = true -> isInvalidated q' = true) cache after.
Proof.
  cbn zeta. destruct parsed as [event|]; cbn [handleMessage].
  - destruct (handleEvent_mark (Data := Data) event) as (p & ->). apply mark_frame.
  - rewrite <- (mark_none cache) at 1 3 5 8. apply mark_frame.
Qed.

Lemma handleEvent_invalidatedBy {Data} (event : OptimisationEvent) (cache : Cache Data) :
  handleEvent event cache = mark (invalidatedBy event) cache.
Proof.
  unfold handleEvent, invalidatedBy, assetsOf.
  assert (Htype : invalidateByType (type event) cache = mark (byType (type event)) cache).
  { unfold invalidateByType, byType.
    destruct (String.eqb (type event) "new_optimisation"
              || String.eqb (type event) "optimisation_update");
      [apply invalidateQueries_mark|].
    destruct (String.eqb (type event) "system_alert");
      [rewrite !invalidateQueries_mark; apply mark_mark|].
    destruct (String.eqb (type event) "performance_change");
      [rewrite !invalidateQueries_mark; apply mark_mark|].
    symmetry. apply mark_none. }
  rewrite Htype. destruct (affectedAssets event) as [assets|].
  - apply invalidateByAssets_mark.
  - cbn [invalidateByAssets]. apply mark_ext. intro key. cbn. now rewrite orb_false_r.
Qed.

Lemma kind_matches (kind t : string) (rest more : QueryKey) :
  partialMatchKey (K kind :: rest) (K t :: more) = true -> kind = t.
Proof.
  cbn [partialMatchKey partialMatchPart K Scalar_eqb]. intro H.
  apply andb_true_iff in H as (H & _). now apply String.eqb_eq.
Qed.

Lemma kind_differs (kind t : string) (rest more : QueryKey) :
  kind <> t -> partialMatchKey (K kind :: rest) (K t :: more) = false.
Proof.
  intro H. destruct (partialMatchKey (K kind :: rest) (K t :: more)) eqn:E; [|reflexivity].
  apply kind_matches in E. contradiction.
Qed.

Lemma byAsset_kind (assets : list string) (kind : string) (rest : QueryKey) :
  kind <> "summary" -> kind <> "optimisations" ->
  byAsset assets (K kind :: rest) = false.
Proof.
  intros H1 H2. unfold byAsset. induction assets as [|asset assets IH]; [reflexivity|].
  cbn [existsb]. rewrite IH, !kind_differs by assumption. reflexivity.
Qed.

Lemma kind_same (kind : string) (rest : QueryKey) :
  partialMatchKey (K kind :: rest) [K kind] = true.
Proof.
  cbn [partialMatchKey partialMatchPart K Scalar_eqb]. now rewrite String.eqb_refl.
Qed.

(** X27.  Each kind of query is refreshed by its own events only: a push
    event leaves a nodes query invalidated exactly when it was so before
    or the event is a performance change, an alerts query exactly when it
    was so before or the event is a system alert, and it never touches a
    query of another kind than optimisations, alerts, summary and nodes;
    the assets, production-flow and gap-driver queries are refreshed by
    their polling only. *)
Theorem events_refresh_their_queries_only {Data} (event : OptimisationEvent)
  (cache : Cache Data) (i : nat) (q : Query Data) (kind : string) (rest : QueryKey) :
  nth_error cache i = Some q ->
  queryKey q = K kind :: rest ->
  exists q',
    nth_error (handleEvent event cache) i = Some q'
    /\ (kind = "nodes" ->
        isInvalidated q'
        = isInvalidated q || String.eqb (type event) "performance_change")
    /\ (kind = "alerts" ->
        isInvalidated q' = isInvalidated q || String.eqb (type event) "system_alert")
    /\ (kind <> "optimisations" -> kind <> "alerts" -> kind <> "summary" ->
        kind <> "nodes" -> q' = q).
Proof.
  intros Hq Hkey. rewrite handleEvent_invalidatedBy.
  eexists. split; [exact (nth_error_mark _ _ _ _ Hq)|].
  rewrite Hkey. unfold invalidatedBy, byType.
  repeat match goal with |- _ /\ _ => split end.
  - intros ->. rewrite byAsset_kind by discriminate.
    rewrite !(kind_differs "nodes" "optimisations"), !(kind_differs "nodes" "alerts"),
      !(kind_differs "nodes" "summary") by discriminate.
    rewrite kind_same.
    destruct (String.eqb (type event) "new_optimisation"
              || String.eqb (type event) "optimisation_update") eqn:E1.
    + assert (E : String.eqb (type event) "performance_change" = false).
      { apply orb_true_iff in E1 as [E|E]; apply String.eqb_eq in E; now rewrite E. }
      rewrite E. cbn. now rewrite orb_false_r.
    + destruct (String.eqb (type event) "system_alert") eqn:E2.
      * apply String.eqb_eq in E2. rewrite E2. cbn. now rewrite orb_false_r.
      * destruct (String.eqb (type event) "performance_change"); cbn;
          [now rewrite orb_true_r | now rewrite orb_false_r].
  - intros ->. rewrite byAsset_kind by discriminate.
    rewrite !(kind_differs "alerts" "optimisations"), !(kind_differs "alerts" "nodes"),
      !(kind_differs "alerts" "summary") by discriminate.
    rewrite kind_same.
    destruct (String.eqb (type event) "new_optimisation"
              || String.eqb (type event) "optimisation_update") eqn:E1.
    + assert (E : String.eqb (type event) "system_alert" = false).
      { apply orb_true_iff in E1 as [E|E]; apply String.eqb_eq in E; now rewrite E. }
      rewrite E. cbn. now rewrite orb_false_r.
    + destruct (String.eqb (type event) "system_alert"); cbn;
        [now rewrite orb_true_r|].
      destruct (String.eqb (type event) "performance_change"); cbn; now rewrite orb_false_r.
  - intros H1 H2 H3 H4. rewrite byAsset_kind by assumption.
    rewrite !(kind_differs kind) by assumption.
    destruct (String.eqb (type event) "new_optimisation"
              || String.eqb (type event) "optimisation_update");
      [reflexivity|].
    destruct (String.eqb (type event) "system_alert"); [reflexivity|].
    now destruct (String.eqb (type event) "performance_change").
Qed.

(** The alert for the west asset invalidates the alerts query. *)
Lemma events_refresh_their_queries_only_witness :
  exists q',
    nth_error (handleEvent westAlert westCache) 2 = Some q'
    /\ isInvalidated q' = true.
Proof.
  destruct (events_refresh_their_queries_only westAlert westCache 2 allAlerts "alerts"
              [KObject [("role", SString "all")]] eq_refl eq_refl)
    as (q' & Hq' & _ & Halerts & _).
  exists q'. split; [exact Hq'|]. now rewrite (Halerts eq_refl).
Defined.

End WebSocketExtras.

(* ------------------------------------------------------------------ *)
(** * The state of the WebSocket hook                                  *)
(* ------------------------------------------------------------------ *)

Module WebSocketHookFacts.
Import Js WebSocketEvents MockFilters WebSocketHook.

Lemma sliceFrom_keepLast {A} (n : nat) (l : list A) :
  sliceFrom (- Z.of_nat (S n)) l = keepLast (S n) l.
Proof.
  unfold sliceFrom, keepLast, sliceIndex.
  assert (E : (- Z.of_nat (S n) <? 0)%Z = true) by (apply Z.ltb_lt; lia).
  rewrite E. f_equal. lia.
Qed.

Lemma keepLast_all {A} (n : nat) (l : list A) :
  (List.length l <= n)%nat -> keepLast n l = l.
Proof.
  intro H. unfold keepLast. replace (List.length l - n)%nat with 0%nat by lia. reflexivity.
Qed.

Lemma keepLast_length {A} (n : nat) (l : list A) :
  List.length (keepLast n l) = Nat.min n (List.length l).
Proof. unfold keepLast. rewrite length_skipn. lia. Qed.

Lemma keepLast_push {A} (n : nat) (l : list A) (x : A) :
  (keepLast n (keepLast (S n) l) ++ [x])%list = keepLast (S n) (l ++ [x]).
Proof.
  destruct (Nat.le_gt_cases (List.length l) n) as [H|H].
  - rewrite (keepLast_all (S n) l) by lia. rewrite (keepLast_all n l) by lia.
    rewrite keepLast_all; [reflexivity|]. rewrite length_app. cbn. lia.
  - unfold keepLast at 1. rewrite keepLast_length.
    unfold keepLast. rewrite skipn_skipn, length_app. cbn [List.length].
    rewrite skipn_app.
    replace (List.length l + 1 - S n - List.length l)%nat with 0%nat by lia.
    cbn [skipn]. do 2 f_equal. lia.
Qed.

Lemma lastOf_push {A} (l : list A) (x : A) : lastOf (l ++ [x]) = Some x.
Proof. unfold lastOf. now rewrite rev_app_distr. Qed.

Lemma lastOf_keepLast {A} (n : nat) (l : list A) :
  lastOf (keepLast (S n) l) = lastOf l.
Proof.
  destruct l as [|y l'] using rev_ind; [reflexivity|].
  rewrite <- keepLast_push. now rewrite !lastOf_push.
Qed.

Lemma keepLast_snoc {A} (n : nat) (l : list A) (x : A) :
  (keepLast n l ++ [x])%list = keepLast (S n) (l ++ [x]).
Proof.
  unfold keepLast. rewrite length_app. cbn [List.length].
  rewrite skipn_app.
  replace (List.length l + 1 - S n - List.length l)%nat with 0%nat by lia.
  cbn [skipn]. do 2 f_equal. lia.
Qed.

Lemma lastOrNull_push (l : list JsValue) (v : JsValue) : lastOrNull (l ++ [v]) = v.
Proof. unfold lastOrNull. now rewrite lastOf_push. Qed.

Lemma lastOrNull_keepLast (n : nat) (l : list JsValue) :
  lastOrNull (keepLast (S n) l) = lastOrNull l.
Proof. unfold lastOrNull. now rewrite lastOf_keepLast. Qed.

Lemma step_buffer (options : ReconnectOptions) (h : Hook) (x : Happening)
  (acc : list JsValue) :
  events (state h) = keepLast 100 acc /\ lastEvent (state h) = lastOrNull acc ->
  events (state (step options h x)) = keepLast 100 (received [x] acc)
  /\ lastEvent (state (step options h x)) = lastOrNull (received [x] acc).
Proof.
  intros (He & Hl).
  destruct x as [|[v|]| |wasClean reason| | |]; cbn [step received]; try (now split).
  - cbn [state withState onMessage events lastEvent]. rewrite He.
    rewrite (sliceFrom_keepLast 98), keepLast_push, lastOrNull_push. now split.
  - unfold handleClose.
    destruct (enabled options && negb wasClean
              && (reconnectAttempts h <? maxAttempts options)%nat); now split.
Qed.

Lemma run_buffer (options : ReconnectOptions) (xs : list Happening) :
  forall (h : Hook) (acc : list JsValue),
    events (state h) = keepLast 100 acc /\ lastEvent (state h) = lastOrNull acc ->
    let h' := fold_left (step options) xs h in
    events (state h') = keepLast 100 (received xs acc)
    /\ lastEvent (state h') = lastOrNull (received xs acc).
Proof.
  induction xs as [|x xs IH]; intros h acc Hinv; [exact Hinv|].
  cbn [fold_left]. cbn zeta.
  replace (received (x :: xs) acc) with (received xs (received [x] acc)).
  - apply IH. now apply step_buffer.
  - now destruct x as [|[v|]| | | | |].
Qed.

Lemma hookAfter_push (options : ReconnectOptions) (xs : list Happening) (x : Happening) :
  hookAfter options (xs ++ [x]) = step options (hookAfter options xs) x.
Proof. unfold hookAfter. now rewrite fold_left_app. Qed.

Lemma buffer_of_history (options : ReconnectOptions) (xs : list Happening) :
  let s := state (hookAfter options xs) in
  events s = keepLast 100 (received xs [])
  /\ lastEvent s = lastOrNull (received xs [])
  /\ lastEvent s = lastOrNull (events s)
  /\ (List.length (events s) <= 100)%nat.
Proof.
  cbn zeta. destruct (run_buffer options xs initialHook []) as (He & Hl); [now split|].
  unfold hookAfter. rewrite He, Hl.
  repeat split.
  - symmetry. apply lastOrNull_keepLast.
  - rewrite keepLast_length. lia.
Qed.

(** X15.  The hook keeps the last 100 values parsed: after any history
    of connections, messages, failures and clearings, [events] holds what
    [JSON.parse] returned for the messages since the events were last
    cleared, oldest first, cut to the 100 most recent, and [lastEvent] is
    the most recent of them ([null] when there is none).  Whatever value
    the next message parses to, an event or not, becomes the last event
    and the newest of the events, and the error is set exactly when the
    handling of that value throws, as it does on [null]; a message that
    does not parse leaves the events and the last event as they are and
    sets the error. *)
Theorem events_are_the_last_hundred (options : ReconnectOptions) (xs : list Happening) :
  let s := state (hookAfter options xs) in
  events s = keepLast 100 (received xs [])
  /\ (List.length (events s) <= 100)%nat
  /\ lastEvent s = lastOrNull (received xs [])
  /\ lastEvent s = lastOrNull (events s)
  /\ (forall v : JsValue,
        let s' := state (hookAfter options (xs ++ [message (Some v)])) in
        lastEvent s' = v
        /\ events s' = keepLast 100 (events s ++ [v])
        /\ error s' = (if handlingThrows v then Some "Failed to parse WebSocket message"
                       else None))
  /\ (let s' := state (hookAfter options (xs ++ [message None])) in
      lastEvent s' = lastEvent s /\ events s' = events s
      /\ error s' = Some "Failed to parse WebSocket message")
  /\ handlingThrows JNull = true.
Proof.
  cbn zeta. destruct (buffer_of_history options xs) as (He & Hl & Hle & Hlen).
  cbn zeta in He, Hl, Hle, Hlen.
  split; [exact He|]. split; [exact Hlen|]. split; [exact Hl|]. split; [exact Hle|].
  split.
  - intro v. rewrite hookAfter_push.
    cbn [step state withState onMessage lastEvent events error].
    repeat split.
    rewrite (sliceFrom_keepLast 98). apply keepLast_snoc.
  - split; [|reflexivity]. rewrite hookAfter_push.
    cbn [step state withState onMessage lastEvent events error]. now repeat split.
Qed.

(** After the alert and a message whose text is [null], the buffer holds
    the alert and [null], the last event is [null] and the error is
    set. *)
Example null_is_buffered :
  let s := state (hookAfter fiveAttempts
                            [opened; message (Some westAlertJson); message (Some JNull)]) in
  events s = [westAlertJson; JNull] /\ lastEvent s = JNull
  /\ error s = Some "Failed to parse WebSocket message".
Proof. repeat split. Qed.








Lemma lastOf_Some {A} (l : list A) (x : A) :
  lastOf l = Some x -> exists l', l = (l' ++ [x])%list.
Proof.
  unfold lastOf. intro H. destruct (rev l) as [|y r] eqn:E; [discriminate|].
  injection H as ->. exists (rev r).
  rewrite <- (rev_involutive l), E. reflexivity.
Qed.

Lemma existsb_isNull (l : list JsValue) : existsb isNull l = true <-> In JNull l.
Proof.
  rewrite existsb_exists. split.
  - intros (v & Hv & Hn). destruct v; try discriminate. exact Hv.
  - intro H. exists JNull. split; [exact H | reflexivity].
Qed.

(** X26.  What [useHighPriorityEvents] makes of the state of the hook
    after any history.  While the buffer holds a [null], as it does from
    a message whose text is [null] until 100 more values were parsed or
    the events were cleared, it throws.  Otherwise its events are the
    values of the buffer whose priority is critical or high, in the order
    of the buffer and at most 100; when it shows a last event, that is
    the most recent value parsed and the last of the events shown; when
    the most recent value has no critical or high priority it shows no
    last event. *)
Theorem high_priority_view (options : ReconnectOptions) (xs : list Happening) :
  let s := state (hookAfter options xs) in
  (In JNull (events s) -> useHighPriorityEvents s = inl noPriorityOfNull)
  /\ (~ In JNull (events s) ->
      exists view,
        useHighPriorityEvents s = inr view
        /\ shownEvents view = filter isHighPriority (events s)
        /\ Forall (fun event => In event (events s) /\ isHighPriority event = true)
                  (shownEvents view)
        /\ (List.length (shownEvents view) <= 100)%nat
        /\ (shownLastEvent view <> JNull ->
            shownLastEvent view = lastEvent s
            /\ lastOf (shownEvents view) = Some (lastEvent s))
        /\ (isHighPriority (lastEvent s) = false -> shownLastEvent view = JNull))
  /\ useHighPriorityEvents (state (hookAfter options (xs ++ [message (Some JNull)])))
     = inl noPriorityOfNull.
Proof.
  cbn zeta. destruct (buffer_of_history options xs) as (He & Hl & Hle & Hlen).
  cbn zeta in He, Hl, Hle, Hlen.
  set (s := state (hookAfter options xs)) in *.
  split; [|split].
  - intro Hnull. unfold useHighPriorityEvents.
    apply existsb_isNull in Hnull. now rewrite Hnull.
  - intro Hnone. unfold useHighPriorityEvents.
    destruct (existsb isNull (events s)) eqn:E;
      [exfalso; apply Hnone; now apply existsb_isNull|].
    eexists. split; [reflexivity|]. cbn [shownEvents shownLastEvent].
    split; [reflexivity|].
    split; [apply Forall_forall; intros event H; now apply filter_In|].
    split.
    { apply Nat.le_trans with (List.length (events s)); [apply filter_length_le | exact Hlen]. }
    split.
    + destruct (isHighPriority (lastEvent s)) eqn:Ep; [|intro H; now contradiction H].
      intros _. split; [reflexivity|].
      unfold lastOrNull in Hle.
      destruct (lastOf (events s)) as [v|] eqn:El.
      * apply lastOf_Some in El as (l' & El'). subst v.
        rewrite El', filter_app. cbn [filter]. rewrite Ep. apply lastOf_push.
      * rewrite Hle in Ep. discriminate Ep.
    + intro Ep. now rewrite Ep.
  - rewrite hookAfter_push. unfold useHighPriorityEvents.
    cbn [step state withState onMessage events].
    rewrite (proj2 (existsb_isNull _)); [reflexivity|].
    apply in_or_app. right. now left.
Qed.

(** The alert, of high priority, after the socket has opened: it is
    shown, also as the last event; after an event of low priority no last
    event is shown. *)
Lemma high_priority_view_witness :
  let s := state (hookAfter fiveAttempts [opened; message (Some westAlertJson)]) in
  let s' := state (hookAfter fiveAttempts
                             [opened; message (Some westAlertJson);
                              message (Some efficiencyJson)]) in
  useHighPriorityEvents s
  = inr {| shownEvents := [westAlertJson]; shownLastEvent := westAlertJson |}
  /\ (exists view, useHighPriorityEvents s' = inr view /\ shownLastEvent view = JNull).
Proof.
  intros s s'. split; [reflexivity|].
  destruct (high_priority_view fiveAttempts
              [opened; message (Some westAlertJson); message (Some efficiencyJson)])
    as (_ & H & _).
  destruct H as (view & Hview & _ & _ & _ & _ & Hlow).
  - cbn. intros [H|[H|[]]]; discriminate H.
  - exists view. split; [exact Hview|]. apply Hlow. reflexivity.
Defined.

End WebSocketHookFacts.

(* ------------------------------------------------------------------ *)
(** * The list filters of the mock handlers                            *)
(* ------------------------------------------------------------------ *)

Module MockFilterFacts.
Import Js Optimisations MockFilters.

Lemma In_skipn_In {A} (n : nat) (l : list A) (x : A) : In x (skipn n l) -> In x l.
Proof.
  revert l. induction n as [|n IH]; intros [|y l] H; simpl in H; try assumption.
  right. now apply IH.
Qed.

Lemma In_slice {A} (first final : Z) (l : list A) (x : A) :
  In x (slice first final l) -> In x l.
Proof.
  unfold slice. intro H. apply GapDriverFacts.In_firstn_In in H.
  now apply In_skipn_In in H.
Qed.

Lemma slice_rowsFrom {A} (offset limit : Z) (l : list A) :
  (0 <= offset)%Z -> (0 <= limit)%Z ->
  slice offset (offset + limit) l = rowsFrom offset limit l.
Proof.
  intros Ho Hl. unfold slice, rowsFrom, sliceIndex.
  assert (E1 : (offset <? 0)%Z = false) by (apply Z.ltb_ge; lia).
  assert (E2 : (offset + limit <? 0)%Z = false) by (apply Z.ltb_ge; lia).
  rewrite E1, E2.
  destruct (Nat.le_gt_cases (List.length l) (Z.to_nat offset)) as [H|H].
  - rewrite (skipn_all2 l H).
    replace (Nat.min (Z.to_nat offset) (List.length l)) with (List.length l) by lia.
    rewrite skipn_all. now rewrite !firstn_nil.
  - replace (Nat.min (Z.to_nat offset) (List.length l)) with (Z.to_nat offset) by lia.
    replace (Nat.min (Z.to_nat (offset + limit)) (List.length l) - Z.to_nat offset)%nat
      with (Nat.min (Z.to_nat limit) (List.length (skipn (Z.to_nat offset) l)))
      by (rewrite length_skipn; lia).
    rewrite <- firstn_firstn. now rewrite firstn_all.
Qed.

Lemma slice_length {A} (first count : Z) (l : list A) :
  (0 <= count)%Z ->
  (List.length (slice first (first + count) l) <= Z.to_nat count)%nat.
Proof.
  intro Hcount. unfold slice, sliceIndex. rewrite length_firstn, length_skipn.
  destruct (first <? 0)%Z eqn:E1; destruct (first + count <? 0)%Z eqn:E2;
    try apply Z.ltb_lt in E1; try apply Z.ltb_ge in E1;
    try apply Z.ltb_lt in E2; try apply Z.ltb_ge in E2; lia.
Qed.

Lemma filter_filter {A} (p1 p2 : A -> bool) (l : list A) :
  filter p2 (filter p1 l) = filter (fun x => p1 x && p2 x) l.
Proof.
  induction l as [|x l IH]; [reflexivity|].
  cbn [filter]. destruct (p1 x); cbn [filter andb]; now rewrite IH.
Qed.

Lemma filter_true {A} (l : list A) : filter (fun _ => true) l = l.
Proof. induction l as [|x l IH]; [reflexivity|]. cbn. now rewrite IH. Qed.

Lemma filterOptimisations_paginate (optimisations : list OptimisationAction)
  (query : OptimisationsQuery) :
  filterOptimisations optimisations query
  = paginate (q_offset query) (q_limit query)
             (filter (optimisationMatches query) optimisations).
Proof.
  unfold filterOptimisations. rewrite !filter_filter. f_equal.
  apply filter_ext. intro o. unfold optimisationMatches. apply andb_assoc.
Qed.

Lemma filterConstraints_paginate (constraints : list ConstraintEvent)
  (query : ConstraintsQuery) :
  filterConstraints constraints query
  = paginate (cq_offset query) (cq_limit query)
             (filter (constraintMatches query) constraints).
Proof.
  unfold filterConstraints, constraintMatches. f_equal.
  destruct (cq_stream query) as [s|], (cq_severity query) as [v|],
           (cq_nodeId query) as [n|];
    try destruct (String.eqb n EmptyString);
    rewrite ?filter_filter; try reflexivity;
    try (rewrite <- (filter_true constraints) at 1; rewrite ?filter_filter);
    apply filter_ext; intro c; cbn [andb];
    rewrite ?andb_true_r, <- ?andb_assoc; reflexivity.
Qed.

Lemma Forall_paginate {A} (P : A -> Prop) (offset limit : option Z) (l : list A) :
  Forall P l -> Forall P (paginate offset limit l).
Proof.
  intro H. apply Forall_forall. intros x Hx. unfold paginate in Hx.
  apply In_slice in Hx. exact (proj1 (Forall_forall P l) H x Hx).
Qed.

Lemma Forall_filter {A} (p : A -> bool) (l : list A) :
  Forall (fun x => In x l /\ p x = true) (filter p l).
Proof. apply Forall_forall. intros x Hx. now apply filter_In. Qed.

(** X18.  The list filters return only what was asked for: every row
    that [filterOptimisations] or [filterConstraints] returns is a row of
    the data that passes every filter given in the query, and the rows
    come in the order of the data; each function is one pass of the
    conjunction of its filters followed by the pagination. *)
Theorem filters_select_matching_rows
  (optimisations : list OptimisationAction) (query : OptimisationsQuery)
  (constraints : list ConstraintEvent) (constraintsQuery : ConstraintsQuery) :
  filterOptimisations optimisations query
  = paginate (q_offset query) (q_limit query)
             (filter (optimisationMatches query) optimisations)
  /\ Forall (fun o => In o optimisations /\ optimisationMatches query o = true)
            (filterOptimisations optimisations query)
  /\ filterConstraints constraints constraintsQuery
     = paginate (cq_offset constraintsQuery) (cq_limit constraintsQuery)
                (filter (constraintMatches constraintsQuery) constraints)
  /\ Forall (fun c => In c constraints /\ constraintMatches constraintsQuery c = true)
            (filterConstraints constraints constraintsQuery).
Proof.
  rewrite filterOptimisations_paginate, filterConstraints_paginate.
  repeat split; try reflexivity; apply Forall_paginate, Forall_filter.
Qed.

Lemma paginate_rowsFrom {A} (offset limit : Z) (l : list A) :
  (0 <= offset)%Z -> (0 < limit)%Z ->
  paginate (Some offset) (Some limit) l = rowsFrom offset limit l.
Proof.
  intros Ho Hl. unfold paginate, orElse.
  destruct (offset =? 0)%Z eqn:E0; [apply Z.eqb_eq in E0; subst offset|];
    (destruct (limit =? 0)%Z eqn:E1; [apply Z.eqb_eq in E1; lia|]);
    apply slice_rowsFrom; lia.
Qed.

Lemma firstn_add {A} (a b : nat) (l : list A) :
  firstn (a + b) l = (firstn a l ++ firstn b (skipn a l))%list.
Proof.
  revert l. induction a as [|a IH]; intros [|x l]; cbn [Nat.add firstn skipn app];
    try reflexivity.
  - now rewrite firstn_nil.
  - now rewrite IH.
Qed.

Lemma rowsFrom_next {A} (offset limit : Z) (l : list A) :
  (0 <= offset)%Z -> (0 < limit)%Z ->
  (rowsFrom offset limit l ++ rowsFrom (offset + limit) limit l)%list
  = rowsFrom offset (limit + limit) l.
Proof.
  intros Ho Hl. unfold rowsFrom.
  rewrite !Z2Nat.inj_add by lia. rewrite firstn_add, skipn_skipn.
  now rewrite (Nat.add_comm (Z.to_nat limit)).
Qed.

(** X19.  Pagination returns consecutive rows: for an offset that is not
    negative and a positive limit, both list filters return the rows
    [offset], [offset + 1], ... of the matching rows, [limit] of them at
    most, and the page that starts where a page ends continues it without
    a gap or a repeat. *)
Theorem pages_are_consecutive_rows
  (optimisations : list OptimisationAction) (query : OptimisationsQuery)
  (constraints : list ConstraintEvent) (constraintsQuery : ConstraintsQuery)
  (offset limit : Z) :
  (0 <= offset)%Z -> (0 < limit)%Z ->
  let matching := filter (optimisationMatches query) optimisations in
  filterOptimisations optimisations (page query (Some offset) (Some limit))
  = rowsFrom offset limit matching
  /\ filterConstraints constraints (constraintsPage constraintsQuery (Some offset) (Some limit))
     = rowsFrom offset limit (filter (constraintMatches constraintsQuery) constraints)
  /\ (filterOptimisations optimisations (page query (Some offset) (Some limit))
      ++ filterOptimisations optimisations (page query (Some (offset + limit)%Z) (Some limit)))%list
     = rowsFrom offset (limit + limit) matching.
Proof.
  intros Ho Hl matching.
  assert (H : forall o, (0 <= o)%Z ->
             filterOptimisations optimisations (page query (Some o) (Some limit))
             = rowsFrom o limit matching).
  { intros o Hpos. rewrite filterOptimisations_paginate. cbn [q_offset q_limit page].
    now apply paginate_rowsFrom. }
  split; [now apply H|]. split.
  - rewrite filterConstraints_paginate. cbn [cq_offset cq_limit constraintsPage].
    now apply paginate_rowsFrom.
  - rewrite !H by lia. now apply rowsFrom_next.
Qed.

(** Two pages of one row over two optimisations. *)
Lemma pages_are_consecutive_rows_witness :
  filterOptimisations [opt_001; opt_001] (page everyOptimisation (Some 0%Z) (Some 1%Z))
  = [opt_001]
  /\ (filterOptimisations [opt_001; opt_001] (page everyOptimisation (Some 0%Z) (Some 1%Z))
      ++ filterOptimisations [opt_001; opt_001] (page everyOptimisation (Some 1%Z) (Some 1%Z)))%list
     = [opt_001; opt_001].
Proof.
  destruct (pages_are_consecutive_rows [opt_001; opt_001] everyOptimisation []
              everyConstraint 0 1) as (H1 & _ & H2); [lia | lia |].
  split; [exact H1 | exact H2].
Defined.

(** X20.  The page size has a default and a cap: a limit that is missing,
    not a number or 0 is read as 50 and an offset that is missing or not a
    number as 0, so a list filter never returns more than 50 rows unless
    asked to, and for a limit that is not negative it never returns more
    rows than the limit. *)
Theorem page_size_has_a_default
  (optimisations : list OptimisationAction) (query : OptimisationsQuery) (limit : Z) :
  (0 <= limit)%Z ->
  (List.length (filterOptimisations optimisations (page query (q_offset query) (Some limit)))
   <= Z.to_nat (if (limit =? 0)%Z then 50 else limit))%nat
  /\ filterOptimisations optimisations (page query (q_offset query) None)
     = filterOptimisations optimisations (page query (q_offset query) (Some 50%Z))
  /\ filterOptimisations optimisations (page query (q_offset query) (Some 0%Z))
     = filterOptimisations optimisations (page query (q_offset query) (Some 50%Z))
  /\ filterOptimisations optimisations (page query None (q_limit query))
     = filterOptimisations optimisations (page query (Some 0%Z) (q_limit query))
  /\ (List.length (filterOptimisations optimisations (page query (q_offset query) None))
      <= 50)%nat.
Proof.
  intro Hl.
  assert (Hcap : forall l : option Z,
             (0 <= orElse l 50)%Z ->
             (List.length (filterOptimisations optimisations (page query (q_offset query) l))
              <= Z.to_nat (orElse l 50))%nat).
  { intros l Hpos. rewrite filterOptimisations_paginate. cbn [q_offset q_limit page].
    unfold paginate. now apply slice_length. }
  repeat match goal with |- _ /\ _ => split end; try reflexivity.
  - specialize (Hcap (Some limit)). cbn [orElse] in Hcap.
    destruct (limit =? 0)%Z; apply Hcap; lia.
  - apply (Hcap None). cbn. lia.
Qed.

(** A limit of 0 over two optimisations returns both. *)
Lemma page_size_has_a_default_witness :
  filterOptimisations [opt_001; opt_001] (page everyOptimisation None (Some 0%Z))
  = [opt_001; opt_001]
  /\ (List.length (filterOptimisations [opt_001; opt_001]
                                       (page everyOptimisation None (Some 0%Z))) <= 50)%nat.
Proof.
  split; [reflexivity|].
  destruct (page_size_has_a_default [opt_001; opt_001] everyOptimisation 0) as (H & _);
    [lia|]. exact H.
Defined.

End MockFilterFacts.

(* ------------------------------------------------------------------ *)
(** * The nodes query                                                  *)
(* ------------------------------------------------------------------ *)

Module NodesFacts.
Import Js QueryClient Nodes QueryClientFacts.

Lemma assoc_app {A} (k : string) (l1 l2 : list (string * A)) :
  assoc k (l1 ++ l2) = match assoc k l1 with Some v => Some v | None => assoc k l2 end.
Proof.
  induction l1 as [|[k' v] l1 IH]; [reflexivity|].
  cbn [app assoc]. now destruct (String.eqb k k').
Qed.

Lemma assoc_setUnless (fallback k k' v : string) :
  assoc k (setUnless fallback k' v)
  = if String.eqb v fallback then None else if String.eqb k k' then Some v else None.
Proof. unfold setUnless. destruct (String.eqb v fallback); reflexivity. Qed.

(** A filter is read back from the request: the parameter of its name, or
    its default when the request has none. *)
Lemma requestParams_assoc (f : Filters) :
  assoc "stream" (requestParams f)
  = (if String.eqb (stream f) "all" then None else Some (stream f))
  /\ assoc "asset" (requestParams f)
     = (if String.eqb (asset f) "all" then None else Some (asset f))
  /\ assoc "unit" (requestParams f)
     = (if String.eqb (unit f) "all" then None else Some (unit f))
  /\ assoc "view" (requestParams f)
     = (if String.eqb (view f) "overview" then None else Some (view f)).
Proof.
  unfold requestParams. rewrite !assoc_app, !assoc_setUnless.
  cbn [String.eqb Ascii.eqb Bool.eqb].
  destruct (String.eqb (stream f) "all"), (String.eqb (asset f) "all"),
           (String.eqb (unit f) "all"), (String.eqb (view f) "overview");
    repeat split.
Qed.

Lemma decode_filter (fallback v w : string) :
  (if String.eqb v fallback then None else Some v)
  = (if String.eqb w fallback then None else Some w) ->
  v = w.
Proof.
  destruct (String.eqb v fallback) eqn:Ev, (String.eqb w fallback) eqn:Ew;
    try discriminate.
  - apply String.eqb_eq in Ev, Ew. congruence.
  - intro H. now injection H.
Qed.

Lemma requestParams_inj (f g : Filters) : requestParams f = requestParams g -> f = g.
Proof.
  intro H.
  destruct (requestParams_assoc f) as (F1 & F2 & F3 & F4).
  destruct (requestParams_assoc g) as (G1 & G2 & G3 & G4).
  rewrite H in F1, F2, F3, F4. rewrite G1 in F1. rewrite G2 in F2.
  rewrite G3 in F3. rewrite G4 in F4.
  apply decode_filter in F1, F2, F3, F4.
  destruct f, g. cbn in *. congruence.
Qed.

Lemma queryKey_inj (f g : Filters) : queryKey f = queryKey g -> f = g.
Proof. destruct f, g. unfold queryKey. cbn. intro H. injection H as -> -> -> ->. reflexivity. Qed.

Lemma getOr_nonempty (k fallback : string) (searchParams : SearchParams) :
  String.eqb fallback EmptyString = false ->
  String.eqb (getOr k fallback searchParams) EmptyString = false.
Proof.
  intro H. unfold getOr. destruct (assoc k searchParams) as [v|]; [|exact H].
  destruct (String.eqb v EmptyString) eqn:E; [exact H | exact E].
Qed.

Lemma getOr_decode (fallback v : string) (found : option string) :
  String.eqb v EmptyString = false ->
  found = (if String.eqb v fallback then None else Some v) ->
  match found with
  | Some w => if String.eqb w EmptyString then fallback else w
  | None => fallback
  end = v.
Proof.
  intros Hv ->. destruct (String.eqb v fallback) eqn:E.
  - apply String.eqb_eq in E. now subst.
  - now rewrite Hv.
Qed.

Lemma filtersOf_requestParams (searchParams : SearchParams) :
  filtersOf (requestParams (filtersOf searchParams)) = filtersOf searchParams.
Proof.
  set (f := filtersOf searchParams).
  destruct (requestParams_assoc f) as (F1 & F2 & F3 & F4).
  unfold filtersOf at 1. unfold getOr at 1 2 3 4.
  rewrite (getOr_decode "all" (stream f) _
             (getOr_nonempty "stream" "all" searchParams eq_refl) F1).
  rewrite (getOr_decode "all" (asset f) _
             (getOr_nonempty "asset" "all" searchParams eq_refl) F2).
  rewrite (getOr_decode "all" (unit f) _
             (getOr_nonempty "unit" "all" searchParams eq_refl) F3).
  rewrite (getOr_decode "overview" (view f) _
             (getOr_nonempty "view" "overview" searchParams eq_refl) F4).
  now destruct f.
Qed.

(** X21.  The nodes query has one cache entry for each request: two
    filter settings have the same query hash exactly when they send the
    same request parameters, which is exactly when they are the same
    settings; so no two different requests share cached data and no
    request is cached twice.  The request carries the filters of the page
    address: reading the filters back from the parameters sent gives the
    filters the page had.  Every such entry is under ['nodes'], the
    prefix that a performance change invalidates. *)
Theorem nodes_key_matches_request (f g : Filters) (searchParams : SearchParams) :
  (sameHash (queryKey f) (queryKey g) = true <-> requestParams f = requestParams g)
  /\ (requestParams f = requestParams g <-> f = g)
  /\ filtersOf (requestParams (filtersOf searchParams)) = filtersOf searchParams
  /\ partialMatchKey (queryKey f) [K "nodes"] = true.
Proof.
  assert (Hparams : requestParams f = requestParams g <-> f = g).
  { split; [apply requestParams_inj | now intros ->]. }
  split; [|split; [exact Hparams | split; [apply filtersOf_requestParams | reflexivity]]].
  rewrite Hparams, sameHash_eq. split; [apply queryKey_inj | now intros ->].
Qed.

End NodesFacts.

(* ------------------------------------------------------------------ *)
(** * The production flow view                                         *)
(* ------------------------------------------------------------------ *)

Module FlowViewFacts.
Import Js Zod Schemas SummarySchemas FlowView JsFacts ZodFacts SchemaFacts SchemaExtras.

Lemma fold_push (l : list TopologyFacility) :
  forall acc : ByType,
    fold_left push l acc
    = {| by_flowstation := (by_flowstation acc ++ ofType flowstation l)%list;
         by_compressor_station :=
           (by_compressor_station acc ++ ofType compressor_station l)%list;
         by_gas_plant := (by_gas_plant acc ++ ofType gas_plant l)%list;
         by_terminal := (by_terminal acc ++ ofType terminal l)%list |}.
Proof.
  induction l as [|f l IH]; intro acc.
  - cbn. rewrite !app_nil_r. now destruct acc.
  - cbn [fold_left]. rewrite IH. unfold push, ofType. cbn [filter].
    destruct (tf_type f); cbn [FacilityType_eqb by_flowstation by_compressor_station
                               by_gas_plant by_terminal];
      rewrite <- ?app_assoc; reflexivity.
Qed.

Lemma ofType_length (l : list TopologyFacility) :
  (List.length (ofType flowstation l) + List.length (ofType compressor_station l)
   + List.length (ofType gas_plant l) + List.length (ofType terminal l))%nat
  = List.length l.
Proof.
  induction l as [|f l IH]; [reflexivity|].
  unfold ofType in *. cbn [filter].
  destruct (tf_type f); cbn [FacilityType_eqb List.length]; lia.
Qed.

Lemma viewOf_by_type (assetId : option AssetId) (parsed : ProductionFlow) :
  let v := viewOf assetId parsed in
  let shown := kept assetId parsed in
  flowstations v = map flowstationOf (ofType flowstation shown)
  /\ compressorStations v = map compressorStationOf (ofType compressor_station shown)
  /\ gasPlants v = map gasPlantOf (ofType gas_plant shown)
  /\ terminals v = map terminalOf (ofType terminal shown).
Proof.
  cbn zeta. unfold viewOf, facilitiesByType. fold (kept assetId parsed).
  rewrite fold_push. repeat split.
Qed.

(** X22.  The view sorts every facility into one list: the flowstations,
    compressor stations, gas plants and terminals of the view are the
    facilities of that type among those of the asset asked for (all
    facilities when no asset is asked for), in the order of the answer, so
    each such facility is shown once and in one list only.  The pipelines
    are all the edges of the answer, whatever the asset asked for. *)
Theorem view_sorts_facilities_by_type (assetId : option AssetId) (parsed : ProductionFlow) :
  let v := viewOf assetId parsed in
  let shown := kept assetId parsed in
  flowstations v = map flowstationOf (ofType flowstation shown)
  /\ compressorStations v = map compressorStationOf (ofType compressor_station shown)
  /\ gasPlants v = map gasPlantOf (ofType gas_plant shown)
  /\ terminals v = map terminalOf (ofType terminal shown)
  /\ (List.length (flowstations v) + List.length (compressorStations v)
      + List.length (gasPlants v) + List.length (terminals v))%nat
     = List.length shown
  /\ kept None parsed = flow_facilities parsed
  /\ pipelines v = pipelines (viewOf None parsed)
  /\ List.length (pipelines v) = List.length (flow_edges parsed).
Proof.
  cbn zeta. destruct (viewOf_by_type assetId parsed) as (H1 & H2 & H3 & H4).
  cbn zeta in H1, H2, H3, H4. rewrite H1, H2, H3, H4.
  repeat split.
  - rewrite !length_map. apply ofType_length.
  - unfold kept. cbn [inAsset].
    induction (flow_facilities parsed) as [|f l IH]; [reflexivity|]. cbn. now rewrite IH.
  - apply length_map.
Qed.

Lemma production_nonneg (f : TopologyFacility) (key : NetworkKey) :
  (forall m, network key (tf_networks f) = Some m -> nonNegative (checkedNumbers m)) ->
  forall p, production (network key (tf_networks f)) = Some p -> (0 <= p)%Q.
Proof.
  intros H p Hp. destruct (network key (tf_networks f)) as [m|]; [|discriminate].
  injection Hp as <-. specialize (H m eq_refl).
  unfold nonNegative, checkedNumbers in H.
  inversion H as [|? ? _ H1]; subst. inversion H1 as [|? ? _ H2]; subst.
  now inversion H2.
Qed.

Lemma nonnegative_Success (v : option JsValue) (n : number) :
  nonnegative number_ v = Success n -> (0 <= n)%Q.
Proof.
  unfold nonnegative, number_. destruct v as [[ | |d| | | ]|]; simpl; try discriminate.
  destruct (Qltb d 0) eqn:E; [discriminate|].
  intro H. injection H as <-. now apply Qltb_ge.
Qed.

Lemma TopologyEdgeSchema_checked (je : JsValue) (e : TopologyEdge) :
  TopologyEdgeSchema (Some je) = Success e ->
  (0 <= edge_maxCapacity e)%Q /\ (0 <= currentThroughput e)%Q.
Proof.
  intro H. apply object_Success in H as (fs & Hv & H).
  injection Hv as ->. zod_steps H. injection H as <-. cbn.
  split; eapply nonnegative_Success; eassumption.
Qed.

Lemma ProductionFlowSchema_edges (p : JsValue) (r : ProductionFlow) :
  ProductionFlowSchema (Some p) = Success r ->
  Forall2 (fun x e => TopologyEdgeSchema (Some x) = Success e)
          (elements "edges" p) (flow_edges r).
Proof.
  intro H. apply object_Success in H as (fs & Hv & H).
  injection Hv as ->. zod_steps H. injection H as <-. cbn [flow_edges].
  now apply array_Success.
Qed.

Lemma kept_belongs (a : AssetId) (parsed : ProductionFlow) (f : TopologyFacility) :
  In f (kept (Some a) parsed) ->
  In f (flow_facilities parsed) /\ belongsTo a (flow_units parsed) f.
Proof.
  unfold kept. intro H. apply filter_In in H as (Hin & H). split; [exact Hin|].
  cbn [inAsset] in H.
  destruct (List.find _ (flow_units parsed)) as [u|] eqn:E; [|discriminate].
  apply find_some in E as (Hu & Hid). exists u.
  split; [exact Hu|]. split; [now apply String.eqb_eq|].
  now destruct (tu_assetId u), a.
Qed.

Lemma In_kept (assetId : option AssetId) (parsed : ProductionFlow) (t : FacilityType)
  (f : TopologyFacility) :
  In f (ofType t (kept assetId parsed)) -> In f (flow_facilities parsed).
Proof.
  unfold ofType, kept. intro H. apply filter_In in H as (H & _).
  now apply filter_In in H as (H & _).
Qed.

(** X23.  What the map shows of an accepted answer: when the answer
    passes [ProductionFlowSchema], every throughput and sales-gas figure
    of the view and every capacity and throughput of a pipeline is
    non-negative (0 when the facility has no such network), and when an
    asset was asked for, every facility shown belongs to a production unit
    of that asset; a facility whose unit is not in the answer is not
    shown. *)
Theorem view_of_an_accepted_answer (assetId : option AssetId) (payload : JsValue)
  (v : ProductionFlowView) :
  useProductionFlow_queryFn assetId payload = Success v ->
  exists parsed,
    ProductionFlowSchema (Some payload) = Success parsed
    /\ v = viewOf assetId parsed
    /\ Forall (fun s => (0 <= fs_throughput s)%Q) (flowstations v)
    /\ Forall (fun c => (0 <= cs_throughput c)%Q) (compressorStations v)
    /\ Forall (fun g => (0 <= salesGas g)%Q) (gasPlants v)
    /\ Forall (fun p => (0 <= pl_maxCapacity p)%Q /\ (0 <= pl_currentThroughput p)%Q)
              (pipelines v)
    /\ (forall a, assetId = Some a ->
          Forall (belongsTo a (flow_units parsed)) (kept assetId parsed)).
Proof.
  unfold useProductionFlow_queryFn. intro H.
  apply bind_Success in H as (parsed & Hparsed & H). injection H as <-.
  exists parsed. split; [exact Hparsed|]. split; [reflexivity|].
  destruct (viewOf_by_type assetId parsed) as (H1 & H2 & H3 & _).
  cbn zeta in H1, H2, H3. rewrite H1, H2, H3.
  assert (Hnet : forall t f key p,
             In f (ofType t (kept assetId parsed)) ->
             production (network key (tf_networks f)) = Some p -> (0 <= p)%Q).
  { intros t f key p Hf. apply production_nonneg. intros m Hm.
    exact (flow_metrics_are_non_negative _ _ _ _ _ Hparsed (In_kept _ _ _ _ Hf) Hm). }
  repeat match goal with |- _ /\ _ => split end.
  - apply Forall_forall. intros s Hs. apply in_map_iff in Hs as (f & <- & Hf).
    cbn [flowstationOf fs_throughput]. unfold coalesce.
    destruct (production (oil (tf_networks f))) as [p|] eqn:E; [|apply Qle_refl].
    exact (Hnet _ f k_oil p Hf E).
  - apply Forall_forall. intros c Hc. apply in_map_iff in Hc as (f & <- & Hf).
    cbn [compressorStationOf cs_throughput]. unfold coalesce.
    destruct (production (domesticGas (tf_networks f))) as [p|] eqn:E.
    + exact (Hnet _ f k_domesticGas p Hf E).
    + destruct (production (exportGas (tf_networks f))) as [p|] eqn:E'; [|apply Qle_refl].
      exact (Hnet _ f k_exportGas p Hf E').
  - apply Forall_forall. intros g Hg. apply in_map_iff in Hg as (f & <- & Hf).
    cbn [gasPlantOf salesGas]. unfold coalesce.
    destruct (production (exportGas (tf_networks f))) as [p|] eqn:E.
    + exact (Hnet _ f k_exportGas p Hf E).
    + destruct (production (domesticGas (tf_networks f))) as [p|] eqn:E'; [|apply Qle_refl].
      exact (Hnet _ f k_domesticGas p Hf E').
  - apply Forall_forall. intros p Hp. cbn [viewOf pipelines] in Hp.
    apply in_map_iff in Hp as (e & <- & He).
    destruct (Forall2_In_r _ _ _ (ProductionFlowSchema_edges _ _ Hparsed) e He)
      as (je & _ & Hje).
    exact (TopologyEdgeSchema_checked _ _ Hje).
  - intros a ->. apply Forall_forall. intros f Hf. now apply kept_belongs.
Qed.

(** The payload of the contract test, read for the east asset. *)
Lemma view_of_an_accepted_answer_witness :
  exists v,
    useProductionFlow_queryFn (Some east) contractFlow = Success v
    /\ map fs_id (flowstations v) = ["f1"]
    /\ Forall (fun s => (0 <= fs_throughput s)%Q) (flowstations v).
Proof.
  eexists. split; [vm_compute; reflexivity|]. split; [reflexivity|].
  match goal with
  | |- Forall _ (flowstations ?v) =>
      destruct (view_of_an_accepted_answer (Some east) contractFlow v)
        as (_ & _ & _ & H & _); [vm_compute; reflexivity | exact H]
  end.
Defined.

End FlowViewFacts.

(* ------------------------------------------------------------------ *)
(** * More on the optimisation mutations                               *)
(* ------------------------------------------------------------------ *)

Module MutationFacts.
Import Js QueryClient Api Optimisations CacheViews QueryClientFacts OptimisationFacts
       WebSocketFacts.

Section Staleness.
Context {Data Exn : Type}.
Implicit Types (cache : Cache Data) (q : Query Data) (key : QueryKey).

Lemma find_None_iff key cache : find key cache = None <-> ~ In key (map queryKey cache).
Proof.
  induction cache as [|q cache IH]; cbn [find map In]; [tauto|].
  destruct (sameHash (queryKey q) key) eqn:E.
  - apply sameHash_eq in E. split; [discriminate | tauto].
  - assert (queryKey q <> key) by (intro H; rewrite H, sameHash_refl in E; discriminate).
    tauto.
Qed.

Lemma find_key key cache q : find key cache = Some q -> queryKey q = key.
Proof.
  induction cache as [|q' cache IH]; cbn [find]; [discriminate|].
  destruct (sameHash (queryKey q') key) eqn:E; [|exact IH].
  intro H. injection H as <-. now apply sameHash_eq.
Qed.

Lemma find_mark (p : QueryKey -> bool) key cache :
  find key (mark p cache)
  = match find key cache with
    | Some q => Some (if p key then invalidate q else q)
    | None => None
    end.
Proof.
  induction cache as [|q cache IH]; [reflexivity|].
  cbn [mark map find]. fold (mark p cache).
  assert (Hk : queryKey (if p (queryKey q) then invalidate q else q) = queryKey q)
    by now destruct (p (queryKey q)).
  rewrite Hk. destruct (sameHash (queryKey q) key) eqn:E; [|exact IH].
  apply sameHash_eq in E. now rewrite E.
Qed.

Lemma stale_mark (p : QueryKey -> bool) key cache :
  In key (map queryKey cache) ->
  stale key (mark p cache) = stale key cache || p key.
Proof.
  intro Hin. unfold stale. rewrite find_mark.
  destruct (find key cache) as [q|] eqn:E.
  - destruct (p key); cbn; [now rewrite orb_true_r | now rewrite orb_false_r].
  - apply find_None_iff in E. contradiction.
Qed.

Lemma store_keys (now : Z) key (d : Data) cache :
  In key (map queryKey cache) ->
  map queryKey (store now key d cache) = map queryKey cache.
Proof.
  induction cache as [|q cache IH]; cbn [map In store]; [contradiction|].
  destruct (sameHash (queryKey q) key) eqn:E; [reflexivity|].
  intros [H|H].
  - rewrite H, sameHash_refl in E. discriminate.
  - cbn [map]. now rewrite IH.
Qed.

Lemma stale_store_other (now : Z) key key' (d : Data) cache :
  key' <> key -> stale key' (store now key d cache) = stale key' cache.
Proof.
  intro Hneq. unfold stale.
  induction cache as [|q cache IH]; cbn [store find].
  - cbn. now rewrite (sameHash_neq key key') by congruence.
  - destruct (sameHash (queryKey q) key) eqn:E.
    + apply sameHash_eq in E. cbn [find setData queryKey].
      rewrite E. now rewrite (sameHash_neq key key') by congruence.
    + cbn [find]. destruct (sameHash (queryKey q) key'); [reflexivity | exact IH].
Qed.

Lemma setEach_frame (now : Z) (updater : option Data -> Exn + option Data)
  (keys : list QueryKey) :
  forall cache,
    (forall key, In key keys -> In key (map queryKey cache)) ->
    let cache' := fst (setEach now keys updater cache) in
    map queryKey cache' = map queryKey cache
    /\ (forall key, ~ In key keys -> stale key cache' = stale key cache).
Proof.
  induction keys as [|k keys IH]; intros cache Hin; cbn zeta; [now split|].
  cbn [setEach]. unfold setQueryData.
  destruct (updater (getQueryData k cache)) as [e|[d|]].
  - now split.
  - assert (Hk : map queryKey (store now k d cache) = map queryKey cache).
    { apply store_keys, Hin. now left. }
    destruct (IH (store now k d cache)) as (H1 & H2).
    { intros key Hkey. rewrite Hk. apply Hin. now right. }
    cbn zeta in H1, H2.
    destruct (setEach now keys updater (store now k d cache)) as [c [e|]] eqn:E;
      cbn [fst] in *.
    + split; [congruence|]. intros key Hkey. rewrite H2 by (cbn in Hkey; tauto).
      apply stale_store_other. cbn in Hkey. intro. subst. tauto.
    + split; [congruence|]. intros key Hkey. rewrite H2 by (cbn in Hkey; tauto).
      apply stale_store_other. cbn in Hkey. intro. subst. tauto.
  - destruct (IH cache) as (H1 & H2).
    { intros key Hkey. apply Hin. now right. }
    cbn zeta in H1, H2.
    destruct (setEach now keys updater cache) as [c [e|]] eqn:E; cbn [fst] in *.
    + split; [exact H1|]. intros key Hkey. apply H2. cbn in Hkey. tauto.
    + split; [exact H1|]. intros key Hkey. apply H2. cbn in Hkey. tauto.
Qed.

End Staleness.

Lemma completed_shows (target : string) (r : OptimisationResponse) :
  showsCompleted target (Some (Response (implementTransform target r))).
Proof.
  simpl. intros opt Hopt Hid.
  apply in_map_iff in Hopt as (o & <- & _).
  destruct (String.eqb (id o) target) eqn:E; [reflexivity|].
  apply String.eqb_neq in E. contradiction.
Qed.

(** The optimistic write keeps the queries of the cache and the marks of
    those that are not under ['optimisations']. *)
Lemma onMutate_frame (clock : Clock)
  (transform : OptimisationResponse -> OptimisationResponse) (cache : Cache CachedData) :
  let cache1 := fst (onMutateWith clock transform cache) in
  map queryKey cache1 = map queryKey cache
  /\ (forall key, partialMatchKey key [K "optimisations"] = false ->
        stale key cache1 = stale key cache).
Proof.
  cbn zeta. unfold onMutateWith, setQueriesData.
  destruct (setEach_frame (mutateAt clock) (updaterOf transform)
              (map queryKey (findAll [K "optimisations"] cache)) cache) as (H1 & H2).
  { intros key Hkey. apply In_findAll in Hkey as (q & Hq & _ & <-). now apply in_map. }
  cbn zeta in H1, H2.
  destruct (setEach (mutateAt clock) (map queryKey (findAll [K "optimisations"] cache))
                    (updaterOf transform) cache) as [c [e|]]; cbn [fst] in *.
  - split; [exact H1|]. intros key Hkey. apply H2.
    intro Hin. apply In_findAll in Hin as (q & _ & Hm & <-). congruence.
  - split; [exact H1|]. intros key Hkey. apply H2.
    intro Hin. apply In_findAll in Hin as (q & _ & Hm & <-). congruence.
Qed.

(** On a cache of responses, the rollback of [onError] gives every query
    the data it had before [onMutate]. *)
Lemma rollback_restores (clock : Clock)
  (transform : OptimisationResponse -> OptimisationResponse) (cache : Cache CachedData) :
  NoDup (map queryKey cache) ->
  responsesUnderOptimisations cache ->
  exists cache1 context,
    onMutateWith clock transform cache = (cache1, inr context)
    /\ forall q, In q cache ->
         getQueryData (queryKey q) (rollback clock (Some context) cache1) = data q.
Proof.
  intros Hnd Hresp.
  destruct (onMutate_responses clock transform cache Hnd Hresp)
    as (cache1 & Hrun & Hin & Hout).
  exists cache1. eexists. split; [exact Hrun|].
  intros q Hq. cbn [rollback previousData].
  destruct (restore_snapshot (errorAt clock)
              (getQueriesData [K "optimisations"] cache))
    with (cache := cache1) as (Hback & Hkept).
  { rewrite snapshot_keys. now apply NoDup_findAll. }
  destruct (partialMatchKey (queryKey q) [K "optimisations"]) eqn:Hm.
  - destruct (data q) as [d|] eqn:Hd.
    + apply Hback.
      unfold getQueriesData. apply in_map_iff. exists q.
      split; [now rewrite Hd|]. now apply filter_In.
    + rewrite Hkept.
      * rewrite (Hin q Hq Hm), Hd. reflexivity.
      * intro Hk. apply in_map_iff in Hk as ([k o] & Ek & Hk). simpl in Ek. subst k.
        apply filter_In in Hk as (Hk & Ho). simpl in Ho.
        unfold getQueriesData in Hk. apply in_map_iff in Hk as (q' & [= Ek Eo] & Hq').
        apply filter_In in Hq' as (Hq' & _).
        rewrite (NoDup_key_inj _ _ _ Hnd Hq' Hq Ek) in Eo.
        rewrite Hd in Eo. subst o. discriminate Ho.
  - rewrite Hkept; [now apply Hout|].
    intro Hk. apply in_map_iff in Hk as ([k o] & Ek & Hk). simpl in Ek. subst k.
    apply filter_In in Hk as (Hk & _).
    unfold getQueriesData in Hk. apply in_map_iff in Hk as (q' & [= Ek Eo] & Hq').
    apply filter_In in Hq' as (Hq' & Hm').
    rewrite (NoDup_key_inj _ _ _ Hnd Hq' Hq Ek) in Hm'. congruence.
Qed.

(** X24.  The implement mutation is optimistic and rolls back: on a cache
    whose entries under ['optimisations'] are responses, while the request
    is in flight every cached response shows the target as completed and
    every other query keeps its data; when the request fails, every query
    holds the data it held before the mutation and the failure is the
    outcome. *)
Theorem implement_is_optimistic_and_rolls_back (clock : Clock)
  (update : OptimisationActionUpdate) (cache : Cache CachedData) :
  NoDup (map queryKey cache) ->
  responsesUnderOptimisations cache ->
  let during := inFlight (useImplementOptimisation clock) update cache in
  (forall q, In q cache ->
     partialMatchKey (queryKey q) [K "optimisations"] = true ->
     showsCompleted (update_id update) (getQueryData (queryKey q) during))
  /\ (forall q, In q cache ->
        partialMatchKey (queryKey q) [K "optimisations"] = false ->
        getQueryData (queryKey q) during = data q)
  /\ (forall e, exists cache',
        implementMutation clock update (inl e) cache = (cache', inl e)
        /\ forall q, In q cache -> getQueryData (queryKey q) cache' = data q).
Proof.
  intros Hnd Hresp. cbn zeta. unfold inFlight. cbn [onMutate useImplementOptimisation].
  destruct (onMutate_responses clock (implementTransform (update_id update)) cache Hnd Hresp)
    as (cache1 & Hrun & Hin & Hout).
  rewrite Hrun. cbn [fst]. split; [|split].
  - intros q Hq Hm. rewrite (Hin q Hq Hm).
    destruct (Hresp q Hq Hm) as [->|(r & ->)]; [exact I|]. apply completed_shows.
  - exact Hout.
  - intro e.
    destruct (rollback_restores clock (implementTransform (update_id update)) cache Hnd Hresp)
      as (cache1' & context & Hrun' & Hback).
    unfold implementMutation, execute. cbn [onMutate onError onSettled useImplementOptimisation].
    rewrite Hrun'. eexists. split; [reflexivity|].
    intros q Hq. rewrite !getQueryData_invalidateQueries. now apply Hback.
Qed.

(** The implement of opt-001 on the cache of responses. *)
Lemma implement_is_optimistic_and_rolls_back_witness :
  (forall q, In q responsesOnly ->
     partialMatchKey (queryKey q) [K "optimisations"] = true ->
     showsCompleted "opt-001"
       (getQueryData (queryKey q)
          (inFlight (useImplementOptimisation clock_001) acknowledge_001 responsesOnly)))
  /\ exists cache',
       implementMutation clock_001 acknowledge_001 (inl serverError) responsesOnly
       = (cache', inl serverError)
       /\ forall q, In q responsesOnly -> getQueryData (queryKey q) cache' = data q.
Proof.
  assert (Hnd : NoDup (map queryKey responsesOnly)).
  { repeat constructor; simpl; intuition discriminate. }
  assert (Hresp : responsesUnderOptimisations responsesOnly).
  { intros q [<-|[<-|[]]] _; simpl; eauto. }
  destruct (implement_is_optimistic_and_rolls_back clock_001 acknowledge_001 responsesOnly
              Hnd Hresp) as (H1 & _ & H3).
  split; [exact H1 | exact (H3 serverError)].
Defined.

Lemma stale_In (cache : Cache CachedData) (q : Query CachedData) :
  NoDup (map queryKey cache) -> In q cache -> stale (queryKey q) cache = isInvalidated q.
Proof. intros Hnd Hq. unfold stale. now rewrite (find_In cache q Hnd Hq). Qed.

(** The cache after a mutation whose request succeeded: the optimistic
    data, with the queries that satisfy [p] marked. *)
Lemma settled_after_success (clock : Clock)
  (transform : OptimisationResponse -> OptimisationResponse) (p : QueryKey -> bool)
  (cache : Cache CachedData) (q : Query CachedData) :
  NoDup (map queryKey cache) ->
  In q cache ->
  (forall key, partialMatchKey key [K "optimisations"] = true -> p key = true) ->
  let cache1 := fst (onMutateWith clock transform cache) in
  stale (queryKey q) (mark p cache1) = (if p (queryKey q) then true else isInvalidated q).
Proof.
  intros Hnd Hq Hp. cbn zeta.
  destruct (onMutate_frame clock transform cache) as (Hkeys & Hstale). cbn zeta in Hkeys, Hstale.
  rewrite stale_mark by (rewrite Hkeys; now apply in_map).
  destruct (p (queryKey q)) eqn:E; [apply orb_true_r|].
  rewrite orb_false_r, Hstale; [now apply stale_In|].
  destruct (partialMatchKey (queryKey q) [K "optimisations"]) eqn:Hm; [|reflexivity].
  rewrite (Hp _ Hm) in E. discriminate.
Qed.

(** X25.  A mutation that succeeds leaves the refresh to a refetch: on a
    cache whose entries under ['optimisations'] are responses, after the
    request has succeeded every query still holds the optimistic data of
    the time in flight (the answer of the server is not written to the
    cache), every query under ['optimisations'] is marked as invalidated,
    for the implement mutation also every query under ['summary'] and
    ['nodes'], and every other query keeps its mark. *)
Theorem settled_mutations_refetch (clock : Clock) (update : OptimisationActionUpdate)
  (result : OptimisationAction) (cache : Cache CachedData) :
  NoDup (map queryKey cache) ->
  responsesUnderOptimisations cache ->
  exists afterAcknowledge afterImplement,
    acknowledgeMutation clock update (inr result) cache = (afterAcknowledge, inr result)
    /\ implementMutation clock update (inr result) cache = (afterImplement, inr result)
    /\ forall q, In q cache ->
         getQueryData (queryKey q) afterAcknowledge
         = getQueryData (queryKey q)
                        (inFlight (useAcknowledgeOptimisation clock) update cache)
         /\ getQueryData (queryKey q) afterImplement
            = getQueryData (queryKey q)
                           (inFlight (useImplementOptimisation clock) update cache)
         /\ stale (queryKey q) afterAcknowledge
            = (if partialMatchKey (queryKey q) [K "optimisations"] then true
               else isInvalidated q)
         /\ stale (queryKey q) afterImplement
            = (if underAny [[K "optimisations"]; [K "summary"]; [K "nodes"]] (queryKey q)
               then true else isInvalidated q).
Proof.
  intros Hnd Hresp.
  destruct (onMutate_responses clock (acknowledgeTransform (mutateAtISO clock)
                                                           (update_id update))
              cache Hnd Hresp) as (ack1 & Hack & _).
  destruct (onMutate_responses clock (implementTransform (update_id update))
              cache Hnd Hresp) as (imp1 & Himp & _).
  unfold acknowledgeMutation, implementMutation, execute, inFlight.
  cbn [onMutate onSettled useAcknowledgeOptimisation useImplementOptimisation].
  rewrite Hack, Himp. cbn [fst].
  do 2 eexists. split; [reflexivity|]. split; [reflexivity|].
  intros q Hq. rewrite !getQueryData_invalidateQueries.
  split; [reflexivity|]. split; [reflexivity|]. split.
  - pose proof (settled_after_success clock
                  (acknowledgeTransform (mutateAtISO clock) (update_id update))
                  (fun key => partialMatchKey key [K "optimisations"])
                  cache q Hnd Hq (fun _ H => H)) as S.
    cbn zeta in S. rewrite Hack in S. exact S.
  - rewrite !invalidateQueries_mark, !mark_mark.
    pose proof (settled_after_success clock (implementTransform (update_id update))
                  (fun key => partialMatchKey key [K "optimisations"]
                              || partialMatchKey key [K "summary"]
                              || partialMatchKey key [K "nodes"])
                  cache q Hnd Hq) as S.
    cbn zeta in S. rewrite Himp in S. cbn [fst] in S.
    rewrite (mark_ext _ (fun key => partialMatchKey key [K "optimisations"]
                                    || partialMatchKey key [K "summary"]
                                    || partialMatchKey key [K "nodes"]))
      by (intro key; cbv beta; now rewrite ?orb_assoc).
    rewrite S.
    + unfold underAny. cbn [existsb]. now rewrite orb_false_r, orb_assoc.
    + intros key Hm. now rewrite Hm.
Qed.

(** The acknowledge of opt-001 on the cache of responses, answered by the
    server: the list shows it acknowledged and is marked for a refetch. *)
Lemma settled_mutations_refetch_witness :
  exists afterAcknowledge,
    acknowledgeMutation clock_001 acknowledge_001 (inr opt_001) responsesOnly
    = (afterAcknowledge, inr opt_001)
    /\ stale (useOptimisations_key "all" "all" "all" "all") afterAcknowledge = true.
Proof.
  assert (Hnd : NoDup (map queryKey responsesOnly)).
  { repeat constructor; simpl; intuition discriminate. }
  assert (Hresp : responsesUnderOptimisations responsesOnly).
  { intros q [<-|[<-|[]]] _; simpl; eauto. }
  destruct (settled_mutations_refetch clock_001 acknowledge_001 opt_001 responsesOnly
              Hnd Hresp) as (after & afterImplement & Hrun & _ & Hall).
  exists after. split; [exact Hrun|].
  destruct (Hall _ (or_introl eq_refl)) as (_ & _ & Hstale & _). exact Hstale.
Defined.

End MutationFacts.
